(** * ProjetDuMois: the website API handlers and the features-update generator

    A shallow embedding of [website/index.js] (the Express route handlers:
    home redirect, project statistics, user contributions) and of
    [db/20_features_update.js] (the generator of the SQL batches and of the
    update shell script), with the properties that the project's
    specification states about them.

    Conventions of the embedding:
    - a JavaScript string is a [string]: a sequence of code units below 256;
    - a JavaScript number is an integer [Z] (counts, identifiers, tiers);
    - an object is the ordered list of its own properties;
    - a promise is represented by the way it settles ([settled]);
    - a callback that throws returns [Throw] in the [result] type. *)

From Stdlib Require Import ZArith Lia Ascii String DecimalString Sorted.
From stdpp Require Import base option list strings.

Local Open Scope Z_scope.
Set Warnings "-register-all".

(** ** JavaScript values *)

Module Js.

Inductive value : Type :=
| VUndefined
| VNull
| VBool (b : bool)
| VNum (n : Z)
| VStr (s : string)
| VArr (elems : list value)
| VObj (props : list (string * value)).

(** [ToBoolean]: what [!v] and [v ? a : b] test. *)
Definition truthy (v : value) : bool :=
  match v with
  | VUndefined | VNull => false
  | VBool b => b
  | VNum n => negb (n =? 0)
  | VStr s => negb (String.eqb s EmptyString)
  | VArr _ | VObj _ => true
  end.

(** [a === b]. Arrays and objects compare by reference; the values compared
    in this program come out of two different query results, so two of them
    are never the same reference. *)
Definition strict_eq (a b : value) : bool :=
  match a, b with
  | VUndefined, VUndefined => true
  | VNull, VNull => true
  | VBool x, VBool y => Bool.eqb x y
  | VNum x, VNum y => x =? y
  | VStr x, VStr y => String.eqb x y
  | _, _ => false
  end.

Definition primitive (v : value) : bool :=
  match v with
  | VArr _ | VObj _ => false
  | _ => true
  end.

(** An object, as the ordered list of its own enumerable properties
    ([Object.entries] order: insertion order for keys that are not array
    indices). *)
Definition object : Type := list (string * value).

Definition empty_object : object := [].

Fixpoint get_own (o : object) (k : string) : option value :=
  match o with
  | [] => None
  | (k', v) :: o' => if String.eqb k' k then Some v else get_own o' k
  end.

(** [o[k] = v]: replaces the value of an own property in place, or appends
    a new property. *)
Fixpoint set (o : object) (k : string) (v : value) : object :=
  match o with
  | [] => [(k, v)]
  | (k', v') :: o' =>
      if String.eqb k' k then (k', v) :: o' else (k', v') :: set o' k v
  end.

(** The properties every plain object inherits from [Object.prototype];
    each one is a function or an object, hence truthy. *)
Definition object_prototype_keys : list string :=
  [ "constructor"; "__proto__"; "hasOwnProperty"; "isPrototypeOf";
    "propertyIsEnumerable"; "toLocaleString"; "toString"; "valueOf";
    "__defineGetter__"; "__defineSetter__"; "__lookupGetter__";
    "__lookupSetter__" ]%string.

Definition inherited (k : string) : bool :=
  existsb (String.eqb k) object_prototype_keys.

(** Truthiness of [o[k]] for a plain object [o]: an own property decides by
    its value, an absent one by the prototype. *)
Definition has_truthy (o : object) (k : string) : bool :=
  match get_own o k with
  | Some v => truthy v
  | None => inherited k
  end.

Definition keys (o : object) : list string := map fst o.

(** *** Strings *)

(** White space and line terminators of ECMAScript among the code units
    below 256: TAB, LF, VT, FF, CR, SP, NBSP. *)
Definition is_white_space (c : ascii) : bool :=
  let n := nat_of_ascii c in
  existsb (Nat.eqb n) [9; 10; 11; 12; 13; 32; 160]%nat.

Fixpoint trim_start (s : string) : string :=
  match s with
  | EmptyString => EmptyString
  | String c s' => if is_white_space c then trim_start s' else s
  end.

Definition rev_string (s : string) : string :=
  string_of_list_ascii (rev (list_ascii_of_string s)).

(** [s.trim()] *)
Definition trim (s : string) : string :=
  rev_string (trim_start (rev_string (trim_start s))).

Definition is_digit (c : ascii) : bool :=
  let n := nat_of_ascii c in
  (48 <=? n)%nat && (n <=? 57)%nat.

Fixpoint all_digits (s : string) : bool :=
  match s with
  | EmptyString => true
  | String c s' => is_digit c && all_digits s'
  end.

(** [/^\d+$/.test(s)]: without the [m] flag [$] only matches at the end of
    the input, so the whole string is one or more ASCII digits. *)
Definition test_digits (s : string) : bool :=
  negb (String.eqb s EmptyString) && all_digits s.

(** [!s] for a string. *)
Definition falsy_string (s : string) : bool := String.eqb s EmptyString.

(** [s.split(sep)] for a one-character separator: always at least one
    piece. *)
Fixpoint split (sep : ascii) (s : string) : list string :=
  match s with
  | EmptyString => [EmptyString]
  | String c s' =>
      if Ascii.eqb c sep then EmptyString :: split sep s'
      else match split sep s' with
           | [] => [String c EmptyString]
           | piece :: pieces => String c piece :: pieces
           end
  end.

(** [a.pop()] on a non-empty array of strings, as a value. *)
Definition pop_string (pieces : list string) : string :=
  List.last pieces EmptyString.

End Js.

(** ** Results of callbacks and promises *)

Inductive error : Type :=
| TypeError            (* reading a property of [undefined] *)
| UpstreamError.       (* a rejected query or HTTP call *)

Inductive result (A : Type) : Type :=
| Ok (a : A)
| Throw (e : error).
Arguments Ok {A} a.
Arguments Throw {A} e.

#[global] Instance result_ret : MRet result := fun A a => Ok a.

#[global] Instance result_bind : MBind result := fun A B f r =>
  match r with
  | Ok a => f a
  | Throw e => Throw e
  end.

(** [l.map(f)] when the callback [f] may throw: the first exception wins. *)
Fixpoint map_result {A B : Type} (f : A -> result B) (l : list A) : result (list B) :=
  match l with
  | [] => Ok []
  | a :: l' => b ← f a; bs ← map_result f l'; Ok (b :: bs)
  end.

(** ** Contribution Recorder: badges to display *)

(** A row of [get_badges]; its other columns play no part in the handler. *)
Record badge : Type := {
  badge_id : string;
  acquired : Js.value
}.

(** [badgesBefore.find(b2 => b.id === b2.id)] *)
Definition badgeInBefore (badgesBefore : list badge) (b : badge) : option badge :=
  List.find (fun b2 => String.eqb (badge_id b) (badge_id b2)) badgesBefore.

(** [!badgeInBefore || !b.acquired || badgeInBefore.acquired !== b.acquired] *)
Definition badge_displayed (badgesBefore : list badge) (b : badge) : bool :=
  match badgeInBefore badgesBefore b with
  | None => true
  | Some b2 =>
      negb (Js.truthy (acquired b))
      || negb (Js.strict_eq (acquired b2) (acquired b))
  end.

Definition badgesForDisplay (badgesBefore badgesAfter : list badge) : list badge :=
  List.filter (badge_displayed badgesBefore) badgesAfter.

(** ** Promises *)

(** A promise, by the way it settles. *)
Inductive settled (A : Type) : Type :=
| Fulfilled (a : A)
| Rejected (e : error).
Arguments Fulfilled {A} a.
Arguments Rejected {A} e.

(** [p.then(f)] with no rejection handler: a rejection of [p] passes through,
    an exception thrown by [f] rejects the new promise. *)
Definition promise_then {A B : Type} (p : settled A) (f : A -> result B) : settled B :=
  match p with
  | Fulfilled a =>
      match f a with
      | Ok b => Fulfilled b
      | Throw e => Rejected e
      end
  | Rejected e => Rejected e
  end.

(** [Promise.all(ps)]: fulfilled with the values in the order of [ps] when
    every promise is fulfilled, rejected as soon as one is. The program never
    reads the reason of a rejection; the one reported here is that of the first
    rejected promise of the list. *)
Fixpoint promise_all {A : Type} (ps : list (settled A)) : settled (list A) :=
  match ps with
  | [] => Fulfilled []
  | Fulfilled a :: ps' =>
      match promise_all ps' with
      | Fulfilled l => Fulfilled (a :: l)
      | Rejected e => Rejected e
      end
  | Rejected e :: _ => Rejected e
  end.

(** [Promise.all] as the language defines it, one completion at a time: a
    [values] array with one slot per promise, a count of the promises still
    pending, and the outcome once it is decided. *)
Record all_state (A : Type) : Type := {
  values : list (option A);
  remaining : nat;
  outcome : option (settled (list A))
}.
Arguments values {A} _.
Arguments remaining {A} _.
Arguments outcome {A} _.

Definition all_init {A : Type} (n : nat) : all_state A :=
  {| values := replicate n None;
     remaining := n;
     outcome := if (n =? 0)%nat then Some (Fulfilled []) else None |}.

(** The promise at index [i] settles as [s]. *)
Definition all_step {A : Type} (st : all_state A) (i : nat) (s : settled A) : all_state A :=
  match s with
  | Fulfilled a =>
      let values' := <[i := Some a]> (values st) in
      let remaining' := pred (remaining st) in
      {| values := values';
         remaining := remaining';
         outcome :=
           match outcome st with
           | Some o => Some o
           | None =>
               if (remaining' =? 0)%nat
               then Some (Fulfilled (omap (fun v => v) values'))
               else None
           end |}
  | Rejected e =>
      {| values := values st;
         remaining := remaining st;
         outcome :=
           match outcome st with
           | Some o => Some o
           | None => Some (Rejected e)
           end |}
  end.

(** The promises of [ps] complete in the order [completion] (indices into
    [ps]); [None] while the joined promise is still pending. *)
Definition settle {A : Type} (ps : list (settled A)) (st : all_state A) (i : nat)
    : all_state A :=
  match ps !! i with
  | Some s => all_step st i s
  | None => st
  end.

Definition promise_all_completing {A : Type}
    (ps : list (settled A)) (completion : list nat) : option (settled (list A)) :=
  outcome (fold_left (settle ps) completion (all_init (length ps))).

(** ** Project Registry and Project Filter *)

Record datasource : Type := {
  source : string;
  ds_name : string;
  ds_color : option string
}.

Record compare_config : Type := {
  compare_mapping : Js.value;
  compare_types : list string;
  radius : Z
}.

Record database : Type := {
  imposm_mapping : Js.value;
  imposm_types : list string;
  compare : option compare_config
}.

Record project : Type := {
  project_id : string;
  start_date : Z;
  end_date : option Z;
  datasources : list datasource;
  statistics_count : bool;
  project_database : database
}.

(** Modelled from the spec: the registry exported by [website/projects.js],
    which is not among the sources. It is the catalog of the project
    definitions, in [Object.entries] order, each project filed under its own
    identifier; dates are timestamps and the end may be open. *)
Definition registry : Type := list project.

(** The own property [projects[id]]. *)
Definition registry_get (projects : registry) (id : string) : option project :=
  List.find (fun p => String.eqb (project_id p) id) projects.

(** Truthiness of [projects[id]]: a project is an object, hence truthy, and a
    key that is not an own property is looked up in [Object.prototype]. *)
Definition registry_has (projects : registry) (id : string) : bool :=
  match registry_get projects id with
  | Some _ => true
  | None => Js.inherited id
  end.

(** What [filterProjects] returns. *)
Record filtered : Type := {
  past : list project;
  current : option project;
  next : option project
}.

(** The best element of a list for a strict preference; the earliest one
    among equals. *)
Definition pick (better : project -> project -> bool) (l : list project) : option project :=
  fold_left
    (fun best p =>
       match best with
       | None => Some p
       | Some b => if better p b then Some p else Some b
       end)
    l None.

Definition is_current (now : Z) (p : project) : bool :=
  (start_date p <=? now)
  && match end_date p with
     | None => true
     | Some e => now <=? e
     end.

Definition is_future (now : Z) (p : project) : bool := now <? start_date p.

Definition ended_before (now : Z) (p : project) : bool :=
  match end_date p with
  | None => false
  | Some e => e <? now
  end.

(** [end_date p <= end_date q], an open end being later than any date. *)
Definition end_leb (p q : project) : bool :=
  match end_date p, end_date q with
  | Some a, Some b => a <=? b
  | _, None => true
  | None, Some _ => false
  end.

Fixpoint insert_by_end (p : project) (l : list project) : list project :=
  match l with
  | [] => [p]
  | q :: l' => if end_leb p q then p :: q :: l' else q :: insert_by_end p l'
  end.

Definition sort_by_end (l : list project) : list project :=
  fold_right insert_by_end [] l.

Definition is_project (o : option project) (p : project) : bool :=
  match o with
  | Some q => String.eqb (project_id q) (project_id p)
  | None => false
  end.

(** Modelled from the spec: [filterProjects] of [website/utils.js], which is
    not among the sources, at the time [now]. A project is current iff
    start <= now and it has no end or end >= now (the one with the latest start
    when several qualify); next is the project with the smallest start
    strictly greater than now; all others with end < now are past, ordered by
    end ascending. *)
Definition filterProjects_at (now : Z) (projects : registry) : filtered :=
  let cur := pick (fun p b => start_date b <? start_date p)
               (List.filter (is_current now) projects) in
  let nxt := pick (fun p b => start_date p <? start_date b)
               (List.filter (fun p => is_future now p && negb (is_current now p)) projects) in
  {| past := sort_by_end
               (List.filter
                  (fun p => ended_before now p
                            && negb (is_project cur p) && negb (is_project nxt p))
                  projects);
     current := cur;
     next := nxt |}.

(** ** HTTP responses *)

Inductive response : Type :=
| Redirect (url : string)
| Send (body : Js.object).

(** ** GET / *)

Section Home.

Variable filterProjects : registry -> filtered.

(** [p.current ? p.current.id : (p.next ? p.next.id : p.past.pop().id)];
    [pop] of an empty array is [undefined], whose [id] cannot be read. *)
Definition destId (p : filtered) : result string :=
  match current p with
  | Some c => Ok (project_id c)
  | None =>
      match next p with
      | Some n => Ok (project_id n)
      | None =>
          match last (past p) with
          | Some x => Ok (project_id x)
          | None => Throw TypeError
          end
      end
  end.

Definition home (projects : registry) : result response :=
  let p := filterProjects projects in
  d ← destId p;
  Ok (Redirect ("/projects/" +:+ d)).

End Home.

(** ** GET /projects/:id/stats *)

(** A query-string parameter as Express parses it. *)
Inductive query_value : Type :=
| QAbsent                      (* [undefined] *)
| QString (s : string)
| QOther.                      (* an array or an object: [?k[]=v], [?k[a]=v] *)

(** [typeof q === "string" && q.trim().length > 0] *)
Definition nonempty_string (q : query_value) : bool :=
  match q with
  | QString s => (0 <? String.length (Js.trim s))%nat
  | _ => false
  end.

Record point : Type := {
  pt_t : string;
  pt_y : Z
}.

(** A chart series [{ label, data, fill: false, borderColor, lineTension: 0 }]. *)
Record series : Type := {
  label : string;
  data : list point;
  borderColor : string
}.

Definition point_value (p : point) : Js.value :=
  Js.VObj [("t", Js.VStr (pt_t p)); ("y", Js.VNum (pt_y p))].

Definition series_value (r : series) : Js.value :=
  Js.VObj [("label", Js.VStr (label r));
           ("data", Js.VArr (map point_value (data r)));
           ("fill", Js.VBool false);
           ("borderColor", Js.VStr (borderColor r));
           ("lineTension", Js.VNum 0)].

(** [a.sort((a,b) => a.t.localeCompare(b.t))]: the sort is stable, an
    element goes before the first one it does not compare greater than. *)
Fixpoint insert_by_t (localeCompare : string -> string -> Z) (p : point)
    (l : list point) : list point :=
  match l with
  | [] => [p]
  | q :: l' =>
      if localeCompare (pt_t p) (pt_t q) <=? 0 then p :: q :: l'
      else q :: insert_by_t localeCompare p l'
  end.

Definition sort_by_t (localeCompare : string -> string -> Z) (l : list point)
    : list point :=
  fold_right (insert_by_t localeCompare) [] l.

(** The series of one osmose data source, from [Object.entries(res.data)]:
    [{ label: ds.name, data: entries.map(e => ({ t: e[0], y: e[1] })).sort(...),
       fill: false, borderColor: ds.color || "#c62828", lineTension: 0 }] *)
Definition osmose_series (localeCompare : string -> string -> Z) (ds : datasource)
    (entries : list (string * Z)) : series :=
  {| label := ds_name ds;
     data := sort_by_t localeCompare
               (map (fun e => {| pt_t := e.1; pt_y := e.2 |}) entries);
     borderColor :=
       match ds_color ds with
       | Some c => if Js.falsy_string c then "#c62828" else c
       | None => "#c62828"
       end |}.

(** [r.data && r.data.length > 0] *)
Definition has_data (r : series) : bool := (0 <? length (data r))%nat.

(** [r.data[0].y] *)
Definition first_y (r : series) : result Z :=
  match head (data r) with
  | Some p => Ok (pt_y p)
  | None => Throw TypeError
  end.

(** [r.data[r.data.length-1].y] *)
Definition last_y (r : series) : result Z :=
  match last (data r) with
  | Some p => Ok (pt_y p)
  | None => Throw TypeError
  end.

(** [ys.reduce((acc,cur) => acc + cur)], with no initial value. *)
Definition reduce_add (ys : list Z) : result Z :=
  match ys with
  | [] => Throw TypeError
  | y0 :: ys' => Ok (fold_left Z.add ys' y0)
  end.

(** The handler of the joined osmose promises. *)
Definition osmose_then (results : list series) : result Js.object :=
  if (length results =? 0)%nat
     || (length (List.filter has_data results) =? 0)%nat
  then Ok Js.empty_object
  else
    starts ← map_result first_y results;
    nbTasksStart ← reduce_add starts;
    ends ← map_result last_y results;
    nbTasksEnd ← reduce_add ends;
    Ok [("chart", Js.VArr (map series_value results));
        ("tasksSolved", Js.VNum (nbTasksStart - nbTasksEnd))].

Record note_row : Type := {
  note_ts : string;
  note_open : Z;
  note_closed : Z
}.

Definition notes_then (rows : list note_row) : Js.object :=
  [("chartNotes",
    Js.VArr
      [series_value
         {| label := "Ouvertes";
            data := map (fun r => {| pt_t := note_ts r; pt_y := note_open r |}) rows;
            borderColor := "#c62828" |};
       series_value
         {| label := "Résolues";
            data := map (fun r => {| pt_t := note_ts r; pt_y := note_closed r |}) rows;
            borderColor := "#388E3C" |}]);
   ("closedNotes",
    match last rows with
    | Some r => Js.VNum (note_closed r)
    | None => Js.VBool false
    end)].

Record feature_row : Type := {
  feature_ts : string;
  feature_amount : Z
}.

Definition features_then (rows : list feature_row) : Js.object :=
  [("chart",
    Js.VArr
      [series_value
         {| label := "Nombre dans OSM";
            data := map (fun r => {| pt_t := feature_ts r; pt_y := feature_amount r |}) rows;
            borderColor := "#388E3C" |}]);
   ("added",
    match last rows, head rows with
    | Some rl, Some r0 => Js.VNum (feature_amount rl - feature_amount r0)
    | _, _ => Js.VBool false
    end)].

(** [rows] holds the [amount] column of [SELECT COUNT( * ) AS amount]. *)
Definition count_then (rows : list Js.value) : Js.object :=
  [("count",
    match head rows with
    | Some amount => amount
    | None => Js.VBool false
    end)].

(** [{ nbContributors: results.rows.length,
       leaderboard: osmUserAuthentified ? results.rows : null }] *)
Definition leaderboard_then (osmUserAuthentified : bool) (rows : list Js.value) : Js.object :=
  [("nbContributors", Js.VNum (Z.of_nat (length rows)));
   ("leaderboard", if osmUserAuthentified then Js.VArr rows else Js.VNull)].

Record tag_row : Type := {
  tag_k : string;
  tag_amount : Z
}.

(** [r.amount >= results.rows[0].amount / 10], on integers. *)
Definition tags_then (rows : list tag_row) : Js.object :=
  let d :=
    match rows with
    | [] => []
    | top :: _ => List.filter (fun r => tag_amount top <=? 10 * tag_amount r) rows
    end in
  [("chartKeys",
    Js.VObj
      [("labels", Js.VArr (map (fun r => Js.VStr (tag_k r)) d));
       ("datasets",
        Js.VArr
          [Js.VObj
             [("label", Js.VStr "Nombre d'objets pour la clé");
              ("data", Js.VArr (map (fun r => Js.VNum (tag_amount r)) d));
              ("fill", Js.VBool false);
              ("backgroundColor", Js.VStr "#1E88E5")]])])].

(** [a.concat(v)] for an array [a]: the elements of an array argument are
    appended, any other argument is appended as one element. A receiver that
    is not an array has no such method here: every [chart] a producer emits
    is an array. *)
Definition js_concat (a v : Js.value) : result Js.value :=
  match a with
  | Js.VArr l =>
      match v with
      | Js.VArr l' => Ok (Js.VArr (l ++ l'))
      | _ => Ok (Js.VArr (l ++ [v]))
      end
  | _ => Throw TypeError
  end.

(** One step of the inner [forEach]:
    [if(!toSend[e[0]]) { toSend[e[0]] = e[1]; }
     else if(e[0] === "chart") { toSend.chart = toSend.chart.concat(e[1]); }] *)
Definition merge_entry (toSend : Js.object) (e : string * Js.value) : result Js.object :=
  if negb (Js.has_truthy toSend e.1) then Ok (Js.set toSend e.1 e.2)
  else if String.eqb e.1 "chart" then
    c ← js_concat (default Js.VUndefined (Js.get_own toSend "chart")) e.2;
    Ok (Js.set toSend "chart" c)
  else Ok toSend.

Fixpoint merge_entries (toSend : Js.object) (r : Js.object) : result Js.object :=
  match r with
  | [] => Ok toSend
  | e :: r' => toSend' ← merge_entry toSend e; merge_entries toSend' r'
  end.

(** The body of [Promise.all(allPromises).then(results => ...)] up to
    [res.send(toSend)]. *)
Fixpoint merge_from (toSend : Js.object) (results : list Js.object) : result Js.object :=
  match results with
  | [] => Ok toSend
  | r :: results' => toSend' ← merge_entries toSend r; merge_from toSend' results'
  end.

Definition toSend (results : list Js.object) : result Js.object :=
  merge_from Js.empty_object results.

(** What the handler fetches: the entries of the [data] of the osmose graph
    of a data source and the rows of each query, each one as its promise
    settles; and the collation of the host, which [localeCompare] follows. *)
Record upstream : Type := {
  localeCompare : string -> string -> Z;
  fetch_osmose : project -> datasource -> settled (list (string * Z));
  query_note_counts : string -> settled (list note_row);
  query_feature_counts : string -> settled (list feature_row);
  query_count : string -> settled (list Js.value);
  query_leaderboard : string -> settled (list Js.value);
  query_tag_keys : string -> settled (list tag_row)
}.

(** [id.split("_").pop()] *)
Definition suffix (id : string) : string := Js.pop_string (Js.split "_" id).

Definition allPromises (up : upstream) (p : project) (id : string)
    (osmUserAuthentified : bool) : list (settled Js.object) :=
  [ promise_then
      (promise_all
         (map (fun ds => promise_then (fetch_osmose up p ds)
                           (fun entries => Ok (osmose_series (localeCompare up) ds entries)))
              (List.filter (fun ds => String.eqb (source ds) "osmose") (datasources p))))
      osmose_then ]
  ++ (if existsb (fun ds => String.eqb (source ds) "notes") (datasources p)
      then [ promise_then (query_note_counts up id) (fun rows => Ok (notes_then rows)) ]
      else [])
  ++ (if statistics_count p
      then [ promise_then (query_feature_counts up id) (fun rows => Ok (features_then rows));
             promise_then (query_count up (suffix id)) (fun rows => Ok (count_then rows)) ]
      else [])
  ++ [ promise_then (query_leaderboard up id)
         (fun rows => Ok (leaderboard_then osmUserAuthentified rows)) ]
  ++ [ promise_then (query_tag_keys up (suffix id)) (fun rows => Ok (tags_then rows)) ].

(** The response of the joined promises: [None] when the chain is rejected,
    since it has no rejection handler and nothing is sent. *)
Definition respond (ps : list (settled Js.object)) : option response :=
  match promise_then (promise_all ps) (fun results => b ← toSend results; Ok (Send b)) with
  | Fulfilled r => Some r
  | Rejected _ => None
  end.

(** The same, the promises settling in the order [completion]. *)
Definition respond_completing (ps : list (settled Js.object)) (completion : list nat)
    : option response :=
  match promise_all_completing ps completion with
  | Some joined =>
      match promise_then joined (fun results => b ← toSend results; Ok (Send b)) with
      | Fulfilled r => Some r
      | Rejected _ => None
      end
  | None => None
  end.

(** The handler. An identifier that is no own key of the registry but names
    a member of [Object.prototype] passes the first test, and reading
    [p.datasources.filter] then throws. *)
Definition stats (projects : registry) (up : upstream)
    (id : string) (osm_user : query_value) : result (option response) :=
  if Js.falsy_string id || negb (registry_has projects id)
  then Ok (Some (Redirect "/error/404"))
  else
    match registry_get projects id with
    | None => Throw TypeError
    | Some p => Ok (respond (allPromises up p id (nonempty_string osm_user)))
    end.

(** ** POST /projects/:id/contribute/:userid *)

Record contribution : Type := {
  c_project : string;
  c_userid : string;
  c_ts : Z;
  c_contribution : string;
  c_verified : bool;
  c_points : Z
}.

(** The tables the handler writes. *)
Record db : Type := {
  user_names : list (string * string);
  user_contributions : list contribution
}.

(** [INSERT INTO user_names ... ON CONFLICT (userid) DO UPDATE SET username]. *)
Fixpoint upsert_user_name (rows : list (string * string)) (userid username : string)
    : list (string * string) :=
  match rows with
  | [] => [(userid, username)]
  | (u, n) :: rows' =>
      if String.eqb u userid then (u, username) :: rows'
      else (u, n) :: upsert_user_name rows' userid username
  end.

Inductive query : Type :=
| UpsertUserName (userid username : string)
| SelectBadges (project userid : string)
| InsertContribution (project userid type : string).

Definition is_write (q : query) : bool :=
  match q with
  | SelectBadges _ _ => false
  | _ => true
  end.

Record request : Type := {
  params_id : string;
  params_userid : string;
  query_username : query_value;
  query_type : query_value
}.

Definition badge_value (b : badge) : Js.value :=
  Js.VObj [("id", Js.VStr (badge_id b)); ("acquired", acquired b)].

Section Contribute.

Variable filterProjects : registry -> filtered.

(** The stored routines of the database and its clock. *)
Variable get_badges : db -> string -> string -> list badge.
Variable get_points : string -> string -> Z.
Variable current_timestamp : db -> Z.

(** Whether the database rejects a query in a given state (lost connection,
    violated constraint, ...). *)
Variable rejects : db -> query -> bool.

(** [pool.query(...)]: how the promise settles (with the rows of a
    [SELECT]) and the state the database is left in. *)
Definition pool_query (q : query) (d : db) : settled (list badge) * db :=
  if rejects d q then (Rejected UpstreamError, d)
  else
    match q with
    | UpsertUserName userid username =>
        (Fulfilled [],
         {| user_names := upsert_user_name (user_names d) userid username;
            user_contributions := user_contributions d |})
    | SelectBadges project userid =>
        (Fulfilled (get_badges d project userid), d)
    | InsertContribution project userid type =>
        (Fulfilled [],
         {| user_names := user_names d;
            user_contributions :=
              user_contributions d ++
              [{| c_project := project;
                  c_userid := userid;
                  c_ts := current_timestamp d;
                  c_contribution := type;
                  c_verified := false;
                  c_points := get_points project type |}] |})
    end.

(** [!req.params.id || !projects[req.params.id] || !p.current
     || p.current.id !== req.params.id] *)
Definition project_not_active (projects : registry) (p : filtered) (id : string) : bool :=
  Js.falsy_string id
  || negb (registry_has projects id)
  || match current p with
     | None => true
     | Some c => negb (String.eqb (project_id c) id)
     end.

(** [!req.params.userid || !/^\d+$/.test(req.params.userid)
     || typeof req.query.username !== "string"
     || req.query.username.trim().length === 0] *)
Definition user_not_valid (userid : string) (username : query_value) : bool :=
  Js.falsy_string userid
  || negb (Js.test_digits userid)
  || match username with
     | QString s => (String.length (Js.trim s) =? 0)%nat
     | _ => true
     end.

(** [!req.query.type || !["add", "edit", "delete"].includes(req.query.type)] *)
Definition type_not_valid (type : query_value) : bool :=
  match type with
  | QAbsent => true
  | QString s =>
      Js.falsy_string s || negb (existsb (String.eqb s) ["add"; "edit"; "delete"])
  | QOther => true
  end.

Definition text_of (q : query_value) : string :=
  match q with
  | QString s => s
  | _ => EmptyString
  end.

(** The handler: the response, the state of the database afterwards, and the
    queries issued, in order. *)
Definition contribute (projects : registry) (req : request) (d : db)
    : response * db * list query :=
  let p := filterProjects projects in
  if project_not_active projects p (params_id req) then (Redirect "/error/400", d, [])
  else if user_not_valid (params_userid req) (query_username req)
  then (Redirect "/error/400", d, [])
  else if type_not_valid (query_type req) then (Redirect "/error/400", d, [])
  else
    let id := params_id req in
    let userid := params_userid req in
    let q1 := UpsertUserName userid (text_of (query_username req)) in
    let q2 := SelectBadges id userid in
    let q3 := InsertContribution id userid (text_of (query_type req)) in
    let q4 := SelectBadges id userid in
    match pool_query q1 d with
    | (Rejected _, d1) => (Redirect "/error/500", d1, [q1])
    | (Fulfilled _, d1) =>
        match pool_query q2 d1 with
        | (Rejected _, d2) => (Redirect "/error/500", d2, [q1; q2])
        | (Fulfilled badgesBefore, d2) =>
            match pool_query q3 d2 with
            | (Rejected _, d3) => (Redirect "/error/500", d3, [q1; q2; q3])
            | (Fulfilled _, d3) =>
                match pool_query q4 d3 with
                | (Rejected _, d4) => (Redirect "/error/500", d4, [q1; q2; q3; q4])
                | (Fulfilled badgesAfter, d4) =>
                    (Send [("badges",
                            Js.VArr (map badge_value
                                       (badgesForDisplay badgesBefore badgesAfter)))],
                     d4, [q1; q2; q3; q4])
                end
            end
        end
    end.

End Contribute.

(** ** The features-update generator ([db/20_features_update.js]) *)

Module Generator.

Record config : Type := {
  WORK_DIR : string;
  OSH_PBF_URL : string;
  DB_USER : string;
  DB_PASS : string;
  DB_HOST : string;
  DB_PORT : string;
  DB_NAME : string
}.

(** [s.replace(pat, rep)] for a non-empty string pattern: the first
    occurrence only. *)
Fixpoint replace (pat rep s : string) : string :=
  if String.prefix pat s
  then rep +:+ String.substring (String.length pat) (String.length s - String.length pat) s
  else match s with
       | EmptyString => EmptyString
       | String c s' => String c (replace pat rep s')
       end.

Definition tab : string := String (ascii_of_nat 9) EmptyString.
Definition nl : string := String (ascii_of_nat 10) EmptyString.
Definition dq : string := String (ascii_of_nat 34) EmptyString.
Definition quoted (s : string) : string := dq +:+ s +:+ dq.

Section Constants.

Variable CONFIG : config.

Definition OSM_PBF_LATEST : string :=
  WORK_DIR CONFIG +:+ "/"
  +:+ replace ".osh.pbf" ".osm.pbf" (Js.pop_string (Js.split "/" (OSH_PBF_URL CONFIG))).
Definition OSM_PBF_LATEST_UNSTABLE : string :=
  replace ".osm.pbf" ".new.osm.pbf" OSM_PBF_LATEST.
Definition OSM_PBF_LATEST_UNSTABLE_FILTERED : string :=
  replace ".osm.pbf" ".new-local.osm.pbf" OSM_PBF_LATEST.
Definition OSM_POLY : string := replace "-internal.osm.pbf" ".poly" OSM_PBF_LATEST.
Definition IMPOSM_YML : string := WORK_DIR CONFIG +:+ "/imposm.yml".
Definition IMPOSM_CACHE_DIR : string := WORK_DIR CONFIG +:+ "/imposm_cache".
Definition IMPOSM_DIFF_DIR : string := WORK_DIR CONFIG +:+ "/imposm_diffs".
Definition OSC_FULL : string := WORK_DIR CONFIG +:+ "/changes_features.osc.gz".
Definition OSC_LOCAL : string := WORK_DIR CONFIG +:+ "/changes_features.local.osc.gz".
Definition PSQL_DB : string :=
  "postgres://" +:+ DB_USER CONFIG +:+ ":" +:+ DB_PASS CONFIG +:+ "@" +:+ DB_HOST CONFIG
  +:+ ":" +:+ DB_PORT CONFIG +:+ "/" +:+ DB_NAME CONFIG.

End Constants.

(** *** The Imposm tables and the SQL batches *)

Record column : Type := {
  col_name : string;
  col_key : option string;
  col_type : string
}.

Record table : Type := {
  table_type : string;
  table_mapping : Js.value;
  table_columns : list column
}.

Definition columns : list column :=
  [ {| col_name := "osm_id"; col_key := None; col_type := "id" |};
    {| col_name := "name"; col_key := Some "name"; col_type := "string" |};
    {| col_name := "tags"; col_key := None; col_type := "hstore_tags" |};
    {| col_name := "geom"; col_key := None; col_type := "geometry" |} ].

(** [yamlData.tables[name] = t] *)
Fixpoint set_table (tables : list (string * table)) (name : string) (t : table)
    : list (string * table) :=
  match tables with
  | [] => [(name, t)]
  | (n, t') :: tables' =>
      if String.eqb n name then (n, t) :: tables' else (n, t') :: set_table tables' name t
  end.

(** What the loop over the projects builds. *)
Record batches : Type := {
  tables : list (string * table);
  preSQL : list string;
  postSQL : list string;
  postUpdateSQL : list string
}.

Definition no_batches : batches :=
  {| tables := []; preSQL := []; postSQL := []; postUpdateSQL := [] |}.

(** A number in a template literal. *)
Definition number_text (n : Z) : string := NilZero.string_of_int (Z.to_int n).

Definition osmid (type : string) : string :=
  if String.eqb type "point" then "CONCAT('node/', osm_id) AS osm_id"
  else "CASE WHEN osm_id < 0 THEN CONCAT('relation/', -osm_id) ELSE CONCAT('way/', osm_id) END AS osm_id".

Definition view_geom (type : string) : string :=
  if String.eqb type "point" then "geom::GEOMETRY(Point, 3857)"
  else "ST_PointOnSurface(geom)::GEOMETRY(Point, 3857) AS geom".

Definition compare_geom (type : string) : string :=
  if String.eqb type "point" then "geom::GEOMETRY(Point, 3857)"
  else "ST_Centroid(geom)::GEOMETRY(Point, 3857) AS geom".

Definition view_select (id type : string) : string :=
  "SELECT " +:+ osmid type
  +:+ ", name, hstore_to_json(tags) AS tags, tags ?| ARRAY['note','fixme'] AS needs_check, "
  +:+ view_geom type +:+ " FROM project_" +:+ suffix id +:+ "_" +:+ type.

(** The statement of the unified view of a project. *)
Definition view_sql (id : string) (types : list string) : string :=
  "CREATE OR REPLACE VIEW project_" +:+ suffix id +:+ " AS "
  +:+ String.concat " UNION ALL " (map (view_select id) types).

Definition compare_select (id type : string) : string :=
  "SELECT " +:+ osmid type +:+ ", name, hstore_to_json(tags) AS tags, "
  +:+ compare_geom type +:+ " FROM project_" +:+ suffix id +:+ "_compare_" +:+ type.

Definition compare_view_sql (id : string) (types : list string) : string :=
  "CREATE OR REPLACE VIEW project_" +:+ suffix id +:+ "_compare AS "
  +:+ String.concat " UNION ALL " (map (compare_select id) types).

Definition compare_tiles_sql (id : string) (r : Z) : string :=
  "CREATE MATERIALIZED VIEW IF NOT EXISTS project_" +:+ suffix id
  +:+ "_compare_tiles AS SELECT * FROM project_" +:+ suffix id
  +:+ "_compare WHERE osm_id NOT IN (SELECT DISTINCT c.osm_id FROM project_" +:+ suffix id
  +:+ "_compare c, project_" +:+ suffix id
  +:+ " b WHERE ST_DWithin(c.geom, b.geom, " +:+ number_text r +:+ "))".

Definition compare_index_sql (id : string) : string :=
  "CREATE INDEX project_" +:+ suffix id +:+ "_compare_tiles_geom_idx ON project_"
  +:+ suffix id +:+ "_compare_tiles USING GIST(geom)".

(** The body of [Object.entries(projects).forEach(e => ...)] for one
    project. *)
Definition add_project (b : batches) (project : project) : batches :=
  let id := project_id project in
  let imposm := project_database project in
  let tables1 :=
    fold_left
      (fun ts type =>
         set_table ts (suffix id +:+ "_" +:+ type)
           {| table_type := type;
              table_mapping := imposm_mapping imposm;
              table_columns := columns |})
      (imposm_types imposm) (tables b) in
  let pre1 := preSQL b ++ ["DROP VIEW IF EXISTS project_" +:+ suffix id +:+ " CASCADE"] in
  let post1 := postSQL b ++ [view_sql id (imposm_types imposm)] in
  match compare imposm with
  | None =>
      {| tables := tables1; preSQL := pre1; postSQL := post1;
         postUpdateSQL := postUpdateSQL b |}
  | Some c =>
      {| tables :=
           fold_left
             (fun ts type =>
                set_table ts (suffix id +:+ "_compare_" +:+ type)
                  {| table_type := type;
                     table_mapping := compare_mapping c;
                     table_columns := columns |})
             (compare_types c) tables1;
         preSQL :=
           pre1
           ++ ["DROP VIEW IF EXISTS project_" +:+ suffix id +:+ "_compare CASCADE"]
           ++ ["DROP MATERIALIZED VIEW IF EXISTS project_" +:+ suffix id +:+ "_compare_tiles"];
         postSQL :=
           post1
           ++ [compare_view_sql id (compare_types c)]
           ++ [compare_tiles_sql id (radius c)]
           ++ [compare_index_sql id];
         postUpdateSQL :=
           postUpdateSQL b
           ++ ["REFRESH MATERIALIZED VIEW project_" +:+ suffix id +:+ "_compare_tiles"] |}
  end.

Definition generate (projects : registry) : batches :=
  fold_left add_project projects no_batches.

(** *** The shell script *)

(** [sqlin.map(vs => (`psql "${PSQL_DB}" -c "${vs}"`))] *)
Definition psql (CONFIG : config) (vs : string) : string :=
  "psql " +:+ quoted (PSQL_DB CONFIG) +:+ " -c " +:+ quoted vs.

Definition sqlToFull (CONFIG : config) (sqlin : list string) : string :=
  String.concat (nl +:+ tab) (map (psql CONFIG) sqlin).

(** [sql.length > 0 ? sqlToFull(sql) : ""] *)
Definition sqlFull (CONFIG : config) (sql : list string) : string :=
  if (0 <? length sql)%nat then sqlToFull CONFIG sql else EmptyString.

Definition separator : string :=
  "echo " +:+ quoted "-------------------------------------------------------------------" +:+ nl
  +:+ "echo " +:+ dq +:+ dq.

Definition unlines (lines : list string) : string := String.concat nl lines.

(** The text of the script, line by line as the template has it. *)
Definition script (CONFIG : config) (b : batches) : string :=
  unlines
    [ "#!/bin/bash";
      "";
      "# Script for updating OSM features for each project";
      "# Generated automatically by npm run features:update";
      "";
      "set -e";
      "";
      "mode=" +:+ quoted "$1";
      "if [ " +:+ quoted "$mode" +:+ " == " +:+ dq +:+ dq +:+ " ]; then";
      tab +:+ "mode=" +:+ quoted "update";
      "fi";
      "";
      "echo " +:+ quoted "==== Get latest changes";
      "osmupdate --keep-tempfiles --trust-tempfiles \";
      tab +:+ "-t=" +:+ quoted (WORK_DIR CONFIG +:+ "/osmupdate/") +:+ " \";
      tab +:+ "-v " +:+ quoted (OSM_PBF_LATEST CONFIG) +:+ " \";
      tab +:+ quoted (OSC_FULL CONFIG);
      "osmium apply-changes " +:+ quoted (OSM_PBF_LATEST CONFIG) +:+ " \";
      tab +:+ quoted (OSC_FULL CONFIG) +:+ " \";
      tab +:+ "-O -o " +:+ quoted (OSM_PBF_LATEST_UNSTABLE CONFIG);
      "osmium extract -p " +:+ quoted (OSM_POLY CONFIG) +:+ " -s simple "
        +:+ quoted (OSM_PBF_LATEST_UNSTABLE CONFIG) +:+ " -O -o "
        +:+ quoted (OSM_PBF_LATEST_UNSTABLE_FILTERED CONFIG);
      "rm -f " +:+ quoted (OSM_PBF_LATEST_UNSTABLE CONFIG) +:+ " " +:+ quoted (OSC_FULL CONFIG);
      separator;
      "";
      "if [ " +:+ quoted "$mode" +:+ " == " +:+ quoted "init" +:+ " ]; then";
      tab +:+ "echo " +:+ quoted "==== Initial import with Imposm";
      tab +:+ "rm -f " +:+ quoted (OSM_PBF_LATEST CONFIG) +:+ " " +:+ quoted (OSC_LOCAL CONFIG);
      tab +:+ "mv " +:+ quoted (OSM_PBF_LATEST_UNSTABLE_FILTERED CONFIG) +:+ " "
        +:+ quoted (OSM_PBF_LATEST CONFIG);
      tab +:+ "mkdir -p " +:+ quoted (IMPOSM_CACHE_DIR CONFIG);
      tab +:+ "imposm import -mapping " +:+ quoted (IMPOSM_YML CONFIG) +:+ " \";
      tab +:+ tab +:+ "-read " +:+ quoted (OSM_PBF_LATEST CONFIG) +:+ " \";
      tab +:+ tab +:+ "-overwritecache -cachedir " +:+ quoted (IMPOSM_CACHE_DIR CONFIG) +:+ " \";
      tab +:+ tab +:+ "-diff -diffdir " +:+ quoted (IMPOSM_DIFF_DIR CONFIG);
      "";
      tab +:+ sqlFull CONFIG (preSQL b);
      "";
      tab +:+ "imposm import -write \";
      tab +:+ tab +:+ "-connection " +:+ quoted (PSQL_DB CONFIG +:+ "?prefix=project_") +:+ " \";
      tab +:+ tab +:+ "-mapping " +:+ quoted (IMPOSM_YML CONFIG) +:+ " \";
      tab +:+ tab +:+ "-cachedir " +:+ quoted (IMPOSM_CACHE_DIR CONFIG) +:+ " \";
      tab +:+ tab +:+ "-dbschema-import public -diff";
      "";
      tab +:+ sqlFull CONFIG (postSQL b);
      "else";
      tab +:+ "echo " +:+ quoted "==== Apply latest changes to database";
      tab +:+ "osmium derive-changes " +:+ quoted (OSM_PBF_LATEST CONFIG) +:+ " "
        +:+ quoted (OSM_PBF_LATEST_UNSTABLE_FILTERED CONFIG) +:+ " -o "
        +:+ quoted (OSC_LOCAL CONFIG);
      tab +:+ "imposm diff -mapping " +:+ quoted (IMPOSM_YML CONFIG) +:+ " \";
      tab +:+ tab +:+ "-cachedir " +:+ quoted (IMPOSM_CACHE_DIR CONFIG) +:+ " \";
      tab +:+ tab +:+ "-dbschema-production public \";
      tab +:+ tab +:+ "-connection " +:+ quoted (PSQL_DB CONFIG +:+ "?prefix=project_") +:+ " \";
      tab +:+ tab +:+ quoted (OSC_LOCAL CONFIG);
      "";
      tab +:+ sqlFull CONFIG (postUpdateSQL b);
      tab +:+ "rm -f " +:+ quoted (OSM_PBF_LATEST CONFIG) +:+ " " +:+ quoted (OSC_LOCAL CONFIG);
      tab +:+ "mv " +:+ quoted (OSM_PBF_LATEST_UNSTABLE_FILTERED CONFIG) +:+ " "
        +:+ quoted (OSM_PBF_LATEST CONFIG);
      "fi";
      separator;
      "";
      "echo " +:+ quoted "Done";
      "" ].

(** The same script as a program: the fragment of the shell it is written
    in. The commands of an SQL batch are carried by the program as they are
    written in the script, one command per statement. *)
Inductive batch_name : Type := Pre | Post | PostUpdate.

Inductive word : Type :=
| Lit (s : string)             (* ["s"] *)
| Arg1                         (* ["$1"] *)
| Var (x : string).            (* ["$x"] *)

Inductive item : Type :=
| Comment (text : string)
| Blank
| Cmd (parts : list string)    (* a command; one part per continued line *)
| Batch (which : batch_name) (commands : list string)
                               (* the commands of an SQL batch, one per line *)
| Assign (x : string) (w : word).

Inductive stmt : Type :=
| Item (i : item)
| IfEq (w : word) (lit : string) (then_ else_ : list item).

Definition script_program (CONFIG : config) (b : batches) : list stmt :=
  [ Item (Comment "#!/bin/bash");
    Item Blank;
    Item (Comment "# Script for updating OSM features for each project");
    Item (Comment "# Generated automatically by npm run features:update");
    Item Blank;
    Item (Cmd ["set -e"]);
    Item Blank;
    Item (Assign "mode" Arg1);
    IfEq (Var "mode") "" [Assign "mode" (Lit "update")] [];
    Item Blank;
    Item (Cmd ["echo " +:+ quoted "==== Get latest changes"]);
    Item (Cmd ["osmupdate --keep-tempfiles --trust-tempfiles";
               "-t=" +:+ quoted (WORK_DIR CONFIG +:+ "/osmupdate/");
               "-v " +:+ quoted (OSM_PBF_LATEST CONFIG);
               quoted (OSC_FULL CONFIG)]);
    Item (Cmd ["osmium apply-changes " +:+ quoted (OSM_PBF_LATEST CONFIG);
               quoted (OSC_FULL CONFIG);
               "-O -o " +:+ quoted (OSM_PBF_LATEST_UNSTABLE CONFIG)]);
    Item (Cmd ["osmium extract -p " +:+ quoted (OSM_POLY CONFIG) +:+ " -s simple "
               +:+ quoted (OSM_PBF_LATEST_UNSTABLE CONFIG) +:+ " -O -o "
               +:+ quoted (OSM_PBF_LATEST_UNSTABLE_FILTERED CONFIG)]);
    Item (Cmd ["rm -f " +:+ quoted (OSM_PBF_LATEST_UNSTABLE CONFIG) +:+ " "
               +:+ quoted (OSC_FULL CONFIG)]);
    Item (Cmd ["echo "
               +:+ quoted "-------------------------------------------------------------------"]);
    Item (Cmd ["echo " +:+ dq +:+ dq]);
    Item Blank;
    IfEq (Var "mode") "init"
      [ Cmd ["echo " +:+ quoted "==== Initial import with Imposm"];
        Cmd ["rm -f " +:+ quoted (OSM_PBF_LATEST CONFIG) +:+ " " +:+ quoted (OSC_LOCAL CONFIG)];
        Cmd ["mv " +:+ quoted (OSM_PBF_LATEST_UNSTABLE_FILTERED CONFIG) +:+ " "
             +:+ quoted (OSM_PBF_LATEST CONFIG)];
        Cmd ["mkdir -p " +:+ quoted (IMPOSM_CACHE_DIR CONFIG)];
        Cmd ["imposm import -mapping " +:+ quoted (IMPOSM_YML CONFIG);
             "-read " +:+ quoted (OSM_PBF_LATEST CONFIG);
             "-overwritecache -cachedir " +:+ quoted (IMPOSM_CACHE_DIR CONFIG);
             "-diff -diffdir " +:+ quoted (IMPOSM_DIFF_DIR CONFIG)];
        Blank;
        Batch Pre (map (psql CONFIG) (preSQL b));
        Blank;
        Cmd ["imposm import -write";
             "-connection " +:+ quoted (PSQL_DB CONFIG +:+ "?prefix=project_");
             "-mapping " +:+ quoted (IMPOSM_YML CONFIG);
             "-cachedir " +:+ quoted (IMPOSM_CACHE_DIR CONFIG);
             "-dbschema-import public -diff"];
        Blank;
        Batch Post (map (psql CONFIG) (postSQL b)) ]
      [ Cmd ["echo " +:+ quoted "==== Apply latest changes to database"];
        Cmd ["osmium derive-changes " +:+ quoted (OSM_PBF_LATEST CONFIG) +:+ " "
             +:+ quoted (OSM_PBF_LATEST_UNSTABLE_FILTERED CONFIG) +:+ " -o "
             +:+ quoted (OSC_LOCAL CONFIG)];
        Cmd ["imposm diff -mapping " +:+ quoted (IMPOSM_YML CONFIG);
             "-cachedir " +:+ quoted (IMPOSM_CACHE_DIR CONFIG);
             "-dbschema-production public";
             "-connection " +:+ quoted (PSQL_DB CONFIG +:+ "?prefix=project_");
             quoted (OSC_LOCAL CONFIG)];
        Blank;
        Batch PostUpdate (map (psql CONFIG) (postUpdateSQL b));
        Cmd ["rm -f " +:+ quoted (OSM_PBF_LATEST CONFIG) +:+ " " +:+ quoted (OSC_LOCAL CONFIG)];
        Cmd ["mv " +:+ quoted (OSM_PBF_LATEST_UNSTABLE_FILTERED CONFIG) +:+ " "
             +:+ quoted (OSM_PBF_LATEST CONFIG)] ];
    Item (Cmd ["echo "
               +:+ quoted "-------------------------------------------------------------------"]);
    Item (Cmd ["echo " +:+ dq +:+ dq]);
    Item Blank;
    Item (Cmd ["echo " +:+ quoted "Done"]) ].

(** **** The text of a program *)

Definition render_word (w : word) : string :=
  match w with
  | Lit s => quoted s
  | Arg1 => quoted "$1"
  | Var x => quoted ("$" +:+ x)
  end.

(** An item at a given indentation; a continued line ends in a backslash
    and the next one is indented once more; the commands of a batch go one
    per line, each at the indentation. A blank line carries no indentation. *)
Definition render_item (indent : string) (i : item) : string :=
  match i with
  | Comment text => indent +:+ text
  | Blank => EmptyString
  | Cmd parts => indent +:+ String.concat (" \" +:+ nl +:+ indent +:+ tab) parts
  | Batch _ commands => indent +:+ String.concat (nl +:+ indent) commands
  | Assign x w => indent +:+ x +:+ "=" +:+ render_word w
  end.

Definition render_stmt (s : stmt) : list string :=
  match s with
  | Item i => [render_item EmptyString i]
  | IfEq w lit then_ else_ =>
      ["if [ " +:+ render_word w +:+ " == " +:+ quoted lit +:+ " ]; then"]
      ++ map (render_item tab) then_
      ++ match else_ with
         | [] => []
         | _ => ["else"] ++ map (render_item tab) else_
         end
      ++ ["fi"]
  end.

Definition render (prog : list stmt) : string :=
  unlines (concat (map render_stmt prog) ++ [EmptyString]).

(** **** Running a program *)

(** The shell variables; an unset one expands to the empty string. *)
Definition env : Type := list (string * string).

Fixpoint expand (e : env) (x : string) : string :=
  match e with
  | [] => EmptyString
  | (y, v) :: e' => if String.eqb y x then v else expand e' x
  end.

Definition eval_word (arg1 : string) (e : env) (w : word) : string :=
  match w with
  | Lit s => s
  | Arg1 => arg1
  | Var x => expand e x
  end.

(** A command that was run, and the batch it belongs to if any. *)
Definition ran : Type := option batch_name * string.

(** Every command succeeds here; under [set -e] a failing command would cut
    the run short after it. *)
Definition run_item (arg1 : string) (st : env * list ran) (i : item) : env * list ran :=
  match i with
  | Comment _ | Blank => st
  | Cmd parts => (st.1, st.2 ++ [(None, String.concat " " parts)])
  | Batch which commands => (st.1, st.2 ++ map (fun c => (Some which, c)) commands)
  | Assign x w => ((x, eval_word arg1 st.1 w) :: st.1, st.2)
  end.

Definition run_stmt (arg1 : string) (st : env * list ran) (s : stmt) : env * list ran :=
  match s with
  | Item i => run_item arg1 st i
  | IfEq w lit then_ else_ =>
      if String.eqb (eval_word arg1 st.1 w) lit
      then fold_left (run_item arg1) then_ st
      else fold_left (run_item arg1) else_ st
  end.

(** The commands run by [prog arg1], in order. *)
Definition run (prog : list stmt) (arg1 : string) : list ran :=
  (fold_left (run_stmt arg1) prog ([], [])).2.

(** The commands of a run that come from the SQL batches. *)
Definition batch_commands (trace : list ran) : list ran :=
  List.filter (fun r => match r.1 with Some _ => true | None => false end) trace.

(** The mode the script runs in. *)
Definition mode_of (arg1 : string) : string :=
  if String.eqb arg1 EmptyString then "update" else arg1.

(** *** What the loop appends to each batch *)

(** What [add_project] appends to each batch. *)
Definition pre_of (p : project) : list string :=
  let id := project_id p in
  ["DROP VIEW IF EXISTS project_" +:+ suffix id +:+ " CASCADE"]
  ++ match compare (project_database p) with
     | None => []
     | Some _ =>
         ["DROP VIEW IF EXISTS project_" +:+ suffix id +:+ "_compare CASCADE";
          "DROP MATERIALIZED VIEW IF EXISTS project_" +:+ suffix id +:+ "_compare_tiles"]
     end.

Definition post_of (p : project) : list string :=
  let id := project_id p in
  [view_sql id (imposm_types (project_database p))]
  ++ match compare (project_database p) with
     | None => []
     | Some c =>
         [compare_view_sql id (compare_types c);
          compare_tiles_sql id (radius c);
          compare_index_sql id]
     end.

Definition post_update_of (p : project) : list string :=
  match compare (project_database p) with
  | None => []
  | Some _ =>
      ["REFRESH MATERIALIZED VIEW project_" +:+ suffix (project_id p) +:+ "_compare_tiles"]
  end.

End Generator.

(** * The other routes of the website *)

(** ** GET /error/:code *)

(** [isNaN(s)] for a string: [s] is not a [StringNumericLiteral]. The
    literal is, between optional white space, nothing at all, a signed
    decimal literal ([Infinity], digits with an optional fraction and an
    optional exponent) or an unsigned binary, octal or hexadecimal integer. *)
Module Numeric.

Fixpoint skip_digits (s : string) : string :=
  match s with
  | EmptyString => EmptyString
  | String c s' => if Js.is_digit c then skip_digits s' else s
  end.

Definition starts_with_digit (s : string) : bool :=
  match s with
  | EmptyString => false
  | String c _ => Js.is_digit c
  end.

Definition is_sign (c : ascii) : bool := Ascii.eqb c "+" || Ascii.eqb c "-".

(** [SignedInteger], then the rest of the string. *)
Definition signed_integer (s : string) : option string :=
  let s1 :=
    match s with
    | String c s' => if is_sign c then s' else s
    | EmptyString => s
    end in
  if starts_with_digit s1 then Some (skip_digits s1) else None.

(** An optional [ExponentPart], then the rest of the string. *)
Definition exponent_opt (s : string) : option string :=
  match s with
  | String c s' =>
      if Ascii.eqb c "e" || Ascii.eqb c "E" then signed_integer s' else Some s
  | EmptyString => Some s
  end.

Definition ends_with_exponent_opt (s : string) : bool :=
  match exponent_opt s with
  | Some EmptyString => true
  | _ => false
  end.

(** [StrUnsignedDecimalLiteral] *)
Definition unsigned_decimal (s : string) : bool :=
  if String.eqb s "Infinity" then true
  else if starts_with_digit s then
    match skip_digits s with
    | String c r =>
        if Ascii.eqb c "." then ends_with_exponent_opt (skip_digits r)
        else ends_with_exponent_opt (String c r)
    | EmptyString => true
    end
  else
    match s with
    | String c r =>
        Ascii.eqb c "." && starts_with_digit r && ends_with_exponent_opt (skip_digits r)
    | EmptyString => false
    end.

(** [StrDecimalLiteral] *)
Definition decimal (s : string) : bool :=
  match s with
  | String c s' => if is_sign c then unsigned_decimal s' else unsigned_decimal s
  | EmptyString => false
  end.

Definition is_hex_digit (c : ascii) : bool :=
  let n := nat_of_ascii c in
  Js.is_digit c
  || ((65 <=? n)%nat && (n <=? 70)%nat)
  || ((97 <=? n)%nat && (n <=? 102)%nat).

Definition is_octal_digit (c : ascii) : bool :=
  let n := nat_of_ascii c in (48 <=? n)%nat && (n <=? 55)%nat.

Definition is_binary_digit (c : ascii) : bool :=
  Ascii.eqb c "0" || Ascii.eqb c "1".

Fixpoint all_of (ok : ascii -> bool) (s : string) : bool :=
  match s with
  | EmptyString => true
  | String c s' => ok c && all_of ok s'
  end.

(** [NonDecimalIntegerLiteral]: [0x], [0o] or [0b], in either case, and one
    digit of the base at least. *)
Definition non_decimal (s : string) : bool :=
  match s with
  | String z (String b (String d r)) =>
      Ascii.eqb z "0"
      && (((Ascii.eqb b "x" || Ascii.eqb b "X") && all_of is_hex_digit (String d r))
          || ((Ascii.eqb b "o" || Ascii.eqb b "O") && all_of is_octal_digit (String d r))
          || ((Ascii.eqb b "b" || Ascii.eqb b "B") && all_of is_binary_digit (String d r)))
  | _ => false
  end.

Definition is_numeric (s : string) : bool :=
  let t := Js.trim s in
  String.eqb t EmptyString || decimal t || non_decimal t.

Definition isNaN (s : string) : bool := negb (is_numeric s).

End Numeric.

(** [req.params.code && !isNaN(req.params.code) ? req.params.code : "400"]:
    the status the error page is rendered with. *)
Definition httpcode (code : string) : string :=
  if negb (Js.falsy_string code) && negb (Numeric.isNaN code) then code else "400".

(** ** GET /lib/:modname/:file *)

(** The table [authorized]. *)
Definition authorized : list (string * list (string * string)) :=
  [ ("bootstrap", [("bootstrap.css", "dist/css/bootstrap.min.css")]);
    ("bootstrap.native", [("bootstrap.js", "dist/bootstrap-native.min.js")]);
    ("mapbox-gl", [("mapbox-gl.js", "dist/mapbox-gl.js");
                   ("mapbox-gl.css", "dist/mapbox-gl.css")]);
    ("chart.js", [("chart.js", "dist/Chart.bundle.min.js");
                  ("chart.css", "dist/Chart.min.css")]);
    ("osm-auth", [("osmauth.js", "osmauth.min.js")]);
    ("osm-request", [("osmrequest.js", "dist/OsmRequest.js")]) ].

(** The own property [o[k]] of a table. *)
Fixpoint own {V : Type} (o : list (string * V)) (k : string) : option V :=
  match o with
  | [] => None
  | (k', v) :: o' => if String.eqb k' k then Some v else own o' k
  end.

Inductive lib_response : Type :=
| Status (code : Z) (text : string)     (* [res.status(code).send(text)] *)
| File (fileName : string).             (* the file was sent *)

Section Lib.

(** What the host holds in [Object.prototype]: the text of
    [Object.prototype[file]] in a template literal, and the text of
    [Object.prototype[modname][file]] when that value is truthy. *)
Variable inherited_text : string -> string.
Variable inherited_member : string -> string -> option string.

(** Whether [res.sendFile] finds and sends the file under [node_modules]. *)
Variable sends : string -> bool.

Definition sendFile (fileName : string) : lib_response :=
  if sends fileName then File fileName else Status 500 "Error when retrieving file".

(** The value of [authorized[modname][file]], in the template literal, when
    [authorized[modname]] and it are truthy. *)
Definition authorized_file (modname file : string) : option string :=
  match own authorized modname with
  | Some files =>
      match own files file with
      | Some path => if Js.falsy_string path then None else Some path
      | None => if Js.inherited file then Some (inherited_text file) else None
      end
  | None => if Js.inherited modname then inherited_member modname file else None
  end.

Definition lib (modname file : string) : lib_response :=
  if Js.falsy_string modname || Js.falsy_string file
  then Status 400 "Missing parameters"
  else
    match authorized_file modname file with
    | None => Status 404 "File not found"
    | Some path => sendFile (modname +:+ "/" +:+ path)
    end.

End Lib.

(** ** GET /users/:name *)

Inductive user_query : Type :=
| SelectUserid (username : string)
| SelectUserBadges (sql : string) (userid : string).

(** What the route answers: a redirect, or the user page with the rows of
    the badges, each one with its project, which the page passes to
    [getBadgesDetails]. *)
Inductive user_response : Type :=
| UserRedirect (url : string)
| UserPage (username userid : string) (rows : list (string * badge)).

(** The text of the query of the badges:
    [Object.entries(projects).map(e => `SELECT ...`).concat([...]).join(" UNION ALL ")] *)
Definition user_badges_sql (projects : registry) : string :=
  String.concat " UNION ALL "
    (map (fun p => "SELECT '" +:+ project_id p +:+ "' AS project, * FROM get_badges('"
                   +:+ project_id p +:+ "', $1)")
         projects
     ++ ["SELECT 'meta' AS project, * FROM get_badges('meta', $1)"]).

Section Users.

Variable get_badges : db -> string -> string -> list badge.

(** Whether the database rejects a query of this route. *)
Variable rejects : db -> user_query -> bool.

(** [SELECT userid FROM user_names WHERE username = $1] *)
Definition select_userid (d : db) (username : string) : list string :=
  map fst (List.filter (fun row => String.eqb row.2 username) (user_names d)).

(** The rows of the query of the badges: those of each project of the
    registry, then those of [meta]. *)
Definition select_user_badges (projects : registry) (d : db) (userid : string)
    : list (string * badge) :=
  flat_map (fun project => map (fun b => (project, b)) (get_badges d project userid))
    (map project_id projects ++ ["meta"]).

(** The handler: the response and the queries issued, in order. *)
Definition user_page (projects : registry) (name : string) (d : db)
    : user_response * list user_query :=
  if Js.falsy_string name then (UserRedirect "/error/404", [])
  else
    let q1 := SelectUserid name in
    if rejects d q1 then (UserRedirect "/error/500", [q1])
    else
      match select_userid d name with
      | [userid] =>
          let q2 := SelectUserBadges (user_badges_sql projects) userid in
          if rejects d q2 then (UserRedirect "/error/500", [q1; q2])
          else (UserPage name userid (select_user_badges projects d userid), [q1; q2])
      | _ => (UserRedirect "/error/404", [q1])
      end.

End Users.

(** * Definitions for the statements *)

(** ** Predicates and functions the statements are written with *)

(** [b2] is the first badge of [l] whose identifier is [id]. *)
Definition first_with_id (l : list badge) (id : string) (b2 : badge) : Prop :=
  exists l1 l2,
    l = l1 ++ b2 :: l2 /\ badge_id b2 = id /\
    forall x, In x l1 -> badge_id x <> id.

(** The acquisition state of [b] is the same as before: the snapshot taken
    before holds a badge with the same identifier and the same [acquired]. *)
Definition state_unchanged (before : list badge) (b : badge) : Prop :=
  exists b2, In b2 before /\ badge_id b2 = badge_id b /\ acquired b2 = acquired b.

(** [p] ends no later than [q]. *)
Definition ends_no_later (p q : project) : Prop := end_leb p q = true.

(** The elements of the [chart] of an object, when it has one that is an
    array. *)
Definition chart_opt (o : Js.object) : option (list Js.value) :=
  match Js.get_own o "chart" with
  | Some (Js.VArr l) => Some l
  | _ => None
  end.

(** The [chart] of an object, when it has one, is an array. *)
Definition chart_ok (o : Js.object) : Prop :=
  Js.get_own o "chart" = Js.VArr <$> chart_opt o.

(** No key of the object names a member of [Object.prototype]. *)
Definition own_keys (o : Js.object) : Prop :=
  Forall (fun k => Js.inherited k = false) (Js.keys o).

(** The keys other than [chart]. *)
Definition outside_chart (ks : list string) : list string :=
  filter (fun k => k <> "chart") ks.

(** Concatenation of two optional arrays, an absent one counting for
    nothing. *)
Definition app_opt (a b : option (list Js.value)) : option (list Js.value) :=
  match a, b with
  | Some l, Some l' => Some (l ++ l')
  | Some l, None => Some l
  | None, _ => b
  end.

(** The concatenation of the [chart] arrays of the producers, in the order
    of the list; [None] when no producer has a [chart]. *)
Definition charts (rs : list Js.object) : option (list Js.value) :=
  foldr (fun r o => app_opt (chart_opt r) o) None rs.

(** The [values] array once the promises of [finished] are fulfilled. *)
Definition values_after {A : Type} (vals : list A) (finished : list nat) : list (option A) :=
  (fun i => if bool_decide (i ∈ finished) then vals !! i else None) <$> seq 0 (length vals).

(** The state of [Promise.all] once the promises of [finished] are
    fulfilled and the others are pending. *)
Definition state_after {A : Type} (vals : list A) (finished : list nat) : all_state A :=
  {| values := values_after vals finished;
     remaining := (length vals - length finished)%nat;
     outcome := if bool_decide (length finished = length vals)
                then Some (Fulfilled vals) else None |}.

(** The promise is rejected. *)
Definition rejected {A : Type} (s : settled A) : bool :=
  match s with
  | Rejected _ => true
  | Fulfilled _ => false
  end.

(** Once the promises of [finished] have settled: the joined promise is not
    fulfilled, and while it is pending they were all fulfilled and as many
    are still counted as remaining. *)
Definition not_fulfilled_after {A : Type} (ps : list (settled A))
    (finished : list nat) (st : all_state A) : Prop :=
  (forall vs, outcome st <> Some (Fulfilled vs))
  /\ (outcome st = None ->
      Forall (fun i => exists a, ps !! i = Some (Fulfilled a)) finished
      /\ (length ps - length finished <= remaining st)%nat).

(** One of the fetches of a statistics request is rejected. *)
Definition fetch_failed (up : upstream) (p : project) (id : string) : Prop :=
  (exists ds, In ds (datasources p) /\ source ds = "osmose"
              /\ rejected (fetch_osmose up p ds) = true)
  \/ (existsb (fun ds => String.eqb (source ds) "notes") (datasources p) = true
      /\ rejected (query_note_counts up id) = true)
  \/ (statistics_count p = true
      /\ (rejected (query_feature_counts up id) = true
          \/ rejected (query_count up (suffix id)) = true))
  \/ rejected (query_leaderboard up id) = true
  \/ rejected (query_tag_keys up (suffix id)) = true.

(** The same upstream, the leaderboard query answering with [rows]. *)
Definition with_leaderboard (up : upstream) (rows : list Js.value) : upstream :=
  {| localeCompare := localeCompare up;
     fetch_osmose := fetch_osmose up;
     query_note_counts := query_note_counts up;
     query_feature_counts := query_feature_counts up;
     query_count := query_count up;
     query_leaderboard := fun _ => Fulfilled rows;
     query_tag_keys := query_tag_keys up |}.

(** A string as it is built from pieces with [+:+]. *)
Inductive text : Type :=
| TLit (s : string)            (* a literal, or any string taken as a whole *)
| TApp (a b : text).

Fixpoint text_eval (e : text) : string :=
  match e with
  | TLit s => s
  | TApp a b => text_eval a +:+ text_eval b
  end.

(** [text_eval e +:+ acc], associated to the right. *)
Fixpoint text_flat (e : text) (acc : string) : string :=
  match e with
  | TLit s => s +:+ acc
  | TApp a b => text_flat a (text_flat b acc)
  end.

(** The character [c] occurs in [s]. *)
Fixpoint has_char (c : ascii) (s : string) : bool :=
  match s with
  | EmptyString => false
  | String x s' => Ascii.eqb x c || has_char c s'
  end.

(** ** Sample data *)

Definition badge_A (n : Z) : badge := {| badge_id := "A"; acquired := Js.VNum n |}.
Definition badge_B (n : Z) : badge := {| badge_id := "B"; acquired := Js.VNum n |}.
Definition badge_unacquired : badge := {| badge_id := "A"; acquired := Js.VBool false |}.

Definition no_database : database :=
  {| imposm_mapping := Js.VNull; imposm_types := ["point"]; compare := None |}.

Definition campaign (id : string) (start : Z) (finish : Z) : project :=
  {| project_id := id;
     start_date := start;
     end_date := Some finish;
     datasources := [];
     statistics_count := false;
     project_database := no_database |}.

(** Two finished campaigns, the most recent one listed first. *)
Definition finished_campaigns : registry :=
  [campaign "2020-03_b" 30 40; campaign "2020-01_a" 10 20].

(** One campaign, running at time 15. *)
Definition running_campaign : registry := [campaign "2020-05_demo" 10 20].

Definition bad_userid : request :=
  {| params_id := "2020-05_demo";
     params_userid := "12a";
     query_username := QString "Alice";
     query_type := QString "add" |}.

Definition empty_db : db := {| user_names := []; user_contributions := [] |}.

Definition series_with_data : series :=
  {| label := "errors A";
     data := [ {| pt_t := "2020-05-01"; pt_y := 5 |}; {| pt_t := "2020-05-02"; pt_y := 3 |} ];
     borderColor := "#c62828" |}.

Definition series_without_data : series :=
  {| label := "errors B"; data := []; borderColor := "#c62828" |}.

Definition two_osmose_sources : project :=
  {| project_id := "2020-05_demo";
     start_date := 10;
     end_date := Some 20;
     datasources :=
       [ {| source := "osmose"; ds_name := "errors A"; ds_color := None |};
         {| source := "osmose"; ds_name := "errors B"; ds_color := None |} ];
     statistics_count := false;
     project_database := no_database |}.

(** A collation: the order of the code units. *)
Definition by_code_units (a b : string) : Z :=
  match String.compare a b with
  | Lt => -1
  | Eq => 0
  | Gt => 1
  end.

(** The first osmose source has two points, the second none; every query
    succeeds. *)
Definition one_empty_graph : upstream :=
  {| localeCompare := by_code_units;
     fetch_osmose := fun _ ds =>
       if String.eqb (ds_name ds) "errors A"
       then Fulfilled [("2020-05-02", 3); ("2020-05-01", 5)] else Fulfilled [];
     query_note_counts := fun _ => Fulfilled [];
     query_feature_counts := fun _ => Fulfilled [];
     query_count := fun _ => Fulfilled [];
     query_leaderboard := fun _ => Fulfilled [];
     query_tag_keys := fun _ => Fulfilled [] |}.

Definition sample_osmose : Js.object :=
  [("chart", Js.VArr [series_value series_with_data]); ("tasksSolved", Js.VNum 2)].

Definition sample_rows : list feature_row :=
  [ {| feature_ts := "2020-05-01"; feature_amount := 10 |};
    {| feature_ts := "2020-05-02"; feature_amount := 14 |} ].

(** Four partial results as the handlers produce them. *)
Definition sample_partials : list Js.object :=
  [ sample_osmose;
    features_then sample_rows;
    leaderboard_then false [];
    tags_then [] ].

(** Every fetch succeeds; the leaderboard has two rows. *)
Definition healthy : upstream :=
  {| localeCompare := by_code_units;
     fetch_osmose := fun _ _ => Fulfilled [("2020-05-02", 3); ("2020-05-01", 5)];
     query_note_counts := fun _ => Fulfilled [];
     query_feature_counts := fun _ => Fulfilled sample_rows;
     query_count := fun _ => Fulfilled [Js.VStr "14"];
     query_leaderboard := fun _ =>
       Fulfilled [ Js.VObj [("userid", Js.VNum 1); ("pos", Js.VNum 1)];
                   Js.VObj [("userid", Js.VNum 2); ("pos", Js.VNum 2)] ];
     query_tag_keys := fun _ => Fulfilled [] |}.

Definition anonymous_body : Js.object :=
  Eval vm_compute in
    match stats [two_osmose_sources] healthy "2020-05_demo" QAbsent with
    | Ok (Some (Send b)) => b
    | _ => []
    end.

(** Every fetch succeeds but the leaderboard query. *)
Definition leaderboard_down : upstream :=
  {| localeCompare := localeCompare healthy;
     fetch_osmose := fetch_osmose healthy;
     query_note_counts := query_note_counts healthy;
     query_feature_counts := query_feature_counts healthy;
     query_count := query_count healthy;
     query_leaderboard := fun _ => Rejected UpstreamError;
     query_tag_keys := query_tag_keys healthy |}.

Definition two_types : database :=
  {| imposm_mapping := Js.VNull; imposm_types := ["point"; "line"]; compare := None |}.

Definition demo_foo : project :=
  {| project_id := "demo_foo";
     start_date := 10;
     end_date := Some 20;
     datasources := [];
     statistics_count := false;
     project_database := two_types |}.

(** ** Definitions for the further properties *)

(** The database once the name of a user is recorded. *)
Definition with_user_name (d : db) (userid username : string) : db :=
  {| user_names := upsert_user_name (user_names d) userid username;
     user_contributions := user_contributions d |}.

(** The row a contribution inserts. *)
Definition contribution_row (get_points : string -> string -> Z)
    (current_timestamp : db -> Z) (d : db) (project userid type : string) : contribution :=
  {| c_project := project;
     c_userid := userid;
     c_ts := current_timestamp d;
     c_contribution := type;
     c_verified := false;
     c_points := get_points project type |}.

(** The database once a contribution is inserted. *)
Definition with_contribution (get_points : string -> string -> Z)
    (current_timestamp : db -> Z) (d : db) (project userid type : string) : db :=
  {| user_names := user_names d;
     user_contributions :=
       user_contributions d
       ++ [contribution_row get_points current_timestamp d project userid type] |}.

(** What a query does when the database accepts it: the rows it returns and
    the state it leaves. *)
Definition run_query (get_badges : db -> string -> string -> list badge)
    (get_points : string -> string -> Z) (current_timestamp : db -> Z)
    (q : query) (d : db) : settled (list badge) * db :=
  match q with
  | UpsertUserName userid username => (Fulfilled [], with_user_name d userid username)
  | SelectBadges project userid => (Fulfilled (get_badges d project userid), d)
  | InsertContribution project userid type =>
      (Fulfilled [], with_contribution get_points current_timestamp d project userid type)
  end.

(** A request that the guards of the contribution route let through. *)
Definition accepted (filterProjects : registry -> filtered) (projects : registry)
    (req : request) (username type : string) : Prop :=
  (exists c, current (filterProjects projects) = Some c
             /\ In c projects /\ project_id c = params_id req)
  /\ params_id req <> EmptyString
  /\ Js.test_digits (params_userid req) = true
  /\ query_username req = QString username
  /\ Js.trim username <> EmptyString
  /\ query_type req = QString type
  /\ In type ["add"; "edit"; "delete"].

Definition good_request : request :=
  {| params_id := "2020-05_demo";
     params_userid := "12";
     query_username := QString "Alice";
     query_type := QString "edit" |}.

(** The database rejects the reading of the badges once a contribution is
    there. *)
Definition rejects_second_reading (d : db) (q : query) : bool :=
  match q with
  | SelectBadges _ _ => negb (length (user_contributions d) =? 0)%nat
  | _ => false
  end.

(** The database rejects every insertion of a contribution. *)
Definition rejects_insert (d : db) (q : query) : bool :=
  match q with
  | InsertContribution _ _ _ => true
  | _ => false
  end.

Definition three_badges : list badge :=
  [ {| badge_id := "A"; acquired := Js.VBool true |};
    {| badge_id := "B"; acquired := Js.VBool false |};
    {| badge_id := "C"; acquired := Js.VNum 2 |} ].

(** Two users under one name. *)
Definition homonyms : db :=
  {| user_names := [("12", "Alice"); ("13", "Bob"); ("14", "Alice")];
     user_contributions := [] |}.

(** The files the table [authorized] lists, each one under its module. *)
Definition authorized_paths : list string :=
  flat_map (fun entry => map (fun f => entry.1 +:+ "/" +:+ f.2) entry.2) authorized.

(** A host where a function of [Object.prototype] reads as its source text
    and where no file of that name is found. *)
Definition native_text (name : string) : string :=
  "function " +:+ name +:+ "() { [native code] }".

(** What one series adds to [tasksSolved]: its first value minus its last
    one. *)
Definition solved (r : series) : Z :=
  match head (data r), last (data r) with
  | Some a, Some b => pt_y a - pt_y b
  | _, _ => 0
  end.

(** [p] goes before [q], or at the same place, in the collation. *)
Definition collates (localeCompare : string -> string -> Z) (p q : point) : Prop :=
  localeCompare (pt_t p) (pt_t q) <= 0.

(** The rows are in the order of [ORDER BY COUNT( * ) desc]. *)
Definition descending (rows : list tag_row) : Prop :=
  Sorted (fun a b => tag_amount b <= tag_amount a) rows.

(** The bar chart of the rows [d]. *)
Definition chartKeys_of (d : list tag_row) : Js.object :=
  [("chartKeys",
    Js.VObj
      [("labels", Js.VArr (map (fun r => Js.VStr (tag_k r)) d));
       ("datasets",
        Js.VArr
          [Js.VObj
             [("label", Js.VStr "Nombre d'objets pour la clé");
              ("data", Js.VArr (map (fun r => Js.VNum (tag_amount r)) d));
              ("fill", Js.VBool false);
              ("backgroundColor", Js.VStr "#1E88E5")]])])].

(** The keys a statistics response may hold. *)
Definition stats_keys : list string :=
  ["chart"; "tasksSolved"; "chartNotes"; "closedNotes"; "added"; "count";
   "nbContributors"; "leaderboard"; "chartKeys"].

(** [p.datasources.find(ds => ds.source === "notes")] finds one. *)
Definition has_notes (p : project) : bool :=
  existsb (fun ds => String.eqb (source ds) "notes") (datasources p).

Definition sample_tags : list tag_row :=
  [ {| tag_k := "name"; tag_amount := 50 |};
    {| tag_k := "amenity"; tag_amount := 50 |};
    {| tag_k := "opening_hours"; tag_amount := 5 |};
    {| tag_k := "fixme"; tag_amount := 4 |} ].

(** The projects that have a comparison. *)
Definition compared (projects : registry) : list project :=
  List.filter (fun p => match compare (project_database p) with
                        | Some _ => true
                        | None => false
                        end) projects.

(** The characters that keep a meaning between the double quotes of a shell
    command: the double quote, the dollar, the backquote and the backslash. *)
Definition shell_special : list ascii :=
  [ascii_of_nat 34; ascii_of_nat 36; ascii_of_nat 96; ascii_of_nat 92].

(** No character of [s] is special between double quotes. *)
Definition plain (s : string) : Prop :=
  Forall (fun c => has_char c s = false) shell_special.

(** The identifier and the geometry types of a project are plain. *)
Definition plain_project (p : project) : Prop :=
  plain (project_id p)
  /\ Forall plain (imposm_types (project_database p))
  /\ match compare (project_database p) with
     | Some c => Forall plain (compare_types c)
     | None => True
     end.

(** A table of the Imposm mapping has the four columns and a name that ends
    with an underscore and its geometry type. *)
Definition table_named (entry : string * Generator.table) : Prop :=
  Generator.table_columns entry.2 = Generator.columns
  /\ exists s, entry.1 = s +:+ "_" +:+ Generator.table_type entry.2.

(** A project with a comparison. *)
Definition compared_foo : project :=
  {| project_id := "2021-01_foo";
     start_date := 10;
     end_date := Some 20;
     datasources := [];
     statistics_count := true;
     project_database :=
       {| imposm_mapping := Js.VNull;
          imposm_types := ["point"; "polygon"];
          compare := Some {| compare_mapping := Js.VNull;
                             compare_types := ["point"];
                             radius := 20 |} |} |}.

(** [k] names a table of the project [p]: one of its geometry types, or one
    of the geometry types of its comparison. *)
Definition table_for (p : project) (k : string) : Prop :=
  (exists type,
     In type (imposm_types (project_database p))
     /\ k = suffix (project_id p) +:+ "_" +:+ type)
  \/ (exists c type,
        compare (project_database p) = Some c
        /\ In type (compare_types c)
        /\ k = suffix (project_id p) +:+ "_compare_" +:+ type).

(** The address [url] is the error page of the status [code], which renders
    it with that status. *)
Definition renders_error (url code : string) : Prop :=
  url = "/error/" +:+ code /\ httpcode code = code.

(** [pat] does not match [s] at any of its first [n] positions. *)
Fixpoint no_match (pat s : string) (n : nat) : bool :=
  match n, s with
  | S n', String c s' => negb (String.prefix pat s) && no_match pat s' n'
  | _, _ => true
  end.

Definition sample_config : Generator.config :=
  {| Generator.WORK_DIR := "/data/pdm";
     Generator.OSH_PBF_URL := "https://download.example/extracts/ile-de-france-internal.osh.pbf";
     Generator.DB_USER := "pdm";
     Generator.DB_PASS := "secret";
     Generator.DB_HOST := "localhost";
     Generator.DB_PORT := "5432";
     Generator.DB_NAME := "pdm" |}.

(** * Properties *)

(** ** JavaScript values *)

Lemma strict_eq_primitive (a b : Js.value) :
  Js.primitive a = true -> Js.strict_eq a b = true <-> a = b.
Proof.
  intros Ha. destruct a, b; simpl in *; try discriminate;
    split; intros H; try discriminate; try reflexivity.
  - f_equal. by apply Bool.eqb_prop.
  - injection H as ->. by destruct b.
  - f_equal. by apply Z.eqb_eq.
  - injection H as ->. apply Z.eqb_refl.
  - f_equal. by apply String.eqb_eq.
  - injection H as ->. apply String.eqb_refl.
Qed.

Lemma get_own_set_eq (o : Js.object) (k : string) (v : Js.value) :
  Js.get_own (Js.set o k v) k = Some v.
Proof.
  induction o as [|[k' v'] o IH]; simpl.
  - by rewrite String.eqb_refl.
  - destruct (String.eqb k' k) eqn:E; simpl; rewrite E; [done | apply IH].
Qed.

Lemma get_own_set_ne (o : Js.object) (k k' : string) (v : Js.value) :
  k <> k' -> Js.get_own (Js.set o k v) k' = Js.get_own o k'.
Proof.
  intros Hne. induction o as [|[k0 v0] o IH]; simpl.
  - destruct (String.eqb k k') eqn:E; [|done].
    apply String.eqb_eq in E. contradiction.
  - destruct (String.eqb k0 k) eqn:E; simpl.
    + apply String.eqb_eq in E as ->.
      destruct (String.eqb k k') eqn:E'; [|done].
      apply String.eqb_eq in E'. contradiction.
    + by rewrite IH.
Qed.

Lemma get_own_None (o : Js.object) (k : string) :
  Js.get_own o k = None <-> ~ In k (Js.keys o).
Proof.
  induction o as [|[k' v'] o IH]; simpl; [tauto|].
  destruct (String.eqb k' k) eqn:E.
  - apply String.eqb_eq in E. split; [discriminate | tauto].
  - apply String.eqb_neq in E. rewrite IH. tauto.
Qed.

(** ** Contribution Recorder: the badges returned *)

Lemma badgeInBefore_Some (before : list badge) (b b2 : badge) :
  badgeInBefore before b = Some b2 <-> first_with_id before (badge_id b) b2.
Proof.
  unfold badgeInBefore, first_with_id.
  induction before as [|x before IH]; simpl.
  - split; [discriminate|]. intros (l1 & l2 & H & _). by destruct l1.
  - destruct (String.eqb (badge_id b) (badge_id x)) eqn:E.
    + apply String.eqb_eq in E. split.
      * intros [= <-]. exists [], before. by repeat split.
      * intros (l1 & l2 & H & Hid & Hl1). destruct l1 as [|y l1]; simpl in H.
        -- by injection H as ->.
        -- injection H as -> _. exfalso. apply (Hl1 y); [by left | done].
    + apply String.eqb_neq in E. rewrite IH. split.
      * intros (l1 & l2 & -> & Hid & Hl1). exists (x :: l1), l2.
        repeat split; [done|]. intros y [<-|Hy]; [congruence | by apply Hl1].
      * intros (l1 & l2 & H & Hid & Hl1). destruct l1 as [|y l1]; simpl in H.
        -- injection H as -> _. congruence.
        -- injection H as -> ->. exists l1, l2. repeat split; [done|].
           intros z Hz. apply Hl1. by right.
Qed.

Lemma badgeInBefore_None (before : list badge) (b : badge) :
  badgeInBefore before b = None <->
  forall b2, In b2 before -> badge_id b2 <> badge_id b.
Proof.
  unfold badgeInBefore. split.
  - intros H b2 Hin Hid.
    pose proof (find_none _ _ H b2 Hin) as E. simpl in E.
    rewrite Hid, String.eqb_refl in E. discriminate.
  - intros H. destruct (List.find _ before) as [b2|] eqn:E; [|done].
    apply find_some in E as [Hin Hid]. apply String.eqb_eq in Hid.
    exfalso. by apply (H b2).
Qed.

(** C1, as the specification states it, fails: a badge that is not acquired,
    before and after alike, is returned although its acquisition state did
    not change. *)
Lemma badge_diff_returns_unchanged :
  badgesForDisplay [badge_unacquired] [badge_unacquired] = [badge_unacquired]
  /\ state_unchanged [badge_unacquired] badge_unacquired.
Proof.
  split; [reflexivity|].
  exists badge_unacquired. repeat split. by left.
Qed.

(** C1 (amended). The badges returned are exactly the badges of the snapshot
    taken after, in the same order, that have no badge with their identifier
    in the snapshot taken before, or that are not acquired, or whose
    [acquired] differs from that of the first badge before with the same
    identifier. For before = [{A,1}] and after = [{A,2},{B,1}] the result is
    [A, B]. *)
Theorem badge_diff_displayed :
  (forall (before after : list badge) (b : badge),
      In b (badgesForDisplay before after) <->
      In b after /\
      ((forall b2, In b2 before -> badge_id b2 <> badge_id b)
       \/ Js.truthy (acquired b) = false
       \/ exists b2, first_with_id before (badge_id b) b2
                     /\ Js.strict_eq (acquired b2) (acquired b) = false))
  /\ (forall before after : list badge, sublist (badgesForDisplay before after) after)
  /\ badgesForDisplay [badge_A 1] [badge_A 2; badge_B 1] = [badge_A 2; badge_B 1].
Proof.
  split; [|split; [|reflexivity]].
  - intros before after b. unfold badgesForDisplay. rewrite filter_In.
    apply and_iff_compat_l. unfold badge_displayed.
    destruct (badgeInBefore before b) as [b2|] eqn:E.
    + apply badgeInBefore_Some in E. split.
      * intros [H|H]%orb_true_iff.
        -- right; left. by apply negb_true_iff.
        -- right; right. exists b2. split; [done | by apply negb_true_iff].
      * intros [H|[H|(b3 & H3 & Hne)]].
        -- destruct E as (l1 & l2 & -> & Hid & _). exfalso.
           apply (H b2); [apply in_or_app; right; by left | done].
        -- apply orb_true_iff. left. by apply negb_true_iff.
        -- apply badgeInBefore_Some in E, H3. rewrite E in H3. injection H3 as <-.
           apply orb_true_iff. right. by apply negb_true_iff.
    + pose proof (proj1 (badgeInBefore_None before b) E) as E'.
      split; [by left | done].
  - intros before after. unfold badgesForDisplay.
    induction after as [|b after IH]; simpl; [constructor|].
    destruct (badge_displayed before b); by constructor.
Qed.

(** ** GET /: the home-page redirect *)

Lemma end_leb_trans (p q r : project) :
  end_leb p q = true -> end_leb q r = true -> end_leb p r = true.
Proof.
  unfold end_leb.
  destruct (end_date p), (end_date q), (end_date r); try done. lia.
Qed.

Lemma end_leb_refl (p : project) : end_leb p p = true.
Proof. unfold end_leb. destruct (end_date p); [lia | done]. Qed.

Lemma sorted_last_latest (l : list project) (x : project) :
  Sorted ends_no_later l -> last l = Some x ->
  forall q, In q l -> end_leb q x = true.
Proof.
  intros Hs. apply Sorted_StronglySorted in Hs.
  2: { intros a b c. apply end_leb_trans. }
  induction Hs as [|a l Hs IH Hall]; [done|].
  intros Hlast q [<-|Hq].
  - destruct l as [|y l]; simpl in Hlast.
    + injection Hlast as <-. apply end_leb_refl.
    + rewrite Forall_forall in Hall. apply Hall.
      eapply last_Some_elem_of. exact Hlast.
  - destruct l as [|y l]; [done|]. by apply IH.
Qed.

Lemma destId_ok (p : filtered) :
  is_Some (current p) \/ is_Some (next p) \/ past p <> [] ->
  exists dest,
    destId p = Ok (project_id dest) /\
    match current p, next p with
    | Some c, _ => dest = c
    | None, Some n => dest = n
    | None, None => last (past p) = Some dest
    end.
Proof.
  unfold destId. intros H.
  destruct (current p) as [c|]; [by exists c|].
  destruct (next p) as [n|]; [by exists n|].
  destruct (last (past p)) as [x|] eqn:E; [by exists x|].
  apply last_None in E.
  destruct H as [[? [=]]|[[? [=]]|H]]. contradiction.
Qed.

Lemma destId_throws (p : filtered) :
  destId p = Throw TypeError <->
  current p = None /\ next p = None /\ past p = [].
Proof.
  unfold destId.
  destruct (current p); [split; [done | by intros [? _]]|].
  destruct (next p); [split; [done | by intros (_ & ? & _)]|].
  destruct (last (past p)) eqn:E.
  - split; [done|]. intros (_ & _ & H). rewrite H in E. done.
  - apply last_None in E. by split.
Qed.

(** *** The filter of the specification *)

Lemma fold_pick_In (better : project -> project -> bool) (l : list project)
    (o : option project) (p : project) :
  fold_left
    (fun best p =>
       match best with
       | None => Some p
       | Some b => if better p b then Some p else Some b
       end) l o = Some p ->
  o = Some p \/ In p l.
Proof.
  revert o. induction l as [|x l IH]; simpl; intros o H; [by left|].
  apply IH in H as [H|H]; [|by right; right].
  destruct o as [b|]; [|injection H as ->; right; by left].
  destruct (better x b); injection H as ->; [right; by left | by left].
Qed.

Lemma pick_In (better : project -> project -> bool) (l : list project) (p : project) :
  pick better l = Some p -> In p l.
Proof. unfold pick. by intros [?|?]%fold_pick_In. Qed.

Lemma filterProjects_at_current_In (now : Z) (projects : registry) (c : project) :
  current (filterProjects_at now projects) = Some c -> In c projects.
Proof.
  simpl. intros H%pick_In. by apply filter_In in H as [H _].
Qed.

Lemma insert_by_end_sorted (p : project) (l : list project) :
  Sorted ends_no_later l -> Sorted ends_no_later (insert_by_end p l).
Proof.
  induction 1 as [|q l Hs IH Hhd]; simpl; [by repeat constructor|].
  destruct (end_leb p q) eqn:E.
  - constructor; [by constructor | by constructor].
  - constructor; [done|].
    assert (Hqp : ends_no_later q p).
    { unfold ends_no_later, end_leb in *.
      destruct (end_date p), (end_date q); try done. lia. }
    destruct l as [|r l]; simpl; [by constructor|].
    destruct (end_leb p r); constructor; [done|]. by inversion Hhd.
Qed.

(** The past projects come out ordered by end ascending. *)
Lemma filterProjects_at_past_sorted (now : Z) (projects : registry) :
  Sorted ends_no_later (past (filterProjects_at now projects)).
Proof.
  simpl. unfold sort_by_end.
  induction (List.filter _ projects) as [|p l IH]; simpl; [constructor|].
  by apply insert_by_end_sorted.
Qed.

(** C9. Over a registry with at least one classified project, [GET /]
    redirects to the page of the current project when there is one, otherwise
    of the next project when there is one, otherwise of the last element of
    the past list; the past list being ordered by end ascending, that one is
    the most recent past project. *)
Theorem home_redirect (filterProjects : registry -> filtered) (projects : registry) :
  is_Some (current (filterProjects projects))
  \/ is_Some (next (filterProjects projects))
  \/ past (filterProjects projects) <> [] ->
  Sorted ends_no_later (past (filterProjects projects)) ->
  exists dest,
    home filterProjects projects = Ok (Redirect ("/projects/" +:+ project_id dest)) /\
    match current (filterProjects projects), next (filterProjects projects) with
    | Some c, _ => dest = c
    | None, Some n => dest = n
    | None, None =>
        last (past (filterProjects projects)) = Some dest /\
        forall q, In q (past (filterProjects projects)) -> end_leb q dest = true
    end.
Proof.
  intros H Hs. destruct (destId_ok _ H) as (dest & Hd & Hm).
  exists dest. split.
  - unfold home. by rewrite Hd.
  - destruct (current (filterProjects projects)); [done|].
    destruct (next (filterProjects projects)); [done|].
    split; [done|]. by apply sorted_last_latest.
Qed.

Lemma home_redirect_witness :
  exists dest,
    home (filterProjects_at 100) finished_campaigns
    = Ok (Redirect ("/projects/" +:+ project_id dest)) /\
    match current (filterProjects_at 100 finished_campaigns),
          next (filterProjects_at 100 finished_campaigns) with
    | Some c, _ => dest = c
    | None, Some n => dest = n
    | None, None =>
        last (past (filterProjects_at 100 finished_campaigns)) = Some dest /\
        forall q, In q (past (filterProjects_at 100 finished_campaigns)) ->
                  end_leb q dest = true
    end.
Proof.
  apply (home_redirect (filterProjects_at 100) finished_campaigns).
  - right; right. vm_compute. discriminate.
  - vm_compute. repeat constructor.
Defined.

Example home_most_recent_past :
  home (filterProjects_at 100) finished_campaigns = Ok (Redirect "/projects/2020-03_b").
Proof. reflexivity. Qed.

(** C10. When the filter yields no current project, no next project and an
    empty past list, as it does for an empty registry, [GET /] throws a
    [TypeError] instead of responding; it responds exactly when at least one
    project is classified. *)
Theorem home_throws_without_project :
  (forall (filterProjects : registry -> filtered) (projects : registry),
      home filterProjects projects = Throw TypeError <->
      current (filterProjects projects) = None
      /\ next (filterProjects projects) = None
      /\ past (filterProjects projects) = [])
  /\ (forall (filterProjects : registry -> filtered) (projects : registry),
         (exists r, home filterProjects projects = Ok r) <->
         is_Some (current (filterProjects projects))
         \/ is_Some (next (filterProjects projects))
         \/ past (filterProjects projects) <> [])
  /\ (forall now : Z, home (filterProjects_at now) [] = Throw TypeError).
Proof.
  assert (T : forall f ps,
             home f ps = Throw TypeError <->
             current (f ps) = None /\ next (f ps) = None /\ past (f ps) = []).
  { intros f ps. rewrite <- destId_throws. unfold home.
    destruct (destId (f ps)) as [d|e]; simpl; [done|]. by destruct e. }
  split; [exact T|]. split; [|reflexivity].
  intros f ps. split.
  - intros [r Hr].
    destruct (current (f ps)) eqn:Ec; [left; eauto|].
    destruct (next (f ps)) eqn:En; [right; left; eauto|].
    right; right. intros Hp.
    assert (home f ps = Throw TypeError) as Ht by (apply T; by rewrite ?Ec, ?En).
    congruence.
  - intros H. destruct (destId_ok _ H) as (dest & Hd & _).
    exists (Redirect ("/projects/" +:+ project_id dest)).
    unfold home. by rewrite Hd.
Qed.

(** ** Contribution Recorder: validation *)

Lemma registry_get_In (projects : registry) (c : project) :
  In c projects -> registry_get projects (project_id c) <> None.
Proof.
  unfold registry_get. intros Hin Hnone.
  pose proof (find_none _ _ Hnone c Hin) as E. simpl in E.
  by rewrite String.eqb_refl in E.
Qed.

Lemma trim_length_0 (s : string) :
  (String.length (Js.trim s) =? 0)%nat = true <-> Js.trim s = EmptyString.
Proof.
  rewrite Nat.eqb_eq. destruct (Js.trim s); simpl; split; done.
Qed.

Lemma type_valid (type : query_value) :
  type_not_valid type = false ->
  In type [QString "add"; QString "edit"; QString "delete"].
Proof.
  destruct type as [|s|]; simpl; try discriminate.
  intros [_ H]%orb_false_iff. apply negb_false_iff in H.
  rewrite !orb_true_iff in H.
  destruct H as [H|[H|[H|H]]]; try discriminate;
    apply String.eqb_eq in H as ->; simpl; tauto.
Qed.

(** C4. A contribution whose project is unknown or is not the current
    project, or whose user id is not made of digits only, or whose username
    is not a string that is non-empty once trimmed, or whose type is not one
    of add, edit and delete, is answered by a redirect to the 400 error page;
    no query is issued and the tables are left as they were. The current
    project is one of the registry. *)
Theorem contribute_rejects_invalid
    (filterProjects : registry -> filtered)
    (get_badges : db -> string -> string -> list badge)
    (get_points : string -> string -> Z)
    (current_timestamp : db -> Z)
    (rejects : db -> query -> bool)
    (projects : registry) (req : request) (d : db) :
  (forall c, current (filterProjects projects) = Some c -> In c projects) ->
  registry_get projects (params_id req) = None
  \/ (forall c, current (filterProjects projects) = Some c ->
                project_id c <> params_id req)
  \/ Js.test_digits (params_userid req) = false
  \/ (forall s, query_username req = QString s -> Js.trim s = EmptyString)
  \/ ~ In (query_type req) [QString "add"; QString "edit"; QString "delete"] ->
  contribute filterProjects get_badges get_points current_timestamp rejects
    projects req d
  = (Redirect "/error/400", d, []).
Proof.
  intros Hreg H. unfold contribute.
  destruct (project_not_active _ _ _) eqn:Ep; [done|].
  unfold project_not_active in Ep.
  apply orb_false_iff in Ep as [[_ Ehas]%orb_false_iff Ecur].
  destruct (current (filterProjects projects)) as [c|] eqn:Ec; [|done].
  apply negb_false_iff, String.eqb_eq in Ecur.
  destruct (user_not_valid _ _) eqn:Eu; [done|].
  unfold user_not_valid in Eu.
  apply orb_false_iff in Eu as [[_ Edig]%orb_false_iff Ename].
  apply negb_false_iff in Edig.
  destruct (type_not_valid _) eqn:Et; [done|].
  apply type_valid in Et. exfalso.
  destruct H as [H|[H|[H|[H|H]]]].
  - apply (registry_get_In projects c); [by apply Hreg | by rewrite Ecur].
  - by apply (H c).
  - congruence.
  - destruct (query_username req) as [|s|]; try discriminate.
    rewrite (H s eq_refl) in Ename. discriminate.
  - contradiction.
Qed.

Lemma contribute_rejects_invalid_witness :
  contribute (filterProjects_at 15) (fun _ _ _ => []) (fun _ _ => 1) (fun _ => 0)
    (fun _ _ => false) running_campaign bad_userid empty_db
  = (Redirect "/error/400", empty_db, []).
Proof.
  apply contribute_rejects_invalid.
  - intros c Hc. vm_compute in Hc. injection Hc as <-. left. reflexivity.
  - right; right; left. reflexivity.
Defined.

(** A contribution of type delete to the current project, when no query
    is rejected, appends exactly one row, not verified. *)
Lemma contribute_delete_inserts_one_row
    (get_badges : db -> string -> string -> list badge)
    (get_points : string -> string -> Z)
    (current_timestamp : db -> Z) (d : db) :
  let req := {| params_id := "2020-05_demo"; params_userid := "12";
                query_username := QString "Alice"; query_type := QString "delete" |} in
  exists row,
    user_contributions
      (contribute (filterProjects_at 15) get_badges get_points current_timestamp
         (fun _ _ => false) running_campaign req d).1.2
    = user_contributions d ++ [row]
    /\ c_verified row = false /\ c_contribution row = "delete".
Proof.
  simpl. eexists. split; [reflexivity|]. by split.
Qed.

(** ** Statistics Aggregator: the osmose totals *)

Lemma reduce_add_sum (ys : list Z) :
  ys <> [] -> reduce_add ys = Ok (foldr Z.add 0 ys).
Proof.
  destruct ys as [|y0 ys]; [done|]. intros _. simpl. f_equal.
  revert y0. induction ys as [|y ys IH]; intros y0; simpl; [lia|].
  rewrite IH. lia.
Qed.

Lemma result_bind_Ok {A B : Type} (a : A) (k : A -> result B) :
  (Ok a ≫= k) = k a.
Proof. reflexivity. Qed.

Lemma map_result_cons {A B : Type} (f : A -> result B) (a : A) (l : list A) :
  map_result f (a :: l)
  = match f a with
    | Ok b => match map_result f l with
              | Ok bs => Ok (b :: bs)
              | Throw e => Throw e
              end
    | Throw e => Throw e
    end.
Proof. reflexivity. Qed.

Lemma map_result_first_y (results : list series) :
  Forall (fun r => has_data r = true) results ->
  exists firsts,
    map_result first_y results = Ok firsts /\
    Forall2 (fun r f => exists p, head (data r) = Some p /\ pt_y p = f) results firsts.
Proof.
  induction 1 as [|r results Hr _ (firsts & E & F)].
  - exists []. by split.
  - rewrite map_result_cons, E. unfold has_data in Hr. unfold first_y.
    destruct (data r) as [|p ps] eqn:Ed; [done|].
    exists (pt_y p :: firsts). split; [done|].
    constructor; [|done]. exists p. by rewrite Ed.
Qed.

Lemma map_result_last_y (results : list series) :
  Forall (fun r => has_data r = true) results ->
  exists lasts,
    map_result last_y results = Ok lasts /\
    Forall2 (fun r f => exists p, last (data r) = Some p /\ pt_y p = f) results lasts.
Proof.
  induction 1 as [|r results Hr _ (lasts & E & F)].
  - exists []. by split.
  - rewrite map_result_cons, E. unfold has_data in Hr. unfold last_y.
    destruct (last (data r)) as [p|] eqn:Ed.
    + exists (pt_y p :: lasts). split; [done|].
      constructor; [|done]. by exists p.
    + apply last_None in Ed. by rewrite Ed in Hr.
Qed.

(** When every series has data, [tasksSolved] is the sum of the first values
    minus the sum of the last values. *)
Lemma osmose_then_totals (results : list series) :
  results <> [] ->
  Forall (fun r => has_data r = true) results ->
  exists firsts lasts,
    Forall2 (fun r f => exists p, head (data r) = Some p /\ pt_y p = f) results firsts
    /\ Forall2 (fun r f => exists p, last (data r) = Some p /\ pt_y p = f) results lasts
    /\ osmose_then results
       = Ok [("chart", Js.VArr (map series_value results));
             ("tasksSolved", Js.VNum (foldr Z.add 0 firsts - foldr Z.add 0 lasts))].
Proof.
  intros Hne Hall.
  destruct (map_result_first_y _ Hall) as (firsts & Ef & Ff).
  destruct (map_result_last_y _ Hall) as (lasts & El & Fl).
  exists firsts, lasts. split; [done|]. split; [done|].
  unfold osmose_then.
  assert (List.filter has_data results = results) as ->.
  { clear -Hall. induction Hall as [|r l Hr _ IH]; simpl; [done|]. by rewrite Hr, IH. }
  assert ((length results =? 0)%nat = false) as -> by (by destruct results).
  rewrite orb_false_r.
  rewrite Ef, result_bind_Ok, reduce_add_sum, result_bind_Ok.
  2: { intros ->. inversion Ff. congruence. }
  rewrite El, result_bind_Ok, reduce_add_sum, result_bind_Ok.
  2: { intros ->. inversion Fl. congruence. }
  done.
Qed.

(** When no series has data, the handler returns the empty object. *)
Lemma osmose_then_no_data (results : list series) :
  Forall (fun r => data r = []) results -> osmose_then results = Ok Js.empty_object.
Proof.
  intros Hall. unfold osmose_then.
  assert (List.filter has_data results = []) as ->.
  { induction Hall as [|r l Hr _ IH]; simpl; [done|].
    unfold has_data at 1. by rewrite Hr. }
  by rewrite orb_true_r.
Qed.

(** When one series has data and another one has none, the handler throws. *)
Lemma osmose_then_mixed (results : list series) :
  Exists (fun r => has_data r = true) results ->
  Exists (fun r => data r = []) results ->
  osmose_then results = Throw TypeError.
Proof.
  intros Hfull Hempty. unfold osmose_then.
  assert ((length results =? 0)%nat = false) as ->.
  { destruct results; [inversion Hfull | done]. }
  assert ((length (List.filter has_data results) =? 0)%nat = false) as ->.
  { clear Hempty. induction Hfull as [r l Hr|r l _ IH]; simpl.
    - by rewrite Hr.
    - by destruct (has_data r). }
  simpl.
  assert (map_result first_y results = Throw TypeError) as ->; [|done].
  clear Hfull. induction Hempty as [r l Hr|r l _ IH]; rewrite map_result_cons.
  - unfold first_y. by rewrite Hr.
  - rewrite IH. unfold first_y. by destruct (head (data r)).
Qed.

(** C2, at the failing input: with one series that has data and one that is
    empty the handler does not return the empty object but throws, and the
    statistics request gets no response at all. *)
Theorem osmose_then_one_empty_series :
  osmose_then [series_with_data; series_without_data] = Throw TypeError
  /\ stats [two_osmose_sources] one_empty_graph "2020-05_demo" QAbsent = Ok None.
Proof. split; reflexivity. Qed.

(** ** Statistics Aggregator: the merge *)

Lemma app_opt_None_r a : app_opt a None = a.
Proof. by destruct a. Qed.

Lemma app_opt_assoc a b c : app_opt (app_opt a b) c = app_opt a (app_opt b c).
Proof. destruct a, b, c; simpl; by rewrite <- ?app_assoc. Qed.

Lemma no_chart_elements (rs : list Js.object) :
  ~ Exists (fun r => is_Some (chart_opt r)) rs ->
  mjoin ((fun r => default [] (chart_opt r)) <$> rs) = [].
Proof.
  induction rs as [|r rs IH]; intros H; [done|].
  change (default [] (chart_opt r)
          ++ mjoin ((fun r => default [] (chart_opt r)) <$> rs) = []).
  rewrite IH by (intros H'; apply H; by right).
  destruct (chart_opt r) eqn:E; [|done].
  exfalso. apply H. left. rewrite E. eauto.
Qed.

Lemma charts_Some (rs : list Js.object) :
  charts rs =
  if bool_decide (Exists (fun r => is_Some (chart_opt r)) rs)
  then Some (mjoin ((fun r => default [] (chart_opt r)) <$> rs))
  else None.
Proof.
  induction rs as [|r rs IH]; [done|].
  change (charts (r :: rs)) with (app_opt (chart_opt r) (charts rs)).
  change (mjoin ((fun r => default [] (chart_opt r)) <$> r :: rs))
    with (default [] (chart_opt r)
          ++ mjoin ((fun r => default [] (chart_opt r)) <$> rs)).
  rewrite IH. destruct (chart_opt r) as [l|] eqn:E.
  - rewrite (bool_decide_eq_true_2 (Exists _ (r :: rs))).
    2: { left. rewrite E. eauto. }
    case_bool_decide as H; simpl; [done|].
    by rewrite (no_chart_elements rs H), app_nil_r.
  - simpl. case_bool_decide as H.
    + rewrite bool_decide_eq_true_2; [done | by right].
    + rewrite bool_decide_eq_false_2; [done|].
      intros H'. inversion H' as [?? [? Hs]|]; subst; [|done].
      rewrite E in Hs. discriminate.
Qed.

Lemma get_own_None_elem (o : Js.object) (k : string) :
  Js.get_own o k = None <-> k ∉ Js.keys o.
Proof. rewrite get_own_None. by rewrite list_elem_of_In. Qed.

Lemma get_own_cons (k0 : string) (v0 : Js.value) (o : Js.object) (k : string) :
  Js.get_own ((k0, v0) :: o) k = if String.eqb k0 k then Some v0 else Js.get_own o k.
Proof. reflexivity. Qed.

(** One entry whose key the accumulator does not hold yet, or one more
    [chart] array. *)
Lemma merge_entry_spec (acc : Js.object) (k : string) (v : Js.value) :
  Js.inherited k = false ->
  chart_ok acc ->
  (k <> "chart" -> Js.get_own acc k = None) ->
  (k = "chart" -> exists l, v = Js.VArr l) ->
  exists acc',
    merge_entry acc (k, v) = Ok acc'
    /\ (forall k', k' <> k -> Js.get_own acc' k' = Js.get_own acc k')
    /\ (k <> "chart" -> Js.get_own acc' k = Some v)
    /\ (forall l, k = "chart" -> v = Js.VArr l ->
                  Js.get_own acc' "chart" = Some (Js.VArr (default [] (chart_opt acc) ++ l))).
Proof.
  intros Hk Hacc Hfresh Harr. unfold merge_entry, Js.has_truthy. simpl fst; simpl snd.
  destruct (String.eqb k "chart") eqn:Ec.
  - apply String.eqb_eq in Ec as ->. destruct (Harr eq_refl) as [l ->].
    unfold chart_ok, chart_opt in *.
    destruct (Js.get_own acc "chart") as [c|] eqn:E.
    + destruct c as [| | | | |l0|]; try discriminate. simpl.
      eexists. split; [reflexivity|]. split; [|split].
      * intros k' Hne. by apply get_own_set_ne.
      * done.
      * intros l' _ [= <-]. apply get_own_set_eq.
    + rewrite Hk. simpl. eexists. split; [reflexivity|]. split; [|split].
      * intros k' Hne. by apply get_own_set_ne.
      * done.
      * intros l' _ [= <-]. apply get_own_set_eq.
  - apply String.eqb_neq in Ec. rewrite (Hfresh Ec), Hk. simpl.
    eexists. split; [reflexivity|]. split; [|split].
    + intros k' Hne. by apply get_own_set_ne.
    + intros _. apply get_own_set_eq.
    + done.
Qed.

Lemma chart_ok_intro (o : Js.object) :
  (forall v, Js.get_own o "chart" = Some v -> exists l, v = Js.VArr l) -> chart_ok o.
Proof.
  unfold chart_ok, chart_opt. intros H.
  destruct (Js.get_own o "chart") as [v|]; [|done].
  by destruct (H v eq_refl) as [l ->].
Qed.

Lemma chart_ok_elim (o : Js.object) (v : Js.value) :
  chart_ok o -> Js.get_own o "chart" = Some v -> exists l, v = Js.VArr l.
Proof.
  unfold chart_ok, chart_opt. intros H E. rewrite E in H.
  destruct v; try discriminate. eauto.
Qed.

(** Merging one partial result into the accumulator. *)
Lemma merge_entries_spec (r : Js.object) (acc : Js.object) :
  NoDup (Js.keys r) -> own_keys r -> chart_ok r -> chart_ok acc ->
  (forall k, k ∈ Js.keys r -> k <> "chart" -> Js.get_own acc k = None) ->
  exists body,
    merge_entries acc r = Ok body
    /\ (forall k, k <> "chart" ->
                  Js.get_own body k
                  = match Js.get_own r k with
                    | Some v => Some v
                    | None => Js.get_own acc k
                    end)
    /\ chart_ok body
    /\ chart_opt body = app_opt (chart_opt acc) (chart_opt r).
Proof.
  revert acc. induction r as [|[k v] r IH]; intros acc Hnd Hown Hr Hacc Hfresh.
  - exists acc. split; [done|]. split; [done|]. split; [done|].
    by rewrite app_opt_None_r.
  - simpl in Hnd. apply NoDup_cons in Hnd as [Hk Hnd].
    apply Forall_cons in Hown as [Hkown Hown].
    destruct (merge_entry_spec acc k v) as (acc' & E & Hother & Hkey & Hchart); try done.
    { intros Hne. apply Hfresh; [by left | done]. }
    { intros ->. apply (chart_ok_elim _ _ Hr). simpl. done. }
    assert (Hr' : chart_ok r).
    { apply chart_ok_intro. intros w Hw. apply (chart_ok_elim _ _ Hr).
      rewrite get_own_cons. destruct (String.eqb k "chart") eqn:Ek; [|done].
      apply String.eqb_eq in Ek as ->. apply get_own_None_elem in Hk. congruence. }
    assert (Hacc' : chart_ok acc').
    { apply chart_ok_intro. intros w Hw.
      destruct (decide (k = "chart")) as [->|Hne].
      - destruct (chart_ok_elim _ v Hr) as [l ->]; [by simpl|].
        rewrite (Hchart l eq_refl eq_refl) in Hw. injection Hw as <-. eauto.
      - rewrite Hother in Hw by done. by apply (chart_ok_elim _ _ Hacc). }
    destruct (IH acc') as (body & Eb & Hb & Hbok & Hbchart); try done.
    { intros k' Hk' Hne. rewrite Hother.
      - apply Hfresh; [by right | done].
      - intros ->. contradiction. }
    exists body. split; [|split; [|split]].
    + simpl. rewrite E. simpl. exact Eb.
    + intros k' Hne. rewrite Hb by done. rewrite get_own_cons.
      destruct (String.eqb k k') eqn:Ek.
      * apply String.eqb_eq in Ek as <-.
        apply get_own_None_elem in Hk. rewrite Hk. by apply Hkey.
      * apply String.eqb_neq in Ek. destruct (Js.get_own r k'); [done|].
        by apply Hother.
    + done.
    + rewrite Hbchart. destruct (decide (k = "chart")) as [->|Hne].
      * destruct (chart_ok_elim _ v Hr) as [l ->]; [by simpl|].
        assert (chart_opt r = None) as ->.
        { unfold chart_opt. apply get_own_None_elem in Hk. by rewrite Hk. }
        assert (chart_opt acc' = Some (default [] (chart_opt acc) ++ l)) as ->.
        { unfold chart_opt at 1. by rewrite (Hchart l eq_refl eq_refl). }
        assert (chart_opt (("chart", Js.VArr l) :: r) = Some l) as -> by done.
        by destruct (chart_opt acc).
      * assert (chart_opt acc' = chart_opt acc) as ->.
        { unfold chart_opt. by rewrite Hother. }
        assert (chart_opt ((k, v) :: r) = chart_opt r) as ->; [|done].
        unfold chart_opt. rewrite get_own_cons.
        destruct (String.eqb k "chart") eqn:Ek; [|done].
        by apply String.eqb_eq in Ek.
Qed.

Lemma get_own_Some_elem (o : Js.object) (k : string) (v : Js.value) :
  Js.get_own o k = Some v -> k ∈ Js.keys o.
Proof.
  intros H. destruct (decide (k ∈ Js.keys o)) as [|Hn]; [done|].
  apply get_own_None_elem in Hn. congruence.
Qed.

(** Merging the partial results, in the order of the list. *)
Lemma merge_from_spec (rs : list Js.object) (acc : Js.object) :
  Forall (fun r => NoDup (Js.keys r)) rs ->
  Forall own_keys rs ->
  Forall chart_ok rs ->
  chart_ok acc ->
  NoDup (outside_chart (mjoin (Js.keys <$> rs))) ->
  (forall r k, r ∈ rs -> k ∈ Js.keys r -> k <> "chart" -> Js.get_own acc k = None) ->
  exists body,
    merge_from acc rs = Ok body
    /\ (forall k v, k <> "chart" ->
          Js.get_own body k = Some v <->
          Js.get_own acc k = Some v \/ exists r, r ∈ rs /\ Js.get_own r k = Some v)
    /\ chart_ok body
    /\ chart_opt body = app_opt (chart_opt acc) (charts rs).
Proof.
  revert acc. induction rs as [|r rs IH]; intros acc Hnd Hown Hch Hacc Hdis Hfresh.
  - exists acc. split; [done|]. split; [|split; [done|]].
    + intros k v _. split; [by left|]. intros [H|(r & Hr & _)]; [done|].
      by apply elem_of_nil in Hr.
    + by rewrite app_opt_None_r.
  - apply Forall_cons in Hnd as [Hnd1 Hnd], Hown as [Hown1 Hown], Hch as [Hch1 Hch].
    change (mjoin (Js.keys <$> r :: rs)) with (Js.keys r ++ mjoin (Js.keys <$> rs)) in Hdis.
    unfold outside_chart in Hdis. rewrite filter_app in Hdis.
    apply NoDup_app in Hdis as (_ & Hdis1 & Hdis).
    destruct (merge_entries_spec r acc) as (body1 & E1 & Hb1 & Hok1 & Hc1); try done.
    { intros k Hk Hne. apply (Hfresh r); [by left | done | done]. }
    assert (Hsep : forall r' k, r' ∈ rs -> k ∈ Js.keys r' -> k <> "chart" ->
                                Js.get_own r k = None).
    { intros r' k Hr' Hk Hne. apply get_own_None_elem. intros Hkr.
      apply (Hdis1 k).
      - apply list_elem_of_filter. by split.
      - apply list_elem_of_filter. split; [done|].
        apply list_elem_of_join. exists (Js.keys r'). split; [done|].
        by apply list_elem_of_fmap_2. }
    destruct (IH body1) as (body & E & Hb & Hok & Hc); try done.
    { intros r' k Hr' Hk Hne. rewrite Hb1 by done.
      rewrite (Hsep r' k) by done. apply (Hfresh r'); [by right | done | done]. }
    exists body. split; [|split; [|split; [done|]]].
    + simpl. rewrite E1. simpl. exact E.
    + intros k v Hne. rewrite Hb by done. rewrite Hb1 by done. split.
      * intros [H|(r' & Hr' & H)].
        -- destruct (Js.get_own r k) as [w|] eqn:Er; [|by left].
           right. exists r. split; [by left | congruence].
        -- right. exists r'. split; [by right | done].
      * intros [H|(r' & Hr' & H)].
        -- left. destruct (Js.get_own r k) as [w|] eqn:Er; [|done].
           rewrite (Hfresh r k) in H; [done | by left | | done].
           by eapply get_own_Some_elem.
        -- apply elem_of_cons in Hr' as [->|Hr'].
           ++ left. by rewrite H.
           ++ right. eauto.
    + rewrite Hc, Hc1. apply app_opt_assoc.
Qed.

(** ** Promise.all: the completion order does not matter *)

Section PromiseAll.

Local Close Scope Z_scope.

Context {A : Type}.
Variable vals : list A.

Lemma omap_lookups (l : list A) (f : nat -> option A) (j : nat) :
  (forall i, i < length l -> f (j + i) = l !! i) ->
  omap (fun v => v) (f <$> seq j (length l)) = l.
Proof.
  revert f j. induction l as [|a l IH]; intros f j Hf; [done|].
  simpl. rewrite <- (Nat.add_0_r j) at 1. rewrite (Hf 0) by (simpl; lia).
  simpl. f_equal. apply IH. intros i Hi.
  replace (S j + i) with (j + S i) by lia.
  rewrite Hf by (simpl; lia). done.
Qed.

Lemma values_after_all (finished : list nat) :
  finished ≡ₚ seq 0 (length vals) ->
  omap (fun v => v) (values_after vals finished) = vals.
Proof.
  intros Hp. unfold values_after.
  apply omap_lookups. intros i Hi. simpl.
  rewrite bool_decide_eq_true_2; [done|].
  rewrite Hp. apply elem_of_seq. lia.
Qed.

Lemma values_after_step (finished : list nat) (j : nat) (a : A) :
  vals !! j = Some a ->
  <[j := Some a]> (values_after vals finished) = values_after vals (finished ++ [j]).
Proof.
  intros Hj. pose proof (lookup_lt_Some _ _ _ Hj) as Hlt.
  apply list_eq. intros i. unfold values_after.
  destruct (decide (i = j)) as [->|Hne].
  - rewrite list_lookup_insert_eq by (by rewrite length_fmap, length_seq).
    rewrite list_lookup_fmap, lookup_seq_lt by done. simpl.
    rewrite bool_decide_eq_true_2; [by rewrite Hj|].
    apply elem_of_app. right. by apply list_elem_of_singleton.
  - rewrite list_lookup_insert_ne by done.
    rewrite !list_lookup_fmap.
    destruct (decide (i < length vals)) as [Hi|Hi].
    + rewrite lookup_seq_lt by done. simpl. f_equal.
      replace (bool_decide (i ∈ finished ++ [j])) with (bool_decide (i ∈ finished)); [done|].
      apply bool_decide_ext.
      rewrite elem_of_app, list_elem_of_singleton. split; [by left|].
      by intros [?|?].
    + by rewrite lookup_seq_ge by lia.
Qed.

Lemma all_step_state_after (finished rest : list nat) (j : nat) (a : A) :
  finished ++ j :: rest ≡ₚ seq 0 (length vals) ->
  vals !! j = Some a ->
  all_step (state_after vals finished) j (Fulfilled a) = state_after vals (finished ++ [j]).
Proof.
  intros Hp Hj.
  pose proof (Permutation_length Hp) as Hlen.
  rewrite length_app, length_seq in Hlen. simpl in Hlen.
  unfold all_step, state_after. simpl.
  rewrite values_after_step by done. rewrite length_app. simpl.
  f_equal; [lia|].
  rewrite bool_decide_eq_false_2 by lia.
  destruct (Nat.eqb_spec (pred (length vals - length finished)) 0) as [E|E].
  - rewrite bool_decide_eq_true_2 by lia.
    do 2 f_equal. apply values_after_all.
    assert (rest = []) as -> by (destruct rest; [done | simpl in Hlen; lia]).
    done.
  - by rewrite bool_decide_eq_false_2 by lia.
Qed.

Lemma fold_all_step (rest finished : list nat) :
  finished ++ rest ≡ₚ seq 0 (length vals) ->
  fold_left (settle (Fulfilled <$> vals)) rest (state_after vals finished)
  = state_after vals (finished ++ rest).
Proof.
  revert finished. induction rest as [|j rest IH]; intros finished Hp.
  - by rewrite app_nil_r.
  - assert (j < length vals) as Hj.
    { assert (j ∈ seq 0 (length vals)) as Hin.
      { rewrite <- Hp. apply elem_of_app. right. by left. }
      apply elem_of_seq in Hin. lia. }
    destruct (lookup_lt_is_Some_2 vals j Hj) as [a Ha].
    assert ((Fulfilled <$> vals) !! j = Some (Fulfilled a)) as Hl.
    { by rewrite list_lookup_fmap, Ha. }
    cbn [fold_left]. unfold settle at 2. rewrite Hl.
    rewrite (all_step_state_after finished rest) by done.
    rewrite IH by (by rewrite <- app_assoc). by rewrite <- app_assoc.
Qed.

(** Whatever the order in which the promises are fulfilled, [Promise.all]
    is fulfilled with their values in the order of the list. *)
Lemma promise_all_completing_fulfilled (completion : list nat) :
  completion ≡ₚ seq 0 (length vals) ->
  promise_all_completing (Fulfilled <$> vals) completion = Some (Fulfilled vals).
Proof.
  intros Hp. unfold promise_all_completing. rewrite length_fmap.
  assert (all_init (length vals) = state_after vals []) as ->.
  { unfold all_init, state_after, values_after. f_equal.
    - clear Hp. generalize 0. induction (length vals) as [|n IH]; intros j; [done|].
      simpl. f_equal. apply IH.
    - simpl. lia.
    - by destruct vals. }
  rewrite fold_all_step by done. simpl.
  rewrite bool_decide_eq_true_2; [done|].
  apply Permutation_length in Hp. by rewrite length_seq in Hp.
Qed.

End PromiseAll.

Lemma promise_all_fulfilled {A : Type} (vals : list A) :
  promise_all (Fulfilled <$> vals) = Fulfilled vals.
Proof. induction vals as [|a l IH]; csimpl; [done|]. by rewrite IH. Qed.

(** C3. The partial results being objects whose keys are their own, a
    [chart] being an array, and the keys other than [chart] being disjoint
    across the producers: whatever the order in which the promises complete,
    the joined promise is fulfilled with the partial results in the order they
    were declared, and the response maps every key other than [chart] to the
    value of the partial result that provides it and [chart] to the
    concatenation of the [chart] arrays in that order. *)
Theorem stats_merge (partials : list Js.object) (completion : list nat) :
  completion ≡ₚ seq 0 (length partials) ->
  Forall (fun r => NoDup (Js.keys r)) partials ->
  Forall own_keys partials ->
  Forall chart_ok partials ->
  NoDup (outside_chart (mjoin (Js.keys <$> partials))) ->
  exists body,
    promise_all_completing (Fulfilled <$> partials) completion = Some (Fulfilled partials)
    /\ respond_completing (Fulfilled <$> partials) completion = Some (Send body)
    /\ (forall k v, k <> "chart" ->
          Js.get_own body k = Some v <-> exists r, r ∈ partials /\ Js.get_own r k = Some v)
    /\ Js.get_own body "chart"
       = Js.VArr <$>
           (if bool_decide (Exists (fun r => is_Some (chart_opt r)) partials)
            then Some (mjoin ((fun r => default [] (chart_opt r)) <$> partials))
            else None).
Proof.
  intros Hp Hnd Hown Hch Hdis.
  destruct (merge_from_spec partials Js.empty_object) as (body & E & Hb & Hok & Hc);
    try done.
  exists body. split; [|split; [|split]].
  - by apply promise_all_completing_fulfilled.
  - unfold respond_completing. rewrite promise_all_completing_fulfilled by done.
    simpl. unfold toSend. by rewrite E.
  - intros k v Hne. rewrite Hb by done. split; [|by right].
    by intros [?|?].
  - rewrite Hok, Hc. simpl. by rewrite charts_Some.
Qed.

Lemma stats_merge_witness :
  exists body,
    promise_all_completing (Fulfilled <$> sample_partials) [2; 0; 3; 1]%nat
    = Some (Fulfilled sample_partials)
    /\ respond_completing (Fulfilled <$> sample_partials) [2; 0; 3; 1]%nat
       = Some (Send body)
    /\ (forall k v, k <> "chart" ->
          Js.get_own body k = Some v <->
          exists r, r ∈ sample_partials /\ Js.get_own r k = Some v)
    /\ Js.get_own body "chart"
       = Js.VArr <$>
           (if bool_decide (Exists (fun r => is_Some (chart_opt r)) sample_partials)
            then Some (mjoin ((fun r => default [] (chart_opt r)) <$> sample_partials))
            else None).
Proof.
  apply (stats_merge sample_partials [2; 0; 3; 1]%nat).
  - compute_done.
  - compute_done.
  - compute_done.
  - repeat constructor.
  - compute_done.
Defined.

Example merged_chart_of_two_producers :
  (b ← toSend sample_partials; Ok (Js.get_own b "chart"))
  = Ok (Some (Js.VArr [series_value series_with_data;
                       series_value
                         {| label := "Nombre dans OSM";
                            data := [ {| pt_t := "2020-05-01"; pt_y := 10 |};
                                      {| pt_t := "2020-05-02"; pt_y := 14 |} ];
                            borderColor := "#388E3C" |}])).
Proof. reflexivity. Qed.

(** ** Statistics Aggregator: the handler *)

Section PromiseAllRejected.

Local Close Scope Z_scope.

Context {A : Type}.
Variable ps : list (settled A).

Lemma settle_not_fulfilled (j0 : nat) (e0 : error) (rest finished : list nat)
    (st : all_state A) :
  ps !! j0 = Some (Rejected e0) ->
  finished ++ rest ≡ₚ seq 0 (length ps) ->
  not_fulfilled_after ps finished st ->
  not_fulfilled_after ps (finished ++ rest) (fold_left (settle ps) rest st).
Proof.
  intros Hj0. revert finished st.
  induction rest as [|j rest IH]; intros finished st Hp [Hnf Hpend].
  - by rewrite app_nil_r.
  - cbn [fold_left].
    replace (finished ++ j :: rest) with ((finished ++ [j]) ++ rest)
      by (by rewrite <- app_assoc).
    apply IH; [by rewrite <- app_assoc|].
    unfold settle. destruct (ps !! j) as [[a|e]|] eqn:Ej.
    + unfold all_step, not_fulfilled_after. simpl.
      destruct (outcome st) as [o|] eqn:Eo.
      { split; [done | done]. }
      destruct (Hpend eq_refl) as [Hall Hrem].
      assert (j0 ∈ rest) as Hin.
      { assert (j0 ∈ finished ++ j :: rest) as Hin.
        { rewrite Hp. apply elem_of_seq. apply lookup_lt_Some in Hj0. lia. }
        apply elem_of_app in Hin as [Hin|Hin].
        - rewrite Forall_forall in Hall. destruct (Hall j0 Hin) as [a' Ha']. congruence.
        - apply elem_of_cons in Hin as [->|Hin]; [congruence | done]. }
      assert (1 <= length rest) as Hrest.
      { destruct rest; [by apply elem_of_nil in Hin | simpl; lia]. }
      apply Permutation_length in Hp.
      rewrite length_app, length_seq in Hp. simpl in Hp.
      destruct (Nat.eqb_spec (pred (remaining st)) 0) as [E|E]; [lia|].
      split; [done|]. intros _. split.
      * apply Forall_app. split; [done|]. apply Forall_singleton. eauto.
      * rewrite length_app. simpl. lia.
    + unfold all_step, not_fulfilled_after. simpl.
      destruct (outcome st) as [o|] eqn:Eo; split; done.
    + apply lookup_ge_None in Ej.
      assert (j ∈ finished ++ j :: rest) as Hin by (apply elem_of_app; right; by left).
      rewrite Hp in Hin. apply elem_of_seq in Hin. lia.
Qed.

(** Whatever the order in which the promises settle, [Promise.all] is
    rejected as soon as one of them is. *)
Lemma promise_all_completing_rejected (completion : list nat) :
  completion ≡ₚ seq 0 (length ps) ->
  Exists (fun s => rejected s = true) ps ->
  exists e, promise_all_completing ps completion = Some (Rejected e).
Proof.
  intros Hp Hex. apply Exists_exists in Hex as (s & Hs & Hr).
  apply list_elem_of_lookup in Hs as [j0 Hj0].
  destruct s as [|e0]; [done|].
  pose proof (lookup_lt_Some _ _ _ Hj0) as Hlt.
  destruct (settle_not_fulfilled j0 e0 completion [] (all_init (length ps)))
    as [Hnf Hpend]; [done | done | |].
  { unfold all_init, not_fulfilled_after. simpl.
    destruct (Nat.eqb_spec (length ps) 0) as [E|E]; [lia|].
    split; [done|]. intros _. split; [constructor | lia]. }
  unfold promise_all_completing. fold (settle ps).
  destruct (outcome (fold_left (settle ps) completion (all_init (length ps)))) as [[vs|e]|].
  - by destruct (Hnf vs).
  - eauto.
  - destruct (Hpend eq_refl) as [Hall _]. simpl in Hall.
    rewrite Forall_forall in Hall.
    destruct (Hall j0) as [a Ha]; [|congruence].
    rewrite Hp. apply elem_of_seq. lia.
Qed.

End PromiseAllRejected.

Lemma promise_then_rejected {A B : Type} (q : settled A) (f : A -> result B) :
  rejected q = true -> rejected (promise_then q f) = true.
Proof. by destruct q. Qed.

Lemma promise_all_rejected {A : Type} (ps : list (settled A)) :
  Exists (fun s => rejected s = true) ps <-> exists e, promise_all ps = Rejected e.
Proof.
  induction ps as [|[a|e] ps IH]; simpl.
  - split; [by intros H; inversion H | by intros [e [=]]].
  - rewrite Exists_cons, IH. simpl. split.
    + intros [[=]|[e ->]]. eauto.
    + intros [e He]. right. destruct (promise_all ps); [done | eauto].
  - split; [eauto|]. intros _. by left.
Qed.

Lemma promise_all_Fulfilled_inv {A : Type} (ps : list (settled A)) (vs : list A) :
  promise_all ps = Fulfilled vs -> ps = Fulfilled <$> vs.
Proof.
  revert vs. induction ps as [|[a|e] ps IH]; intros vs; simpl.
  - by intros [= <-].
  - destruct (promise_all ps) as [l|]; [|done]. intros [= <-].
    csimpl. by rewrite <- (IH l).
  - done.
Qed.

(** The response does not depend on the order in which the promises
    settle: it is the one computed from the list. *)
Lemma respond_completing_respond (ps : list (settled Js.object)) (completion : list nat) :
  completion ≡ₚ seq 0 (length ps) ->
  respond_completing ps completion = respond ps.
Proof.
  intros Hp. unfold respond_completing, respond.
  destruct (promise_all ps) as [vs|e] eqn:E.
  - apply promise_all_Fulfilled_inv in E as ->.
    rewrite length_fmap in Hp.
    by rewrite (promise_all_completing_fulfilled vs completion Hp).
  - assert (Hex : Exists (fun s => rejected s = true) ps).
    { apply promise_all_rejected. eauto. }
    by destruct (promise_all_completing_rejected ps completion Hp Hex) as [e' ->].
Qed.

Lemma osmose_then_shape (results : list series) (o : Js.object) :
  osmose_then results = Ok o ->
  o = [] \/ exists c t, o = [("chart", Js.VArr c); ("tasksSolved", Js.VNum t)].
Proof.
  unfold osmose_then. destruct (_ || _); [intros [= <-]; by left|].
  destruct (map_result first_y results) as [starts|]; [|done].
  rewrite result_bind_Ok. destruct (reduce_add starts) as [s|]; [|done].
  rewrite result_bind_Ok. destruct (map_result last_y results) as [ends|]; [|done].
  rewrite result_bind_Ok. destruct (reduce_add ends) as [e|]; [|done].
  rewrite result_bind_Ok. intros [= <-]. right. eauto.
Qed.

(** The partial results of a statistics request whose fetches all succeed
    meet the conditions of the merge, and the leaderboard producer is one of
    them. *)
Lemma allPromises_partials (up : upstream) (p : project) (id : string) (auth : bool)
    (partials : list Js.object) :
  promise_all (allPromises up p id auth) = Fulfilled partials ->
  Forall (fun r => NoDup (Js.keys r)) partials
  /\ Forall own_keys partials
  /\ Forall chart_ok partials
  /\ NoDup (outside_chart (mjoin (Js.keys <$> partials)))
  /\ exists rows,
       query_leaderboard up id = Fulfilled rows
       /\ leaderboard_then auth rows ∈ partials.
Proof.
  unfold allPromises.
  set (osm := promise_then (promise_all _) osmose_then).
  assert (Hosm : forall o, osm = Fulfilled o ->
            o = [] \/ exists c t, o = [("chart", Js.VArr c); ("tasksSolved", Js.VNum t)]).
  { intros o. unfold osm. destruct (promise_all _) as [results|]; [|done]. simpl.
    destruct (osmose_then results) as [o'|] eqn:E; [|done].
    intros [= <-]. by apply (osmose_then_shape results). }
  clearbody osm.
  destruct osm as [o|]; [|done]. specialize (Hosm o eq_refl).
  destruct (existsb _ (datasources p));
    [destruct (query_note_counts up id) as [notes|]; [|done]|];
    (destruct (statistics_count p);
     [destruct (query_feature_counts up id) as [feats|]; [|done];
      destruct (query_count up (suffix id)) as [cnt|]; [|done]|]);
    (destruct (query_leaderboard up id) as [rows|]; [|done]);
    (destruct (query_tag_keys up (suffix id)) as [tags|]; [|done]);
    intros [= <-];
    (destruct Hosm as [->|(c & t & ->)];
     (split; [compute_done|]); (split; [compute_done|]);
     (split; [repeat constructor|]); (split; [compute_done|]);
     exists rows; (split; [done|]); rewrite !elem_of_cons; auto 10).
Qed.

Lemma stats_responds (projects : registry) (up : upstream) (id : string)
    (osm_user : query_value) (body : Js.object) :
  stats projects up id osm_user = Ok (Some (Send body)) ->
  exists p partials,
    registry_get projects id = Some p
    /\ promise_all (allPromises up p id (nonempty_string osm_user)) = Fulfilled partials
    /\ toSend partials = Ok body.
Proof.
  unfold stats. destruct (_ || _); [done|].
  destruct (registry_get projects id) as [p|]; [|done].
  intros [= H]. exists p. unfold respond in H.
  destruct (promise_all _) as [partials|]; [|done].
  exists partials. split; [done|]. split; [done|]. simpl in H.
  destruct (toSend partials); [|done]. simpl in H. congruence.
Qed.

Lemma nonempty_string_spec (q : query_value) :
  nonempty_string q = true <-> exists s, q = QString s /\ Js.trim s <> EmptyString.
Proof.
  destruct q as [|s|]; simpl.
  - split; [done | by intros (? & [=] & _)].
  - rewrite Nat.ltb_lt. split.
    + intros H. exists s. split; [done|]. intros E. rewrite E in H. simpl in H. lia.
    + intros (s' & [= <-] & H). destruct (Js.trim s); [done | simpl; lia].
  - split; [done | by intros (? & [=] & _)].
Qed.

(** The promises of a request that is not authenticated depend on the rows
    of the leaderboard through their number only. *)
Lemma allPromises_anonymous (up : upstream) (p : project) (id : string)
    (rows rows' : list Js.value) :
  query_leaderboard up id = Fulfilled rows ->
  length rows' = length rows ->
  allPromises (with_leaderboard up rows') p id false = allPromises up p id false.
Proof.
  intros Hrows Hlen. unfold allPromises.
  cbn [with_leaderboard localeCompare fetch_osmose query_note_counts
         query_feature_counts query_count query_leaderboard query_tag_keys].
  rewrite Hrows. unfold leaderboard_then. cbn [promise_then]. by rewrite Hlen.
Qed.

(** C6. In the response of a statistics request, [nbContributors] is the
    number of rows of the leaderboard, whatever the request says about the
    user, and [leaderboard] holds the rows exactly when the [osm_user]
    parameter of the request is a string that is not empty once trimmed; it is
    [null] otherwise, in particular when the parameter is absent. The
    response to a request that is not authenticated reveals nothing of the
    rows but their number: whatever other rows the leaderboard holds, as
    many, the whole response is the same. *)
Theorem leaderboard_gating (projects : registry) (up : upstream) (id : string)
    (osm_user : query_value) (body : Js.object) :
  stats projects up id osm_user = Ok (Some (Send body)) ->
  exists rows,
    query_leaderboard up id = Fulfilled rows
    /\ Js.get_own body "nbContributors" = Some (Js.VNum (Z.of_nat (length rows)))
    /\ ((exists s, osm_user = QString s /\ Js.trim s <> EmptyString) ->
        Js.get_own body "leaderboard" = Some (Js.VArr rows))
    /\ (~ (exists s, osm_user = QString s /\ Js.trim s <> EmptyString) ->
        Js.get_own body "leaderboard" = Some Js.VNull)
    /\ (osm_user = QAbsent -> Js.get_own body "leaderboard" = Some Js.VNull)
    /\ (~ (exists s, osm_user = QString s /\ Js.trim s <> EmptyString) ->
        forall rows', length rows' = length rows ->
          stats projects (with_leaderboard up rows') id osm_user = Ok (Some (Send body))).
Proof.
  intros H. destruct (stats_responds _ _ _ _ _ H) as (p & partials & Hp & Hall & Hsend).
  destruct (allPromises_partials _ _ _ _ _ Hall)
    as (Hnd & Hown & Hch & Hdis & rows & Hrows & Hin).
  destruct (merge_from_spec partials Js.empty_object) as (body' & E & Hb & _); try done.
  unfold toSend in Hsend. rewrite E in Hsend. injection Hsend as ->.
  exists rows. split; [done|].
  assert (Hlb : Js.get_own body "leaderboard"
                = Some (if nonempty_string osm_user then Js.VArr rows else Js.VNull)).
  { apply Hb; [done|]. right. by eexists. }
  split; [|split; [|split; [|split]]].
  - apply Hb; [done|]. right. by eexists.
  - intros Hs. apply nonempty_string_spec in Hs. by rewrite Hlb, Hs.
  - intros Hs. rewrite Hlb. destruct (nonempty_string osm_user) eqn:En; [|done].
    by apply nonempty_string_spec in En.
  - intros ->. by rewrite Hlb.
  - intros Hs rows' Hlen. rewrite <- H.
    assert (En : nonempty_string osm_user = false).
    { destruct (nonempty_string osm_user) eqn:En; [|done].
      by apply nonempty_string_spec in En. }
    unfold stats. rewrite Hp, En.
    by rewrite (allPromises_anonymous up p id rows rows' Hrows Hlen).
Qed.

Lemma leaderboard_gating_witness :
  exists rows,
    query_leaderboard healthy "2020-05_demo" = Fulfilled rows
    /\ Js.get_own anonymous_body "nbContributors" = Some (Js.VNum (Z.of_nat (length rows)))
    /\ ((exists s, QAbsent = QString s /\ Js.trim s <> EmptyString) ->
        Js.get_own anonymous_body "leaderboard" = Some (Js.VArr rows))
    /\ (~ (exists s, QAbsent = QString s /\ Js.trim s <> EmptyString) ->
        Js.get_own anonymous_body "leaderboard" = Some Js.VNull)
    /\ (QAbsent = QAbsent -> Js.get_own anonymous_body "leaderboard" = Some Js.VNull)
    /\ (~ (exists s, QAbsent = QString s /\ Js.trim s <> EmptyString) ->
        forall rows', length rows' = length rows ->
          stats [two_osmose_sources] (with_leaderboard healthy rows') "2020-05_demo" QAbsent
          = Ok (Some (Send anonymous_body))).
Proof.
  apply (leaderboard_gating [two_osmose_sources] healthy "2020-05_demo" QAbsent).
  vm_compute. reflexivity.
Defined.

Example leaderboard_for_a_user :
  (r ← stats [two_osmose_sources] healthy "2020-05_demo" (QString " bob ");
   Ok (match r with
       | Some (Send b) => (Js.get_own b "nbContributors", Js.get_own b "leaderboard")
       | _ => (None, None)
       end))
  = Ok (Some (Js.VNum 2),
        Some (Js.VArr [ Js.VObj [("userid", Js.VNum 1); ("pos", Js.VNum 1)];
                        Js.VObj [("userid", Js.VNum 2); ("pos", Js.VNum 2)] ])).
Proof. reflexivity. Qed.

(** *** Failing fetches *)

(** C5, as the specification states it, fails: when the leaderboard query is
    rejected and every other fetch succeeds, no response is produced, whereas
    the same request is answered when the query succeeds. *)
Lemma stats_one_failure_no_response :
  stats [two_osmose_sources] leaderboard_down "2020-05_demo" QAbsent = Ok None
  /\ stats [two_osmose_sources] healthy "2020-05_demo" QAbsent
     = Ok (Some (Send anonymous_body)).
Proof. split; reflexivity. Qed.

Lemma allPromises_failed (up : upstream) (p : project) (id : string) (auth : bool) :
  fetch_failed up p id ->
  Exists (fun s => rejected s = true) (allPromises up p id auth).
Proof.
  unfold allPromises. intros [H|[H|[H|[H|H]]]].
  - apply Exists_app. left. apply Exists_cons. left.
    apply promise_then_rejected.
    assert (Hex : Exists (fun s => rejected s = true)
              (map (fun ds => promise_then (fetch_osmose up p ds)
                                (fun entries =>
                                   Ok (osmose_series (localeCompare up) ds entries)))
                 (List.filter (fun ds => String.eqb (source ds) "osmose") (datasources p)))).
    { destruct H as (ds & Hin & Hsrc & Hrej). apply Exists_exists.
      exists (promise_then (fetch_osmose up p ds)
                (fun entries => Ok (osmose_series (localeCompare up) ds entries))).
      split; [|by apply promise_then_rejected].
      apply list_elem_of_In, in_map_iff. exists ds. split; [done|].
      apply filter_In. split; [done|]. by apply String.eqb_eq. }
    apply promise_all_rejected in Hex as [e ->]. done.
  - destruct H as [-> H]. apply Exists_app. right. apply Exists_app. left.
    apply Exists_cons. left. by apply promise_then_rejected.
  - destruct H as [-> H]. do 2 (apply Exists_app; right). apply Exists_app. left.
    destruct H as [H|H].
    + apply Exists_cons. left. by apply promise_then_rejected.
    + apply Exists_cons. right. apply Exists_cons. left. by apply promise_then_rejected.
  - do 3 (apply Exists_app; right). apply Exists_app. left.
    apply Exists_cons. left. by apply promise_then_rejected.
  - do 4 (apply Exists_app; right).
    apply Exists_cons. left. by apply promise_then_rejected.
Qed.

(** C5 (amended). A statistics request for a project of the registry handles
    no failure: when any contributing fetch is rejected, the joined promise is
    rejected and no response is sent; a response is sent exactly when every
    contributing promise is fulfilled. *)
Theorem stats_fetch_failure (projects : registry) (up : upstream) (id : string)
    (osm_user : query_value) (p : project) :
  registry_get projects id = Some p ->
  id <> EmptyString ->
  (fetch_failed up p id -> stats projects up id osm_user = Ok None)
  /\ ((exists body, stats projects up id osm_user = Ok (Some (Send body))) <->
      Forall (fun s => rejected s = false)
        (allPromises up p id (nonempty_string osm_user))).
Proof.
  intros Hp Hid.
  assert (Hstats : stats projects up id osm_user
                   = Ok (respond (allPromises up p id (nonempty_string osm_user)))).
  { unfold stats, registry_has, Js.falsy_string. rewrite Hp.
    destruct (String.eqb_spec id EmptyString); [done|]. done. }
  rewrite Hstats. split.
  - intros Hf. f_equal. unfold respond.
    apply (allPromises_failed _ _ _ (nonempty_string osm_user)) in Hf.
    apply promise_all_rejected in Hf as [e ->]. done.
  - split.
    + intros [body [= Hb]]. apply Forall_forall. intros s Hs.
      destruct (rejected s) eqn:Er; [|done]. exfalso.
      assert (Hex : Exists (fun s => rejected s = true)
                      (allPromises up p id (nonempty_string osm_user))).
      { apply Exists_exists. eauto. }
      apply promise_all_rejected in Hex as [e He].
      unfold respond in Hb. by rewrite He in Hb.
    + intros Hall.
      destruct (promise_all (allPromises up p id (nonempty_string osm_user)))
        as [partials|e] eqn:E.
      * destruct (allPromises_partials _ _ _ _ _ E) as (Hnd & Hown & Hch & Hdis & _).
        destruct (merge_from_spec partials Js.empty_object) as (body & Eb & _); try done.
        exists body. unfold respond. rewrite E. simpl. unfold toSend. by rewrite Eb.
      * exfalso.
        assert (Hex : Exists (fun s => rejected s = true)
                        (allPromises up p id (nonempty_string osm_user))).
        { apply promise_all_rejected. eauto. }
        apply Exists_exists in Hex as (s & Hs & Hr).
        rewrite Forall_forall in Hall. rewrite (Hall s Hs) in Hr. done.
Qed.

Lemma stats_fetch_failure_witness :
  (fetch_failed leaderboard_down two_osmose_sources "2020-05_demo" ->
   stats [two_osmose_sources] leaderboard_down "2020-05_demo" QAbsent = Ok None)
  /\ ((exists body,
          stats [two_osmose_sources] leaderboard_down "2020-05_demo" QAbsent
          = Ok (Some (Send body))) <->
      Forall (fun s => rejected s = false)
        (allPromises leaderboard_down two_osmose_sources "2020-05_demo"
           (nonempty_string QAbsent))).
Proof.
  apply (stats_fetch_failure [two_osmose_sources] leaderboard_down "2020-05_demo"
           QAbsent two_osmose_sources).
  - reflexivity.
  - discriminate.
Defined.

(** ** The features-update generator *)

(** *** Equations between strings, up to the association of [+:+] *)

Lemma string_app_assoc (a b c : string) : (a +:+ b) +:+ c = a +:+ (b +:+ c).
Proof. induction a as [|x a IH]; [reflexivity|]. exact (f_equal (String x) IH). Qed.

Lemma string_app_nil_r (a : string) : a +:+ EmptyString = a.
Proof. induction a as [|x a IH]; [reflexivity|]. exact (f_equal (String x) IH). Qed.

Lemma text_flat_eval (e : text) (acc : string) : text_flat e acc = text_eval e +:+ acc.
Proof.
  revert acc. induction e as [s|a IHa b IHb]; intros acc; simpl; [done|].
  by rewrite IHa, IHb, string_app_assoc.
Qed.

Lemma text_eq (e1 e2 : text) :
  text_flat e1 EmptyString = text_flat e2 EmptyString -> text_eval e1 = text_eval e2.
Proof. rewrite !text_flat_eval, !string_app_nil_r. done. Qed.

Ltac reify_text s :=
  lazymatch s with
  | String.append ?a ?b =>
      let ra := reify_text a in
      let rb := reify_text b in
      constr:(TApp ra rb)
  | _ => constr:(TLit s)
  end.

(** Proves [a = b] for two strings built with [+:+] from the same literals
    and the same strings, whatever the association. *)
Ltac text_equal :=
  lazymatch goal with
  | |- ?a = ?b =>
      let ra := reify_text a in
      let rb := reify_text b in
      change (text_eval ra = text_eval rb);
      apply text_eq;
      cbv [text_flat String.append];
      reflexivity
  end.

(** *** The table-name suffix *)

Lemma split_no_separator (sep : ascii) (s : string) :
  has_char sep s = false -> Js.split sep s = [s].
Proof.
  induction s as [|x s IH]; simpl; [done|].
  intros [Hx Hs]%orb_false_iff. rewrite Hx, (IH Hs). done.
Qed.

Lemma split_not_nil (sep : ascii) (s : string) : Js.split sep s <> [].
Proof.
  destruct s as [|x s]; simpl; [done|].
  destruct (Ascii.eqb x sep); [done|]. by destruct (Js.split sep s).
Qed.

Lemma split_after_separator (sep : ascii) (pre s : string) :
  exists first rest,
    Js.split sep (pre +:+ String sep s) = first :: rest
    /\ rest <> []
    /\ List.last rest EmptyString = List.last (Js.split sep s) EmptyString.
Proof.
  induction pre as [|x pre (first & rest & E & Hne & Hl)].
  - exists EmptyString, (Js.split sep s).
    change (EmptyString +:+ String sep s) with (String sep s). simpl.
    rewrite Ascii.eqb_refl. split; [done|]. split; [apply split_not_nil | done].
  - change (String x pre +:+ String sep s) with (String x (pre +:+ String sep s)).
    simpl. rewrite E. destruct (Ascii.eqb x sep).
    + exists EmptyString, (first :: rest). split; [done|]. split; [done|].
      rewrite <- Hl. by destruct rest.
    + exists (String x first), rest. done.
Qed.

(** The suffix of an identifier is what follows its last underscore. *)
Lemma suffix_after_underscore (pre s : string) :
  has_char "_" s = false -> suffix (pre +:+ "_" +:+ s) = s.
Proof.
  intros Hs. unfold suffix, Js.pop_string.
  destruct (split_after_separator "_" pre s) as (first & rest & E & Hne & Hl).
  change ("_" +:+ s) with (String "_" s). rewrite E.
  rewrite (split_no_separator _ _ Hs) in Hl. simpl in Hl. rewrite <- Hl.
  by destruct rest.
Qed.

Lemma suffix_no_underscore (s : string) : has_char "_" s = false -> suffix s = s.
Proof. intros Hs. unfold suffix. by rewrite (split_no_separator _ _ Hs). Qed.

Module GeneratorProps.
Import Generator.

Lemma add_project_batches (b : batches) (p : project) :
  preSQL (add_project b p) = preSQL b ++ pre_of p
  /\ postSQL (add_project b p) = postSQL b ++ post_of p
  /\ postUpdateSQL (add_project b p) = postUpdateSQL b ++ post_update_of p.
Proof.
  unfold add_project, pre_of, post_of, post_update_of.
  destruct (compare (project_database p)); simpl;
    rewrite <- ?app_assoc, ?app_nil_r; done.
Qed.

Lemma fold_add_project (projects : registry) (b : batches) :
  preSQL (fold_left add_project projects b) = preSQL b ++ mjoin (pre_of <$> projects)
  /\ postSQL (fold_left add_project projects b) = postSQL b ++ mjoin (post_of <$> projects)
  /\ postUpdateSQL (fold_left add_project projects b)
     = postUpdateSQL b ++ mjoin (post_update_of <$> projects).
Proof.
  revert b. induction projects as [|p projects IH]; intros b.
  - simpl. by rewrite !app_nil_r.
  - cbn [fold_left]. destruct (IH (add_project b p)) as (-> & -> & ->).
    destruct (add_project_batches b p) as (-> & -> & ->).
    csimpl. by rewrite <- !app_assoc.
Qed.

Lemma generate_batches (projects : registry) :
  preSQL (generate projects) = mjoin (pre_of <$> projects)
  /\ postSQL (generate projects) = mjoin (post_of <$> projects)
  /\ postUpdateSQL (generate projects) = mjoin (post_update_of <$> projects).
Proof. unfold generate. by destruct (fold_add_project projects no_batches) as (-> & -> & ->). Qed.

Lemma Forall_mjoin {A B : Type} (P : B -> Prop) (f : A -> list B) (l : list A) :
  (forall a, Forall P (f a)) -> Forall P (mjoin (f <$> l)).
Proof.
  intros H. induction l as [|a l IH]; csimpl; [constructor|].
  apply Forall_app. by split.
Qed.

(** C7. For a project whose identifier ends, after its last underscore, in
    [s], and whose geometry types are point and line, the statement that
    creates the view [project_s] is one of the post batch: a [UNION ALL] that
    selects from [project_s_point], the id being ['node/' osm_id], and from
    [project_s_line], the id being ['relation/' -osm_id] when [osm_id] is
    negative and ['way/' osm_id] otherwise. *)
Theorem unified_view_point_line (projects : registry) (p : project) (pre s : string) :
  In p projects ->
  project_id p = pre +:+ "_" +:+ s ->
  has_char "_" s = false ->
  imposm_types (project_database p) = ["point"; "line"] ->
  In ("CREATE OR REPLACE VIEW project_" +:+ s +:+ " AS "
      +:+ "SELECT CONCAT('node/', osm_id) AS osm_id, name, hstore_to_json(tags) AS tags, "
      +:+ "tags ?| ARRAY['note','fixme'] AS needs_check, "
      +:+ "geom::GEOMETRY(Point, 3857) FROM project_" +:+ s +:+ "_point"
      +:+ " UNION ALL "
      +:+ "SELECT CASE WHEN osm_id < 0 THEN CONCAT('relation/', -osm_id) "
      +:+ "ELSE CONCAT('way/', osm_id) END AS osm_id, name, hstore_to_json(tags) AS tags, "
      +:+ "tags ?| ARRAY['note','fixme'] AS needs_check, "
      +:+ "ST_PointOnSurface(geom)::GEOMETRY(Point, 3857) AS geom FROM project_"
      +:+ s +:+ "_line")
     (postSQL (generate projects)).
Proof.
  intros Hin Hid Hs Htypes.
  destruct (generate_batches projects) as (_ & -> & _).
  apply list_elem_of_In, list_elem_of_join. exists (post_of p). split.
  2: { by apply list_elem_of_fmap_2, list_elem_of_In. }
  unfold post_of. apply elem_of_app. left. apply list_elem_of_singleton.
  rewrite Htypes. unfold view_sql, view_select, osmid, view_geom.
  rewrite Hid, (suffix_after_underscore pre s Hs).
  cbn [map List.map String.concat String.eqb Ascii.eqb Bool.eqb].
  text_equal.
Qed.

Lemma unified_view_point_line_witness :
  In ("CREATE OR REPLACE VIEW project_" +:+ "foo" +:+ " AS "
      +:+ "SELECT CONCAT('node/', osm_id) AS osm_id, name, hstore_to_json(tags) AS tags, "
      +:+ "tags ?| ARRAY['note','fixme'] AS needs_check, "
      +:+ "geom::GEOMETRY(Point, 3857) FROM project_" +:+ "foo" +:+ "_point"
      +:+ " UNION ALL "
      +:+ "SELECT CASE WHEN osm_id < 0 THEN CONCAT('relation/', -osm_id) "
      +:+ "ELSE CONCAT('way/', osm_id) END AS osm_id, name, hstore_to_json(tags) AS tags, "
      +:+ "tags ?| ARRAY['note','fixme'] AS needs_check, "
      +:+ "ST_PointOnSurface(geom)::GEOMETRY(Point, 3857) AS geom FROM project_"
      +:+ "foo" +:+ "_line")
     (postSQL (generate [demo_foo])).
Proof.
  apply (unified_view_point_line [demo_foo] demo_foo "demo" "foo").
  - by left.
  - reflexivity.
  - reflexivity.
  - reflexivity.
Defined.

Example unified_view_demo_foo :
  postSQL (generate [demo_foo])
  = ["CREATE OR REPLACE VIEW project_foo AS SELECT CONCAT('node/', osm_id) AS osm_id, name, hstore_to_json(tags) AS tags, tags ?| ARRAY['note','fixme'] AS needs_check, geom::GEOMETRY(Point, 3857) FROM project_foo_point UNION ALL SELECT CASE WHEN osm_id < 0 THEN CONCAT('relation/', -osm_id) ELSE CONCAT('way/', osm_id) END AS osm_id, name, hstore_to_json(tags) AS tags, tags ?| ARRAY['note','fixme'] AS needs_check, ST_PointOnSurface(geom)::GEOMETRY(Point, 3857) AS geom FROM project_foo_line"].
Proof. reflexivity. Qed.

(** The line of a batch in the script holds one [psql] command per
    statement, whether the batch is empty or not. *)
Lemma sqlFull_lines (CONFIG : config) (sql : list string) :
  sqlFull CONFIG sql = String.concat (nl +:+ tab) (map (psql CONFIG) sql).
Proof. unfold sqlFull, sqlToFull. by destruct sql. Qed.

Lemma render_script (CONFIG : config) (b : batches) :
  render (script_program CONFIG b) = script CONFIG b.
Proof.
  unfold render, script, unlines, script_program. rewrite !sqlFull_lines.
  cbn [map concat render_stmt render_item render_word app List.map].
  set (pre := String.concat _ (map (psql CONFIG) (preSQL b))).
  set (post := String.concat _ (map (psql CONFIG) (postSQL b))).
  set (upd := String.concat _ (map (psql CONFIG) (postUpdateSQL b))).
  unfold separator, quoted, tab, nl, dq.
  cbn [String.concat].
  text_equal.
Qed.

Lemma batch_commands_app (t1 t2 : list ran) :
  batch_commands (t1 ++ t2) = batch_commands t1 ++ batch_commands t2.
Proof. apply List.filter_app. Qed.

Lemma batch_commands_batch (which : batch_name) (commands : list string) :
  batch_commands (map (fun c => (Some which, c)) commands)
  = map (fun c => (Some which, c)) commands.
Proof. induction commands as [|c commands IH]; simpl; [done|]. by rewrite IH. Qed.

Ltac batch_trace :=
  rewrite !batch_commands_app, ?batch_commands_batch;
  cbn [batch_commands List.filter fst app];
  rewrite ?app_nil_r, ?map_map;
  reflexivity.

(** The batch commands of a run of the script, by the mode: each one is the
    [psql] command of a statement, in the order of the batch. *)
Lemma run_batches (CONFIG : config) (b : batches) (arg1 : string) :
  batch_commands (run (script_program CONFIG b) arg1)
  = if String.eqb (mode_of arg1) "init"
    then map (fun vs => (Some Pre,
                         "psql " +:+ quoted (PSQL_DB CONFIG) +:+ " -c " +:+ quoted vs))
           (preSQL b)
         ++ map (fun vs => (Some Post,
                            "psql " +:+ quoted (PSQL_DB CONFIG) +:+ " -c " +:+ quoted vs))
              (postSQL b)
    else map (fun vs => (Some PostUpdate,
                         "psql " +:+ quoted (PSQL_DB CONFIG) +:+ " -c " +:+ quoted vs))
           (postUpdateSQL b).
Proof.
  unfold run, script_program, mode_of.
  cbn [fold_left run_stmt run_item eval_word expand fst snd].
  rewrite String.eqb_refl.
  destruct (String.eqb arg1 EmptyString) eqn:E1.
  - cbn [fold_left run_stmt run_item eval_word expand fst snd
           String.eqb Ascii.eqb Bool.eqb].
    batch_trace.
  - cbn [fold_left run_stmt run_item eval_word expand fst snd].
    rewrite String.eqb_refl.
    destruct (String.eqb arg1 "init") eqn:E2.
    + cbn [fold_left run_stmt run_item eval_word expand fst snd].
      batch_trace.
    + cbn [fold_left run_stmt run_item eval_word expand fst snd].
      batch_trace.
Qed.

(** The statements of a project are in the batches. *)
Lemma In_batch (f : project -> list string) (projects : registry) (p : project)
    (x : string) :
  In p projects -> In x (f p) -> In x (mjoin (f <$> projects)).
Proof.
  intros Hp Hx. apply list_elem_of_In, list_elem_of_join. exists (f p).
  split; [by apply list_elem_of_In|]. by apply list_elem_of_fmap_2, list_elem_of_In.
Qed.

Lemma pre_of_drops (p : project) :
  Forall (fun s => String.prefix "DROP VIEW " s = true
                   \/ String.prefix "DROP MATERIALIZED VIEW " s = true) (pre_of p).
Proof.
  unfold pre_of. destruct (compare (project_database p)); simpl;
    repeat (apply Forall_cons_2 || apply Forall_nil_2);
    first [by left | by right].
Qed.

Lemma post_of_creates (p : project) :
  Forall (fun s => String.prefix "CREATE OR REPLACE VIEW " s = true
                   \/ String.prefix "CREATE MATERIALIZED VIEW " s = true
                   \/ String.prefix "CREATE INDEX " s = true) (post_of p).
Proof.
  unfold post_of. destruct (compare (project_database p)); simpl;
    repeat (apply Forall_cons_2 || apply Forall_nil_2);
    first [by left | by right; left | by right; right].
Qed.

Lemma post_update_of_refreshes (p : project) :
  Forall (fun s => String.prefix "REFRESH MATERIALIZED VIEW " s = true) (post_update_of p).
Proof.
  unfold post_update_of. destruct (compare (project_database p));
    repeat (apply Forall_cons_2 || apply Forall_nil_2); done.
Qed.

(** C8. For every registry the generator builds three batches. Every
    statement of [pre] drops a view or a materialized view, every statement of
    [post] creates a view, a materialized view or an index, every statement of
    [post-update] refreshes a materialized view; the batches hold, project
    after project, the statements of each project and nothing else: for every
    project the [DROP VIEW] and the [CREATE OR REPLACE VIEW] of its view, and
    for a project with a comparison the two other drops, the comparison view,
    the materialized view, its index and its refresh. The script the
    generator writes is the text of the program [script_program], where the
    line of each batch holds one [psql] command for each statement of the
    batch; run in mode init, the script executes the [psql] commands of the
    statements of [pre], then of [post], and no other batch command; run in
    any other mode it executes those of [post-update] and no other, the mode
    being update when the script gets no argument. *)
Theorem batches_and_script_modes (CONFIG : config) (projects : registry) :
  Forall (fun s => String.prefix "DROP VIEW " s = true
                   \/ String.prefix "DROP MATERIALIZED VIEW " s = true)
    (preSQL (generate projects))
  /\ Forall (fun s => String.prefix "CREATE OR REPLACE VIEW " s = true
                      \/ String.prefix "CREATE MATERIALIZED VIEW " s = true
                      \/ String.prefix "CREATE INDEX " s = true)
       (postSQL (generate projects))
  /\ Forall (fun s => String.prefix "REFRESH MATERIALIZED VIEW " s = true)
       (postUpdateSQL (generate projects))
  /\ preSQL (generate projects) = mjoin (pre_of <$> projects)
  /\ postSQL (generate projects) = mjoin (post_of <$> projects)
  /\ postUpdateSQL (generate projects) = mjoin (post_update_of <$> projects)
  /\ (forall p, In p projects ->
        In ("DROP VIEW IF EXISTS project_" +:+ suffix (project_id p) +:+ " CASCADE")
          (preSQL (generate projects))
        /\ In ("CREATE OR REPLACE VIEW project_" +:+ suffix (project_id p) +:+ " AS "
               +:+ String.concat " UNION ALL "
                     (map (view_select (project_id p))
                        (imposm_types (project_database p))))
             (postSQL (generate projects))
        /\ forall c, compare (project_database p) = Some c ->
             In ("DROP VIEW IF EXISTS project_" +:+ suffix (project_id p)
                 +:+ "_compare CASCADE")
               (preSQL (generate projects))
             /\ In ("DROP MATERIALIZED VIEW IF EXISTS project_"
                    +:+ suffix (project_id p) +:+ "_compare_tiles")
                  (preSQL (generate projects))
             /\ In ("CREATE OR REPLACE VIEW project_" +:+ suffix (project_id p)
                    +:+ "_compare AS "
                    +:+ String.concat " UNION ALL "
                          (map (compare_select (project_id p)) (compare_types c)))
                  (postSQL (generate projects))
             /\ In (compare_tiles_sql (project_id p) (radius c))
                  (postSQL (generate projects))
             /\ In ("CREATE INDEX project_" +:+ suffix (project_id p)
                    +:+ "_compare_tiles_geom_idx ON project_" +:+ suffix (project_id p)
                    +:+ "_compare_tiles USING GIST(geom)")
                  (postSQL (generate projects))
             /\ In ("REFRESH MATERIALIZED VIEW project_" +:+ suffix (project_id p)
                    +:+ "_compare_tiles")
                  (postUpdateSQL (generate projects)))
  /\ script CONFIG (generate projects)
     = render (script_program CONFIG (generate projects))
  /\ (forall (indent : string) (which : batch_name) (commands : list string),
        render_item indent (Batch which commands)
        = indent +:+ String.concat (nl +:+ indent) commands)
  /\ mode_of EmptyString = "update"
  /\ forall arg1 : string,
       batch_commands (run (script_program CONFIG (generate projects)) arg1)
       = if String.eqb (mode_of arg1) "init"
         then map (fun vs => (Some Pre,
                              "psql " +:+ quoted (PSQL_DB CONFIG) +:+ " -c "
                              +:+ quoted vs))
                (preSQL (generate projects))
              ++ map (fun vs => (Some Post,
                                 "psql " +:+ quoted (PSQL_DB CONFIG) +:+ " -c "
                                 +:+ quoted vs))
                   (postSQL (generate projects))
         else map (fun vs => (Some PostUpdate,
                              "psql " +:+ quoted (PSQL_DB CONFIG) +:+ " -c "
                              +:+ quoted vs))
                (postUpdateSQL (generate projects)).
Proof.
  destruct (generate_batches projects) as (Epre & Epost & Eupd).
  split; [|split; [|split; [|split; [|split; [|split; [|split]]]]]].
  - rewrite Epre. apply Forall_mjoin, pre_of_drops.
  - rewrite Epost. apply Forall_mjoin, post_of_creates.
  - rewrite Eupd. apply Forall_mjoin, post_update_of_refreshes.
  - done.
  - done.
  - done.
  - intros p Hp. rewrite Epre, Epost, Eupd. split; [|split].
    + apply (In_batch pre_of _ p _ Hp). unfold pre_of. simpl. by left.
    + apply (In_batch post_of _ p _ Hp). unfold post_of. simpl. by left.
    + intros c Hc.
      split; [|split; [|split; [|split; [|split]]]].
      * apply (In_batch pre_of _ p _ Hp). unfold pre_of. rewrite Hc. simpl. tauto.
      * apply (In_batch pre_of _ p _ Hp). unfold pre_of. rewrite Hc. simpl. tauto.
      * apply (In_batch post_of _ p _ Hp). unfold post_of. rewrite Hc. simpl. tauto.
      * apply (In_batch post_of _ p _ Hp). unfold post_of. rewrite Hc. simpl. tauto.
      * apply (In_batch post_of _ p _ Hp). unfold post_of. rewrite Hc. simpl. tauto.
      * apply (In_batch post_update_of _ p _ Hp). unfold post_update_of. rewrite Hc.
        simpl. tauto.
  - split; [|split; [|split]].
    + symmetry. apply render_script.
    + reflexivity.
    + reflexivity.
    + apply run_batches.
Qed.

End GeneratorProps.

(** * Further properties *)

(** ** The contribution route *)

Lemma accepted_guards (filterProjects : registry -> filtered) (projects : registry)
    (req : request) (username type : string) :
  accepted filterProjects projects req username type ->
  project_not_active projects (filterProjects projects) (params_id req) = false
  /\ user_not_valid (params_userid req) (query_username req) = false
  /\ type_not_valid (query_type req) = false.
Proof.
  intros ((c & Hc & Hin & Hid) & Hne & Hdig & Hname & Htrim & Htype & Hin').
  split; [|split].
  - unfold project_not_active, registry_has, Js.falsy_string. rewrite Hc, Hid.
    destruct (String.eqb_spec (params_id req) EmptyString); [done|].
    destruct (registry_get projects (params_id req)) eqn:E.
    + by rewrite String.eqb_refl.
    + exfalso. apply (registry_get_In projects c Hin). by rewrite Hid.
  - unfold user_not_valid, Js.falsy_string. rewrite Hname, Hdig.
    destruct (String.eqb_spec (params_userid req) EmptyString) as [E|E].
    { rewrite E in Hdig. done. }
    destruct (Js.trim username); [done | done].
  - unfold type_not_valid, Js.falsy_string. rewrite Htype.
    simpl in Hin'. destruct Hin' as [<-|[<-|[<-|[]]]]; done.
Qed.

(** What a query does when the database accepts it. *)
Lemma pool_query_ok (get_badges : db -> string -> string -> list badge)
    (get_points : string -> string -> Z) (current_timestamp : db -> Z)
    (rejects : db -> query -> bool) (q : query) (d : db) :
  rejects d q = false ->
  pool_query get_badges get_points current_timestamp rejects q d
  = run_query get_badges get_points current_timestamp q d.
Proof. intros R. unfold pool_query. rewrite R. by destruct q. Qed.

Lemma pool_query_rejected (get_badges : db -> string -> string -> list badge)
    (get_points : string -> string -> Z) (current_timestamp : db -> Z)
    (rejects : db -> query -> bool) (q : query) (d : db) :
  rejects d q = true ->
  pool_query get_badges get_points current_timestamp rejects q d
  = (Rejected UpstreamError, d).
Proof. intros R. unfold pool_query. by rewrite R. Qed.

(** X1. A contribution that passes the guards, when the database rejects no
    query, issues four queries in order (the name, the badges, the
    insertion, the badges again), leaves the name recorded and exactly one
    more contribution, not verified, and answers with the badges to display
    between the two readings, the second one taken after the insertion. *)
Theorem contribute_records
    (filterProjects : registry -> filtered)
    (get_badges : db -> string -> string -> list badge)
    (get_points : string -> string -> Z)
    (current_timestamp : db -> Z)
    (projects : registry) (req : request) (d : db) (username type : string) :
  accepted filterProjects projects req username type ->
  contribute filterProjects get_badges get_points current_timestamp (fun _ _ => false)
    projects req d
  = (Send [("badges",
            Js.VArr
              (map badge_value
                 (badgesForDisplay
                    (get_badges (with_user_name d (params_userid req) username)
                       (params_id req) (params_userid req))
                    (get_badges
                       (with_contribution get_points current_timestamp
                          (with_user_name d (params_userid req) username)
                          (params_id req) (params_userid req) type)
                       (params_id req) (params_userid req)))))],
     with_contribution get_points current_timestamp
       (with_user_name d (params_userid req) username)
       (params_id req) (params_userid req) type,
     [UpsertUserName (params_userid req) username;
      SelectBadges (params_id req) (params_userid req);
      InsertContribution (params_id req) (params_userid req) type;
      SelectBadges (params_id req) (params_userid req)]).
Proof.
  intros Hacc. destruct (accepted_guards _ _ _ _ _ Hacc) as (G1 & G2 & G3).
  destruct Hacc as (_ & _ & _ & Hname & _ & Htype & _).
  unfold contribute. rewrite G1, G2, G3, Hname, Htype. reflexivity.
Qed.

Lemma contribute_records_witness :
  contribute (filterProjects_at 15) (fun _ _ _ => three_badges) (fun _ _ => 1) (fun _ => 0)
    (fun _ _ => false) running_campaign good_request empty_db
  = (Send [("badges",
            Js.VArr
              (map badge_value
                 (badgesForDisplay
                    (three_badges)
                    (three_badges))))],
     with_contribution (fun _ _ => 1) (fun _ => 0)
       (with_user_name empty_db "12" "Alice") "2020-05_demo" "12" "edit",
     [UpsertUserName "12" "Alice";
      SelectBadges "2020-05_demo" "12";
      InsertContribution "2020-05_demo" "12" "edit";
      SelectBadges "2020-05_demo" "12"]).
Proof.
  apply (contribute_records (filterProjects_at 15) (fun _ _ _ => three_badges)
           (fun _ _ => 1) (fun _ => 0) running_campaign good_request empty_db
           "Alice" "edit").
  unfold accepted. split; [|repeat split; try done].
  - eexists. split; [reflexivity|]. split; [by left | reflexivity].
  - simpl. tauto.
Defined.

(** X2. Whatever the request and whatever the database rejects, the route
    never changes or removes a contribution and never touches the name of
    another user: afterwards the contributions are the old ones, or the old
    ones and one more row, not verified, for the project and the user of the
    request; the names are the old ones, or the old ones with the name of the
    user of the request recorded. *)
Theorem contribute_appends_only
    (filterProjects : registry -> filtered)
    (get_badges : db -> string -> string -> list badge)
    (get_points : string -> string -> Z)
    (current_timestamp : db -> Z)
    (rejects : db -> query -> bool)
    (projects : registry) (req : request) (d : db) :
  (user_contributions
     (contribute filterProjects get_badges get_points current_timestamp rejects
        projects req d).1.2
   = user_contributions d
   \/ exists row,
        user_contributions
          (contribute filterProjects get_badges get_points current_timestamp rejects
             projects req d).1.2
        = user_contributions d ++ [row]
        /\ c_verified row = false
        /\ c_project row = params_id req
        /\ c_userid row = params_userid req)
  /\ (user_names
        (contribute filterProjects get_badges get_points current_timestamp rejects
           projects req d).1.2
      = user_names d
      \/ exists username,
           query_username req = QString username
           /\ user_names
                (contribute filterProjects get_badges get_points current_timestamp rejects
                   projects req d).1.2
              = upsert_user_name (user_names d) (params_userid req) username).
Proof.
  unfold contribute.
  destruct (project_not_active _ _ _); [by split; left|].
  destruct (user_not_valid _ _) eqn:Eu; [by split; left|].
  destruct (type_not_valid _); [by split; left|].
  assert (exists username, query_username req = QString username) as [username Hn].
  { unfold user_not_valid in Eu. apply orb_false_iff in Eu as [_ Eu].
    destruct (query_username req); try done. eauto. }
  rewrite Hn. unfold pool_query. simpl text_of.
  repeat (match goal with
          | |- context [if rejects ?d ?q then _ else _] => destruct (rejects d q)
          end; simpl);
    (split; [first [by left | right; eexists; by repeat split]
            | first [by left | right; exists username; by split]]).
Qed.

(** X3. The route answers with the 400 redirect only to a request that one
    of the guards stops: the project is not the current one of the registry,
    the user id is not made of digits, the username is not a string that is
    non-empty once trimmed, or the type is not add, edit or delete. A failure
    of the database is never reported as a client error. *)
Theorem contribute_400_only_if_invalid
    (filterProjects : registry -> filtered)
    (get_badges : db -> string -> string -> list badge)
    (get_points : string -> string -> Z)
    (current_timestamp : db -> Z)
    (rejects : db -> query -> bool)
    (projects : registry) (req : request) (d : db) :
  (contribute filterProjects get_badges get_points current_timestamp rejects
     projects req d).1.1 = Redirect "/error/400" ->
  params_id req = EmptyString
  \/ registry_has projects (params_id req) = false
  \/ (forall c, current (filterProjects projects) = Some c ->
                project_id c <> params_id req)
  \/ Js.test_digits (params_userid req) = false
  \/ (forall s, query_username req = QString s -> Js.trim s = EmptyString)
  \/ ~ In (query_type req) [QString "add"; QString "edit"; QString "delete"].
Proof.
  unfold contribute.
  destruct (project_not_active _ _ _) eqn:Ep.
  { intros _. unfold project_not_active in Ep.
    apply orb_true_iff in Ep as [[Ep|Ep]%orb_true_iff|Ep].
    - left. by apply String.eqb_eq.
    - right; left. by apply negb_true_iff.
    - right; right; left. intros c Hc. rewrite Hc in Ep.
      by apply negb_true_iff, String.eqb_neq in Ep. }
  destruct (user_not_valid _ _) eqn:Eu.
  { intros _. unfold user_not_valid in Eu.
    apply orb_true_iff in Eu as [[Eu|Eu]%orb_true_iff|Eu].
    - right; right; right; left. apply String.eqb_eq in Eu. by rewrite Eu.
    - right; right; right; left. by apply negb_true_iff.
    - right; right; right; right; left. intros s Hs. rewrite Hs in Eu.
      by apply trim_length_0. }
  destruct (type_not_valid _) eqn:Et.
  { intros _. do 5 right. intros Hin. simpl in Hin.
    destruct Hin as [H|[H|[H|[]]]]; rewrite <- H in Et; done. }
  unfold pool_query.
  repeat (match goal with
          | |- context [if rejects ?d ?q then _ else _] => destruct (rejects d q)
          end; simpl); done.
Qed.

Lemma contribute_400_only_if_invalid_witness :
  "2020-05_demo" = EmptyString
  \/ registry_has running_campaign "2020-05_demo" = false
  \/ (forall c, current (filterProjects_at 15 running_campaign) = Some c ->
                project_id c <> "2020-05_demo")
  \/ Js.test_digits "12a" = false
  \/ (forall s, QString "Alice" = QString s -> Js.trim s = EmptyString)
  \/ ~ In (QString "add") [QString "add"; QString "edit"; QString "delete"].
Proof.
  apply (contribute_400_only_if_invalid (filterProjects_at 15) (fun _ _ _ => [])
           (fun _ _ => 1) (fun _ => 0) (fun _ _ => false) running_campaign
           bad_userid empty_db).
  reflexivity.
Defined.

(** X4. No step is undone when a later one fails: when the database accepts
    the name and the first reading of the badges but rejects the insertion,
    the answer is the 500 redirect, no contribution is added and the name
    stays recorded. *)
Theorem contribute_insert_rejected
    (filterProjects : registry -> filtered)
    (get_badges : db -> string -> string -> list badge)
    (get_points : string -> string -> Z)
    (current_timestamp : db -> Z)
    (rejects : db -> query -> bool)
    (projects : registry) (req : request) (d : db) (username type : string) :
  accepted filterProjects projects req username type ->
  rejects d (UpsertUserName (params_userid req) username) = false ->
  rejects (with_user_name d (params_userid req) username)
    (SelectBadges (params_id req) (params_userid req)) = false ->
  rejects (with_user_name d (params_userid req) username)
    (InsertContribution (params_id req) (params_userid req) type) = true ->
  (contribute filterProjects get_badges get_points current_timestamp rejects
     projects req d).1
  = (Redirect "/error/500", with_user_name d (params_userid req) username).
Proof.
  intros Hacc R1 R2 R3. destruct (accepted_guards _ _ _ _ _ Hacc) as (G1 & G2 & G3).
  destruct Hacc as (_ & _ & _ & Hname & _ & Htype & _).
  unfold contribute. rewrite G1, G2, G3, Hname, Htype. simpl text_of. cbv zeta.
  rewrite (pool_query_ok _ _ _ _ _ _ R1). cbn [run_query].
  rewrite (pool_query_ok _ _ _ _ _ _ R2). cbn [run_query].
  by rewrite (pool_query_rejected _ _ _ _ _ _ R3).
Qed.

Lemma contribute_insert_rejected_witness :
  (contribute (filterProjects_at 15) (fun _ _ _ => three_badges) (fun _ _ => 1)
     (fun _ => 0) rejects_insert running_campaign good_request empty_db).1
  = (Redirect "/error/500", with_user_name empty_db "12" "Alice").
Proof.
  apply (contribute_insert_rejected (filterProjects_at 15) (fun _ _ _ => three_badges)
           (fun _ _ => 1) (fun _ => 0) rejects_insert running_campaign
           good_request empty_db "Alice" "edit").
  - unfold accepted. split; [|repeat split; try done].
    + eexists. split; [reflexivity|]. split; [by left | reflexivity].
    + simpl. tauto.
  - reflexivity.
  - reflexivity.
  - reflexivity.
Defined.

(** X5. When the database rejects only the second reading of the badges,
    the answer is the 500 redirect although the contribution is inserted:
    the client is told of a failure and the row is there. *)
Theorem contribute_second_reading_rejected
    (filterProjects : registry -> filtered)
    (get_badges : db -> string -> string -> list badge)
    (get_points : string -> string -> Z)
    (current_timestamp : db -> Z)
    (rejects : db -> query -> bool)
    (projects : registry) (req : request) (d : db) (username type : string) :
  accepted filterProjects projects req username type ->
  rejects d (UpsertUserName (params_userid req) username) = false ->
  rejects (with_user_name d (params_userid req) username)
    (SelectBadges (params_id req) (params_userid req)) = false ->
  rejects (with_user_name d (params_userid req) username)
    (InsertContribution (params_id req) (params_userid req) type) = false ->
  rejects
    (with_contribution get_points current_timestamp
       (with_user_name d (params_userid req) username)
       (params_id req) (params_userid req) type)
    (SelectBadges (params_id req) (params_userid req)) = true ->
  (contribute filterProjects get_badges get_points current_timestamp rejects
     projects req d).1
  = (Redirect "/error/500",
     with_contribution get_points current_timestamp
       (with_user_name d (params_userid req) username)
       (params_id req) (params_userid req) type).
Proof.
  intros Hacc R1 R2 R3 R4. destruct (accepted_guards _ _ _ _ _ Hacc) as (G1 & G2 & G3).
  destruct Hacc as (_ & _ & _ & Hname & _ & Htype & _).
  unfold contribute. rewrite G1, G2, G3, Hname, Htype. simpl text_of. cbv zeta.
  rewrite (pool_query_ok _ _ _ _ _ _ R1). cbn [run_query].
  rewrite (pool_query_ok _ _ _ _ _ _ R2). cbn [run_query].
  rewrite (pool_query_ok _ _ _ _ _ _ R3). cbn [run_query].
  by rewrite (pool_query_rejected _ _ _ _ _ _ R4).
Qed.

Lemma contribute_second_reading_rejected_witness :
  (contribute (filterProjects_at 15) (fun _ _ _ => three_badges) (fun _ _ => 1)
     (fun _ => 0) rejects_second_reading running_campaign good_request empty_db).1
  = (Redirect "/error/500",
     with_contribution (fun _ _ => 1) (fun _ => 0)
       (with_user_name empty_db "12" "Alice") "2020-05_demo" "12" "edit").
Proof.
  apply (contribute_second_reading_rejected (filterProjects_at 15)
           (fun _ _ _ => three_badges) (fun _ _ => 1) (fun _ => 0)
           rejects_second_reading running_campaign good_request empty_db "Alice" "edit").
  - unfold accepted. split; [|repeat split; try done].
    + eexists. split; [reflexivity|]. split; [by left | reflexivity].
    + simpl. tauto.
  - reflexivity.
  - reflexivity.
  - reflexivity.
  - reflexivity.
Defined.


(** ** The table of the user names *)

Lemma upsert_own_eq (rows : list (string * string)) (userid username : string) :
  own (upsert_user_name rows userid username) userid = Some username.
Proof.
  induction rows as [|[u n] rows IH]; simpl.
  - by rewrite String.eqb_refl.
  - destruct (String.eqb u userid) eqn:E; simpl; rewrite E; [done | apply IH].
Qed.

Lemma upsert_own_ne (rows : list (string * string)) (userid username u : string) :
  u <> userid -> own (upsert_user_name rows userid username) u = own rows u.
Proof.
  intros Hne. induction rows as [|[u0 n0] rows IH]; simpl.
  - by destruct (String.eqb_spec userid u).
  - destruct (String.eqb_spec u0 userid) as [->|]; simpl.
    + by destruct (String.eqb_spec userid u).
    + by rewrite IH.
Qed.

Lemma upsert_keys (rows : list (string * string)) (userid username : string) :
  map fst (upsert_user_name rows userid username)
  = match own rows userid with
    | Some _ => map fst rows
    | None => map fst rows ++ [userid]
    end.
Proof.
  induction rows as [|[u n] rows IH]; simpl; [done|].
  destruct (String.eqb u userid); simpl; [done|].
  rewrite IH. by destruct (own rows userid).
Qed.

Lemma own_None_keys {V : Type} (o : list (string * V)) (k : string) :
  own o k = None -> k ∉ map fst o.
Proof.
  induction o as [|[k' v] o IH]; simpl; [by intros _ ?%elem_of_nil|].
  destruct (String.eqb_spec k' k); [done|]. intros H Hin.
  apply elem_of_cons in Hin as [->|Hin]; [done | by apply IH].
Qed.

Lemma upsert_idempotent (rows : list (string * string)) (userid username : string) :
  upsert_user_name (upsert_user_name rows userid username) userid username
  = upsert_user_name rows userid username.
Proof.
  induction rows as [|[u n] rows IH]; simpl.
  - by rewrite String.eqb_refl.
  - destruct (String.eqb u userid) eqn:E; simpl; rewrite E; [done | by rewrite IH].
Qed.

(** X6. Recording a name makes it the name read for that user, leaves the
    name read for every other user as it was, keeps the user ids distinct,
    adds at most one row (none when the user has one), and recording the same
    name twice is the same as recording it once. *)
Theorem upsert_user_name_reads (rows : list (string * string)) (userid username : string) :
  own (upsert_user_name rows userid username) userid = Some username
  /\ (forall u, u <> userid -> own (upsert_user_name rows userid username) u = own rows u)
  /\ (NoDup (map fst rows) -> NoDup (map fst (upsert_user_name rows userid username)))
  /\ length (upsert_user_name rows userid username)
     = match own rows userid with
       | Some _ => length rows
       | None => S (length rows)
       end
  /\ upsert_user_name (upsert_user_name rows userid username) userid username
     = upsert_user_name rows userid username.
Proof.
  split; [apply upsert_own_eq|]. split; [intros u; apply upsert_own_ne|].
  split; [|split; [|apply upsert_idempotent]].
  - intros Hnd. rewrite upsert_keys. destruct (own rows userid) eqn:E; [done|].
    apply NoDup_app. split; [done|]. split; [|apply NoDup_singleton].
    intros x Hx ->%list_elem_of_singleton. by apply (own_None_keys _ _ E).
  - rewrite <- (length_map fst), upsert_keys.
    destruct (own rows userid); rewrite ?length_app, length_map; simpl; lia.
Qed.

(** ** The badges of an unchanged snapshot *)

Lemma badgeInBefore_self (l : list badge) (b : badge) :
  NoDup (map badge_id l) -> In b l -> badgeInBefore l b = Some b.
Proof.
  unfold badgeInBefore. induction l as [|x l IH]; simpl; [done|].
  intros [Hx Hnd]%NoDup_cons [->|Hin].
  - by rewrite String.eqb_refl.
  - destruct (String.eqb_spec (badge_id b) (badge_id x)) as [E|_]; [|by apply IH].
    exfalso. apply Hx. rewrite <- E. apply list_elem_of_fmap_2. by apply list_elem_of_In.
Qed.

(** X7. When the two readings of the badges are the same, with one row per
    badge and flags, tiers or texts as [acquired], the badges returned are
    the badges that are not acquired, all of them: an acquired badge is
    returned only when it changed. *)
Theorem badges_of_unchanged_snapshot (l : list badge) :
  NoDup (map badge_id l) ->
  Forall (fun b => Js.primitive (acquired b) = true) l ->
  badgesForDisplay l l = List.filter (fun b => negb (Js.truthy (acquired b))) l.
Proof.
  intros Hnd Hprim. unfold badgesForDisplay. apply filter_ext_in.
  intros b Hb. unfold badge_displayed. rewrite (badgeInBefore_self l b Hnd Hb).
  rewrite Forall_forall in Hprim.
  assert (Js.strict_eq (acquired b) (acquired b) = true) as ->.
  { apply strict_eq_primitive; [|done]. apply Hprim. by apply list_elem_of_In. }
  by rewrite orb_false_r.
Qed.

Lemma badges_of_unchanged_snapshot_witness :
  badgesForDisplay three_badges three_badges
  = List.filter (fun b => negb (Js.truthy (acquired b))) three_badges.
Proof.
  apply badges_of_unchanged_snapshot.
  - compute_done.
  - repeat constructor.
Defined.

(** ** The user page *)

Lemma select_userid_upsert (rows : list (string * string)) (userid username : string) :
  NoDup (map fst rows) ->
  (forall u, In (u, username) rows -> u = userid) ->
  map fst (List.filter (fun row => String.eqb row.2 username)
             (upsert_user_name rows userid username))
  = [userid].
Proof.
  induction rows as [|[u n] rows IH]; simpl; intros Hnd Hothers.
  - by rewrite String.eqb_refl.
  - apply NoDup_cons in Hnd as [Hu Hnd].
    destruct (String.eqb_spec u userid) as [->|Hne]; simpl.
    + rewrite String.eqb_refl. simpl. f_equal.
      assert (List.filter (fun row => String.eqb row.2 username) rows = []) as ->; [|done].
      clear IH. induction rows as [|[u' n'] rows IH]; simpl; [done|].
      simpl in Hu, Hnd. apply NoDup_cons in Hnd as [_ Hnd].
      destruct (String.eqb_spec n' username) as [->|_].
      * exfalso. apply Hu. rewrite (Hothers u'); [by left | right; by left].
      * apply IH; [|done|].
        -- intros Hin. apply Hu. by right.
        -- intros u0 [H|H]; apply Hothers; [by left | right; by right].
    + destruct (String.eqb_spec n username) as [->|_].
      * exfalso. apply Hne. apply Hothers. by left.
      * apply IH; [done|]. intros u0 H. apply Hothers. by right.
Qed.

(** X8. After a contribution that went through, under a name that no
    other user holds, the page of that name is the page of the contributor:
    the route finds the user id of the request and reads the badges of every
    project of the registry and of [meta] for it. *)
Theorem user_page_after_contribution
    (filterProjects : registry -> filtered)
    (get_badges : db -> string -> string -> list badge)
    (get_points : string -> string -> Z)
    (current_timestamp : db -> Z)
    (projects : registry) (req : request) (d : db) (username type : string) :
  accepted filterProjects projects req username type ->
  NoDup (map fst (user_names d)) ->
  (forall u, In (u, username) (user_names d) -> u = params_userid req) ->
  (user_page get_badges (fun _ _ => false) projects username
     (contribute filterProjects get_badges get_points current_timestamp (fun _ _ => false)
        projects req d).1.2).1
  = UserPage username (params_userid req)
      (select_user_badges get_badges projects
         (contribute filterProjects get_badges get_points current_timestamp
            (fun _ _ => false) projects req d).1.2
         (params_userid req)).
Proof.
  intros Hacc Hnd Hothers.
  destruct (accepted_guards _ _ _ _ _ Hacc) as (G1 & G2 & G3).
  destruct Hacc as (_ & _ & _ & Hname & Htrim & Htype & _).
  assert ((contribute filterProjects get_badges get_points current_timestamp
             (fun _ _ => false) projects req d).1.2
          = with_contribution get_points current_timestamp
              (with_user_name d (params_userid req) username)
              (params_id req) (params_userid req) type) as ->.
  { unfold contribute. rewrite G1, G2, G3, Hname, Htype. reflexivity. }
  unfold user_page, Js.falsy_string.
  destruct (String.eqb_spec username EmptyString) as [->|_]; [done|].
  unfold select_userid. cbn [with_contribution with_user_name user_names].
  by rewrite (select_userid_upsert _ _ _ Hnd Hothers).
Qed.

Lemma user_page_after_contribution_witness :
  (user_page (fun _ _ _ => three_badges) (fun _ _ => false) running_campaign "Alice"
     (contribute (filterProjects_at 15) (fun _ _ _ => three_badges) (fun _ _ => 1)
        (fun _ => 0) (fun _ _ => false) running_campaign good_request empty_db).1.2).1
  = UserPage "Alice" "12"
      (select_user_badges (fun _ _ _ => three_badges) running_campaign
         (contribute (filterProjects_at 15) (fun _ _ _ => three_badges) (fun _ _ => 1)
            (fun _ => 0) (fun _ _ => false) running_campaign good_request empty_db).1.2
         "12").
Proof.
  apply (user_page_after_contribution (filterProjects_at 15) (fun _ _ _ => three_badges)
           (fun _ _ => 1) (fun _ => 0) running_campaign good_request empty_db
           "Alice" "edit").
  - unfold accepted. split; [|repeat split; try done].
    + eexists. split; [reflexivity|]. split; [by left | reflexivity].
    + simpl. tauto.
  - constructor.
  - intros u [].
Defined.

Lemma two_in_filter {A : Type} (f : A -> bool) (l : list A) (a b : A) :
  In a l -> In b l -> a <> b -> f a = true -> f b = true ->
  exists x y rest, List.filter f l = x :: y :: rest.
Proof.
  intros Ha Hb Hne Hfa Hfb.
  assert (Ha' : In a (List.filter f l)) by (apply filter_In; by split).
  assert (Hb' : In b (List.filter f l)) by (apply filter_In; by split).
  destruct (List.filter f l) as [|x [|y rest]]; [done| |eauto].
  destruct Ha' as [<-|[]], Hb' as [<-|[]]. done.
Qed.

(** X9. The page of a name is shown only when exactly one user holds it:
    when two users hold the name, or none does, and the first query goes
    through, the answer is the 404 redirect and the badges are not read. *)
Theorem user_page_needs_one_holder
    (get_badges : db -> string -> string -> list badge)
    (rejects : db -> user_query -> bool)
    (projects : registry) (name : string) (d : db) :
  name <> EmptyString ->
  rejects d (SelectUserid name) = false ->
  ((exists u1 u2, u1 <> u2 /\ In (u1, name) (user_names d) /\ In (u2, name) (user_names d))
   \/ (forall u, ~ In (u, name) (user_names d))) ->
  user_page get_badges rejects projects name d
  = (UserRedirect "/error/404", [SelectUserid name]).
Proof.
  intros Hname Hq H. unfold user_page, Js.falsy_string.
  destruct (String.eqb_spec name EmptyString); [done|]. rewrite Hq.
  unfold select_userid. destruct H as [(u1 & u2 & Hne & H1 & H2)|Hnone].
  - assert (Hpair : (u1, name) <> (u2, name)) by congruence.
    destruct (two_in_filter (fun row : string * string => String.eqb row.2 name)
                (user_names d) (u1, name) (u2, name) H1 H2 Hpair
                (String.eqb_refl name) (String.eqb_refl name))
      as (x & y & rest & ->).
    by destruct x, y.
  - assert (List.filter (fun row : string * string => String.eqb row.2 name)
              (user_names d) = []) as ->; [|done].
    induction (user_names d) as [|[u nm] rows IH]; simpl; [done|].
    destruct (String.eqb_spec nm name) as [->|_].
    + exfalso. apply (Hnone u). by left.
    + apply IH. intros u' Hu'. apply (Hnone u'). by right.
Qed.

Lemma user_page_needs_one_holder_witness :
  user_page (fun _ _ _ => three_badges) (fun _ _ => false) running_campaign "Alice" homonyms
  = (UserRedirect "/error/404", [SelectUserid "Alice"]).
Proof.
  apply user_page_needs_one_holder.
  - discriminate.
  - reflexivity.
  - left. exists "12", "14". split; [discriminate|]. split; simpl; tauto.
Defined.
(** ** The error page *)

Lemma digit_facts (c : ascii) :
  Js.is_digit c = true ->
  Js.is_white_space c = false /\ Numeric.is_sign c = false /\ Ascii.eqb c "I" = false.
Proof. destruct c as [[] [] [] [] [] [] [] []]; vm_compute; intros; repeat split; congruence. Qed.

Lemma trim_start_digits (s : string) : Js.all_digits s = true -> Js.trim_start s = s.
Proof.
  destruct s as [|c s]; [done|]. simpl. intros [Hc _]%andb_true_iff.
  by destruct (digit_facts c Hc) as (-> & _).
Qed.

Lemma all_digits_forallb (s : string) :
  Js.all_digits s = forallb Js.is_digit (list_ascii_of_string s).
Proof. induction s as [|c s IH]; simpl; [done|]. by rewrite IH. Qed.

Lemma all_digits_rev (s : string) :
  Js.all_digits s = true -> Js.all_digits (Js.rev_string s) = true.
Proof.
  rewrite !all_digits_forallb. unfold Js.rev_string.
  rewrite list_ascii_of_string_of_list_ascii, !forallb_forall.
  intros H x Hx. apply H. by apply in_rev.
Qed.

Lemma rev_string_involutive (s : string) : Js.rev_string (Js.rev_string s) = s.
Proof.
  unfold Js.rev_string.
  by rewrite list_ascii_of_string_of_list_ascii, rev_involutive,
    string_of_list_ascii_of_string.
Qed.

Lemma trim_digits (s : string) : Js.all_digits s = true -> Js.trim s = s.
Proof.
  intros H. unfold Js.trim.
  rewrite (trim_start_digits s H), (trim_start_digits _ (all_digits_rev s H)).
  apply rev_string_involutive.
Qed.

Lemma skip_all_digits (s : string) :
  Js.all_digits s = true -> Numeric.skip_digits s = EmptyString.
Proof.
  induction s as [|c s IH]; simpl; [done|]. intros [-> H]%andb_true_iff. by apply IH.
Qed.

Lemma digits_numeric (s : string) :
  Js.test_digits s = true -> Numeric.is_numeric s = true.
Proof.
  unfold Js.test_digits. intros [_ Hd]%andb_true_iff.
  unfold Numeric.is_numeric. rewrite (trim_digits s Hd). cbv zeta.
  destruct s as [|c s]; [done|].
  assert (Hc : Js.is_digit c = true).
  { simpl in Hd. by apply andb_true_iff in Hd as [? _]. }
  destruct (digit_facts c Hc) as (_ & Hsign & HI).
  assert (Numeric.decimal (String c s) = true) as ->; [|by rewrite orb_true_r].
  unfold Numeric.decimal. rewrite Hsign. unfold Numeric.unsigned_decimal.
  assert (String.eqb (String c s) "Infinity" = false) as -> by (simpl; by rewrite HI).
  cbn [Numeric.starts_with_digit]. rewrite Hc.
  by rewrite (skip_all_digits _ Hd).
Qed.

(** X10. The error page is rendered with the code of the address whenever
    that code is one or more digits, whatever its value: no range of HTTP
    statuses is checked. *)
Theorem httpcode_digits (code : string) :
  Js.test_digits code = true -> httpcode code = code.
Proof.
  intros H. unfold httpcode, Numeric.isNaN. rewrite (digits_numeric code H).
  unfold Js.test_digits in H. apply andb_true_iff in H as [H _].
  unfold Js.falsy_string. by rewrite (negb_true_iff _) in H; rewrite H.
Qed.

Lemma httpcode_digits_witness : httpcode "99999" = "99999".
Proof. apply httpcode_digits. reflexivity. Defined.

(** X11. The status the error page is rendered with is never empty and is
    always the text of a number: it is the code of the address when that is
    one, and 400 otherwise. *)
Theorem httpcode_numeric (code : string) :
  httpcode code <> EmptyString
  /\ Numeric.is_numeric (httpcode code) = true
  /\ (httpcode code <> code -> httpcode code = "400" /\
      (code = EmptyString \/ Numeric.is_numeric code = false)).
Proof.
  unfold httpcode, Numeric.isNaN, Js.falsy_string.
  destruct (String.eqb_spec code EmptyString) as [->|Hne]; simpl.
  - split; [done|]. split; [done|]. intros _. split; [done | by left].
  - destruct (Numeric.is_numeric code) eqn:E; simpl.
    + split; [done|]. split; [done|]. done.
    + split; [done|]. split; [done|]. intros _. split; [done | by right].
Qed.

(** ** The libraries *)

Lemma own_In {V : Type} (o : list (string * V)) (k : string) (v : V) :
  own o k = Some v -> In (k, v) o.
Proof.
  induction o as [|[k' v'] o IH]; simpl; [done|].
  destruct (String.eqb_spec k' k) as [->|_].
  - intros [= ->]. by left.
  - intros H. right. by apply IH.
Qed.

Lemma inherited_names (k : string) :
  Js.inherited k = true -> In k Js.object_prototype_keys.
Proof.
  unfold Js.inherited. intros (x & Hx & E)%existsb_exists.
  apply String.eqb_eq in E. by subst.
Qed.

(** Goes through the entries of a table that a hypothesis ranges over. *)
Ltac table_cases :=
  repeat match goal with
         | H : In _ (_ :: _) |- _ => destruct H as [H|H]
         | H : In _ [] |- _ => destruct H
         | H : (_, _) = (_, _) |- _ => injection H as ? ?; subst
         | H : @eq string _ _ |- _ => subst
         end;
  reflexivity.

(** X12. The library route sends nothing but the files of its table: for a
    module and a file that are no member names of [Object.prototype], a file
    that is sent is one of the eight listed paths, under the module it is
    listed for; and every listed file is asked from [node_modules] under that
    path. *)
Theorem lib_allow_list
    (inherited_text : string -> string)
    (inherited_member : string -> string -> option string)
    (sends : string -> bool) (modname file name : string) :
  Js.inherited modname = false ->
  Js.inherited file = false ->
  (lib inherited_text inherited_member sends modname file = File name ->
   In name authorized_paths
   /\ exists files path,
        In (modname, files) authorized /\ In (file, path) files
        /\ name = modname +:+ "/" +:+ path)
  /\ (forall files path,
        In (modname, files) authorized -> In (file, path) files ->
        lib inherited_text inherited_member sends modname file
        = sendFile sends (modname +:+ "/" +:+ path)).
Proof.
  intros Hm Hf. split.
  - unfold lib, authorized_file. destruct (_ || _); [done|]. rewrite Hm, Hf.
    destruct (own authorized modname) as [files|] eqn:E1; [|done].
    destruct (own files file) as [path|] eqn:E2; [|done].
    destruct (Js.falsy_string path); [done|].
    unfold sendFile. destruct (sends _); [|done]. intros [= <-].
    apply own_In in E1, E2. split; [|by exists files, path].
    unfold authorized_paths. apply in_flat_map. exists (modname, files).
    split; [done|]. apply in_map_iff. by exists (file, path).
  - intros files path H1 H2. unfold authorized in H1. table_cases.
Qed.

Lemma lib_allow_list_witness :
  (lib native_text (fun _ _ => None) (fun _ => true) "chart.js" "chart.css" = File "chart.js/dist/Chart.min.css" ->
   In "chart.js/dist/Chart.min.css" authorized_paths
   /\ exists files path,
        In ("chart.js", files) authorized /\ In ("chart.css", path) files
        /\ "chart.js/dist/Chart.min.css" = "chart.js" +:+ "/" +:+ path)
  /\ (forall files path,
        In ("chart.js", files) authorized -> In ("chart.css", path) files ->
        lib native_text (fun _ _ => None) (fun _ => true) "chart.js" "chart.css"
        = sendFile (fun _ => true) ("chart.js" +:+ "/" +:+ path)).
Proof.
  apply (lib_allow_list native_text (fun _ _ => None) (fun _ => true)
           "chart.js" "chart.css" "chart.js/dist/Chart.min.css");
    reflexivity.
Defined.

(** X13. The member names of [Object.prototype] pass the test of the
    table: for a listed module and such a name as the file, the route does not
    answer 404 but asks [node_modules] for the text of the inherited member
    under the module, and answers with what comes of it. *)
Theorem lib_prototype_names
    (inherited_text : string -> string)
    (inherited_member : string -> string -> option string)
    (sends : string -> bool) (modname file : string)
    (files : list (string * string)) :
  In (modname, files) authorized ->
  Js.inherited file = true ->
  lib inherited_text inherited_member sends modname file
  = sendFile sends (modname +:+ "/" +:+ inherited_text file)
  /\ lib inherited_text inherited_member sends modname file
     <> Status 404 "File not found".
Proof.
  intros H1 H2%inherited_names.
  assert (E : lib inherited_text inherited_member sends modname file
              = sendFile sends (modname +:+ "/" +:+ inherited_text file)).
  { unfold authorized in H1. unfold Js.object_prototype_keys in H2. table_cases. }
  split; [done|]. rewrite E. unfold sendFile. by destruct (sends _).
Qed.

Lemma lib_prototype_names_witness :
  lib native_text (fun _ _ => None) (fun _ => false) "bootstrap" "toString"
  = sendFile (fun _ => false) ("bootstrap" +:+ "/" +:+ native_text "toString")
  /\ lib native_text (fun _ _ => None) (fun _ => false) "bootstrap" "toString"
     <> Status 404 "File not found".
Proof.
  apply (lib_prototype_names native_text (fun _ _ => None) (fun _ => false)
           "bootstrap" "toString" [("bootstrap.css", "dist/css/bootstrap.min.css")]).
  - by left.
  - reflexivity.
Defined.

(** ** The statistics *)

Lemma no_data_or_some (results : list series) :
  Forall (fun r => data r = []) results \/ Exists (fun r => has_data r = true) results.
Proof.
  induction results as [|r l [IH|IH]]; [by left| |right; by right].
  destruct (data r) eqn:E.
  - left. by constructor.
  - right. left. unfold has_data. by rewrite E.
Qed.

Lemma all_data_or_none (results : list series) :
  Forall (fun r => has_data r = true) results \/ Exists (fun r => data r = []) results.
Proof.
  induction results as [|r l [IH|IH]]; [by left| |right; by right].
  destruct (data r) eqn:E.
  - right. by left.
  - left. constructor; [|done]. unfold has_data. by rewrite E.
Qed.

Lemma data_and_no_data (results : list series) :
  Forall (fun r => data r = []) results ->
  Exists (fun r => has_data r = true) results -> False.
Proof.
  intros Hall (r & Hr & Hd)%Exists_exists. rewrite Forall_forall in Hall.
  unfold has_data in Hd. by rewrite (Hall r Hr) in Hd.
Qed.

(** X14. The three outcomes of the osmose handler: the empty object
    exactly when no series has data; an exception exactly when one series has
    data and another has none, and then a [TypeError]; the chart and the
    total in every other case. *)
Theorem osmose_then_cases (results : list series) :
  (osmose_then results = Ok Js.empty_object <-> Forall (fun r => data r = []) results)
  /\ ((exists e, osmose_then results = Throw e) <->
      Exists (fun r => has_data r = true) results
      /\ Exists (fun r => data r = []) results)
  /\ (forall e, osmose_then results = Throw e -> e = TypeError)
  /\ ((exists c t, osmose_then results
                   = Ok [("chart", Js.VArr c); ("tasksSolved", Js.VNum t)]) <->
      results <> [] /\ Forall (fun r => has_data r = true) results).
Proof.
  destruct (no_data_or_some results) as [Hnone|Hsome].
  - pose proof (osmose_then_no_data results Hnone) as E. rewrite E.
    split; [done|]. split; [|split].
    + split; [by intros [e He]|]. intros [Hd _]. by destruct (data_and_no_data results).
    + done.
    + split; [by intros (c & t & H)|]. intros [Hne Hall]. exfalso.
      destruct results as [|r l]; [done|].
      apply Forall_cons in Hnone as [Hr _], Hall as [Hr' _].
      unfold has_data in Hr'. by rewrite Hr in Hr'.
  - destruct (all_data_or_none results) as [Hall|Hempty].
    + assert (Hne : results <> []) by (intros ->; inversion Hsome).
      destruct (osmose_then_totals results Hne Hall) as (firsts & lasts & _ & _ & E).
      rewrite E. split; [|split; [|split]].
      * split; [done|]. intros Hnone. by destruct (data_and_no_data results).
      * split; [by intros [e He]|]. intros [_ (r & Hr & Hd)%Exists_exists].
        rewrite Forall_forall in Hall. specialize (Hall r Hr).
        unfold has_data in Hall. by rewrite Hd in Hall.
      * done.
      * split; [done|]. intros _. eauto.
    + rewrite (osmose_then_mixed results Hsome Hempty). split; [|split; [|split]].
      * split; [done|]. intros Hnone. by destruct (data_and_no_data results).
      * split; [done|]. eauto.
      * by intros e [= <-].
      * split; [by intros (c & t & H)|]. intros [_ Hall]. exfalso.
        apply Exists_exists in Hempty as (r & Hr & Hd).
        rewrite Forall_forall in Hall. specialize (Hall r Hr).
        unfold has_data in Hall. by rewrite Hd in Hall.
Qed.

Lemma totals_solved (results : list series) (firsts lasts : list Z) :
  Forall2 (fun r f => exists p, head (data r) = Some p /\ pt_y p = f) results firsts ->
  Forall2 (fun r f => exists p, last (data r) = Some p /\ pt_y p = f) results lasts ->
  foldr Z.add 0 firsts - foldr Z.add 0 lasts = foldr Z.add 0 (map solved results).
Proof.
  intros Hf. revert lasts.
  induction Hf as [|r f results firsts (p & Hp & <-) _ IH]; intros lasts Hl.
  - by inversion Hl.
  - inversion Hl as [|? l ? lasts' (q & Hq & <-) Hl']; subst. simpl.
    rewrite <- (IH lasts' Hl'). unfold solved. rewrite Hp, Hq. lia.
Qed.

(** X15. When every series has data, [tasksSolved] is the sum, over the
    series, of the first value minus the last one: a series whose count went
    up takes from the total. *)
Theorem osmose_then_solved (results : list series) :
  results <> [] ->
  Forall (fun r => has_data r = true) results ->
  osmose_then results
  = Ok [("chart", Js.VArr (map series_value results));
        ("tasksSolved", Js.VNum (foldr Z.add 0 (map solved results)))].
Proof.
  intros Hne Hall.
  destruct (osmose_then_totals results Hne Hall) as (firsts & lasts & Hf & Hl & ->).
  by rewrite (totals_solved results firsts lasts Hf Hl).
Qed.

Lemma osmose_then_solved_witness :
  osmose_then [series_with_data; series_with_data]
  = Ok [("chart", Js.VArr (map series_value [series_with_data; series_with_data]));
        ("tasksSolved",
         Js.VNum (foldr Z.add 0 (map solved [series_with_data; series_with_data])))].
Proof.
  apply osmose_then_solved.
  - discriminate.
  - by repeat constructor.
Defined.

Lemma insert_by_t_perm (lc : string -> string -> Z) (p : point) (l : list point) :
  insert_by_t lc p l ≡ₚ p :: l.
Proof.
  induction l as [|q l IH]; simpl; [done|].
  destruct (lc (pt_t p) (pt_t q) <=? 0); [done|].
  rewrite IH. apply Permutation_swap.
Qed.

Lemma sort_by_t_perm (lc : string -> string -> Z) (l : list point) :
  sort_by_t lc l ≡ₚ l.
Proof.
  unfold sort_by_t. induction l as [|p l IH]; simpl; [done|].
  by rewrite insert_by_t_perm, IH.
Qed.

Lemma insert_by_t_sorted (lc : string -> string -> Z) (p : point) (l : list point) :
  (forall a b, lc a b <= 0 \/ lc b a <= 0) ->
  Sorted (collates lc) l -> Sorted (collates lc) (insert_by_t lc p l).
Proof.
  intros Htotal. induction 1 as [|q l Hs IH Hhd]; simpl; [by repeat constructor|].
  destruct (Z.leb_spec (lc (pt_t p) (pt_t q)) 0) as [Hpq|Hpq].
  - constructor; [by constructor | by constructor].
  - constructor; [done|].
    assert (Hqp : collates lc q p).
    { unfold collates. destruct (Htotal (pt_t p) (pt_t q)); [lia | done]. }
    destruct l as [|r l]; simpl; [by constructor|].
    destruct (lc (pt_t p) (pt_t r) <=? 0); constructor; [done|]. by inversion Hhd.
Qed.

(** X16. The points of an osmose series are the entries of the graph, each
    one once, in the order of the collation of the host when that one
    compares any two dates one way or the other; the series bears the name of
    its source and a colour that is never empty. *)
Theorem osmose_series_sorted (lc : string -> string -> Z) (ds : datasource)
    (entries : list (string * Z)) :
  (forall a b, lc a b <= 0 \/ lc b a <= 0) ->
  Sorted (collates lc) (data (osmose_series lc ds entries))
  /\ map (fun p => (pt_t p, pt_y p)) (data (osmose_series lc ds entries)) ≡ₚ entries
  /\ label (osmose_series lc ds entries) = ds_name ds
  /\ borderColor (osmose_series lc ds entries) <> EmptyString.
Proof.
  intros Htotal. split; [|split; [|split]].
  - simpl. unfold sort_by_t.
    induction (map _ entries) as [|p l IH]; simpl; [constructor|].
    by apply insert_by_t_sorted.
  - simpl. rewrite (Permutation_map _ (sort_by_t_perm lc _)).
    replace (map _ (map _ entries)) with entries; [done|].
    rewrite map_map. rewrite <- (map_id entries) at 1. apply map_ext. by intros [t y].
  - done.
  - simpl. destruct (ds_color ds) as [c|]; [|done].
    unfold Js.falsy_string. by destruct (String.eqb_spec c EmptyString).
Qed.

Lemma by_code_units_total (a b : string) :
  by_code_units a b <= 0 \/ by_code_units b a <= 0.
Proof.
  unfold by_code_units. rewrite (String.compare_antisym a b).
  destruct (String.compare b a); simpl; lia.
Qed.

Lemma osmose_series_sorted_witness :
  Sorted (collates by_code_units)
    (data (osmose_series by_code_units
             {| source := "osmose"; ds_name := "errors A"; ds_color := Some "" |}
             [("2020-05-02", 3); ("2020-05-01", 5)]))
  /\ map (fun p => (pt_t p, pt_y p))
       (data (osmose_series by_code_units
                {| source := "osmose"; ds_name := "errors A"; ds_color := Some "" |}
                [("2020-05-02", 3); ("2020-05-01", 5)]))
     ≡ₚ [("2020-05-02", 3); ("2020-05-01", 5)]
  /\ label (osmose_series by_code_units
              {| source := "osmose"; ds_name := "errors A"; ds_color := Some "" |}
              [("2020-05-02", 3); ("2020-05-01", 5)])
     = "errors A"
  /\ borderColor (osmose_series by_code_units
                    {| source := "osmose"; ds_name := "errors A"; ds_color := Some "" |}
                    [("2020-05-02", 3); ("2020-05-01", 5)])
     <> EmptyString.
Proof.
  apply (osmose_series_sorted by_code_units
           {| source := "osmose"; ds_name := "errors A"; ds_color := Some "" |}
           [("2020-05-02", 3); ("2020-05-01", 5)]).
  exact by_code_units_total.
Defined.

Lemma filter_none {A : Type} (f : A -> bool) (l : list A) :
  Forall (fun a => f a = false) l -> List.filter f l = [].
Proof. induction 1 as [|a l Ha _ IH]; simpl; [done|]. by rewrite Ha. Qed.

Lemma filter_threshold (t : Z) (rows : list tag_row) :
  StronglySorted (fun a b => tag_amount b <= tag_amount a) rows ->
  exists kept dropped,
    rows = kept ++ dropped
    /\ List.filter (fun r => t <=? 10 * tag_amount r) rows = kept
    /\ Forall (fun r => t <= 10 * tag_amount r) kept
    /\ Forall (fun r => 10 * tag_amount r < t) dropped.
Proof.
  induction 1 as [|a l Hs (kept & dropped & E & Ef & Hk & Hd) Ha].
  - exists [], []. by repeat split.
  - simpl. destruct (Z.leb_spec t (10 * tag_amount a)) as [Hle|Hlt].
    + exists (a :: kept), dropped. rewrite Ef, E. repeat split; [|done].
      by constructor.
    + exists [], (a :: l). split; [done|]. split; [|split; [done|]].
      * apply filter_none. eapply Forall_impl; [exact Ha|].
        intros r Hr. simpl in Hr. apply Z.leb_gt. lia.
      * constructor; [done|]. eapply Forall_impl; [exact Ha|].
        intros r Hr. simpl in Hr. lia.
Qed.

(** X17. The chart of the keys keeps the most used keys: the rows being
    in descending order of their counts, which are positive, it shows a
    leading run of them, the first row included, namely every row whose count
    is a tenth of the first count at least, and drops all that follow. *)
Theorem tags_then_prefix (rows : list tag_row) (top : tag_row) :
  descending rows ->
  Forall (fun r => 0 < tag_amount r) rows ->
  head rows = Some top ->
  exists kept dropped,
    rows = top :: kept ++ dropped
    /\ tags_then rows = chartKeys_of (top :: kept)
    /\ Forall (fun r => tag_amount top <= 10 * tag_amount r) kept
    /\ Forall (fun r => 10 * tag_amount r < tag_amount top) dropped.
Proof.
  intros Hsorted Hpos Htop. destruct rows as [|top' rows]; [done|].
  injection Htop as ->.
  apply Sorted_StronglySorted in Hsorted; [|intros a b c ??; simpl in *; lia].
  destruct (filter_threshold (tag_amount top) (top :: rows) Hsorted)
    as (kept & dropped & E & Ef & Hk & Hd).
  apply Forall_cons in Hpos as [Hpos _].
  simpl in Ef. destruct (Z.leb_spec (tag_amount top) (10 * tag_amount top)); [|lia].
  destruct kept as [|k kept]; [done|]. injection Ef as <- Ef.
  exists kept, dropped. split; [done|]. split; [|split; [|done]].
  - unfold tags_then, chartKeys_of. simpl.
    destruct (Z.leb_spec (tag_amount top) (10 * tag_amount top)); [|lia].
    by rewrite Ef.
  - by apply Forall_cons in Hk as [_ Hk].
Qed.

Lemma tags_then_prefix_witness :
  exists kept dropped,
    sample_tags = {| tag_k := "name"; tag_amount := 50 |} :: kept ++ dropped
    /\ tags_then sample_tags = chartKeys_of ({| tag_k := "name"; tag_amount := 50 |} :: kept)
    /\ Forall (fun r => tag_amount {| tag_k := "name"; tag_amount := 50 |}
                        <= 10 * tag_amount r) kept
    /\ Forall (fun r => 10 * tag_amount r
                        < tag_amount {| tag_k := "name"; tag_amount := 50 |}) dropped.
Proof.
  apply (tags_then_prefix sample_tags {| tag_k := "name"; tag_amount := 50 |}).
  - unfold descending, sample_tags. repeat constructor; simpl; lia.
  - unfold sample_tags. repeat constructor.
  - reflexivity.
Defined.

(** ** The merge of the statistics *)

Lemma merge_entry_keeps (acc acc' : Js.object) (e : string * Js.value)
    (k : string) (v : Js.value) :
  k <> "chart" ->
  Js.get_own acc k = Some v ->
  Js.truthy v = true ->
  merge_entry acc e = Ok acc' ->
  Js.get_own acc' k = Some v.
Proof.
  intros Hk Hv Ht. destruct e as [k' v']. unfold merge_entry. simpl fst; simpl snd.
  destruct (negb (Js.has_truthy acc k')) eqn:E.
  - intros [= <-]. rewrite get_own_set_ne; [done|]. intros ->.
    unfold Js.has_truthy in E. by rewrite Hv, Ht in E.
  - destruct (String.eqb k' "chart"); [|by intros [= <-]].
    destruct (js_concat _ v') as [c|]; [|done]. rewrite result_bind_Ok.
    intros [= <-]. rewrite get_own_set_ne; [done|]. by intros <-.
Qed.

Lemma merge_entries_keeps (r acc body : Js.object) (k : string) (v : Js.value) :
  k <> "chart" ->
  Js.get_own acc k = Some v ->
  Js.truthy v = true ->
  merge_entries acc r = Ok body ->
  Js.get_own body k = Some v.
Proof.
  intros Hk. revert acc. induction r as [|e r IH]; intros acc Hv Ht; simpl.
  - by intros [= <-].
  - destruct (merge_entry acc e) as [acc'|] eqn:E; [|done]. rewrite result_bind_Ok.
    apply IH; [|done]. by apply (merge_entry_keeps acc acc' e).
Qed.

(** X18. In the merge, the first value that is truthy stays: once the
    response holds a truthy value under a key other than [chart], no later
    result changes it, whatever it holds under that key. *)
Theorem merge_keeps_truthy (rs : list Js.object) (acc body : Js.object)
    (k : string) (v : Js.value) :
  k <> "chart" ->
  Js.get_own acc k = Some v ->
  Js.truthy v = true ->
  merge_from acc rs = Ok body ->
  Js.get_own body k = Some v.
Proof.
  intros Hk. revert acc. induction rs as [|r rs IH]; intros acc Hv Ht; simpl.
  - by intros [= <-].
  - destruct (merge_entries acc r) as [acc'|] eqn:E; [|done]. rewrite result_bind_Ok.
    apply IH; [|done]. by apply (merge_entries_keeps r acc acc').
Qed.

Lemma merge_keeps_truthy_witness :
  Js.get_own [("count", Js.VStr "14"); ("added", Js.VNum 4)] "count" = Some (Js.VStr "14").
Proof.
  apply (merge_keeps_truthy
           [[("added", Js.VNum 4)]; [("count", Js.VStr "20")]]
           [("count", Js.VStr "14")]
           [("count", Js.VStr "14"); ("added", Js.VNum 4)]
           "count" (Js.VStr "14"));
    [discriminate | reflexivity | reflexivity | reflexivity].
Defined.

(** ** The statistics response *)

(** The partial results of a statistics request whose fetches all succeed,
    in the order of the handler. *)
Lemma allPromises_list (up : upstream) (p : project) (id : string) (auth : bool)
    (partials : list Js.object) :
  promise_all (allPromises up p id auth) = Fulfilled partials ->
  exists o notes feats cnt rows tags,
    (o = [] \/ exists c t, o = [("chart", Js.VArr c); ("tasksSolved", Js.VNum t)])
    /\ partials
       = [o]
         ++ (if has_notes p then [notes_then notes] else [])
         ++ (if statistics_count p then [features_then feats; count_then cnt] else [])
         ++ [leaderboard_then auth rows; tags_then tags].
Proof.
  unfold allPromises, has_notes.
  set (osm := promise_then (promise_all _) osmose_then).
  assert (Hosm : forall o, osm = Fulfilled o ->
            o = [] \/ exists c t, o = [("chart", Js.VArr c); ("tasksSolved", Js.VNum t)]).
  { intros o. unfold osm. destruct (promise_all _) as [results|]; [|done]. simpl.
    destruct (osmose_then results) as [o'|] eqn:E; [|done].
    intros [= <-]. by apply (osmose_then_shape results). }
  clearbody osm.
  destruct osm as [o|]; [|done]. specialize (Hosm o eq_refl).
  destruct (existsb _ (datasources p));
    [destruct (query_note_counts up id) as [notes|]; [|done]|];
    (destruct (statistics_count p);
     [destruct (query_feature_counts up id) as [feats|]; [|done];
      destruct (query_count up (suffix id)) as [cnt|]; [|done]|]);
    (destruct (query_leaderboard up id) as [rows|]; [|done]);
    (destruct (query_tag_keys up (suffix id)) as [tags|]; [|done]);
    intros [= <-].
  - by exists o, notes, feats, cnt, rows, tags.
  - by exists o, notes, [], [], rows, tags.
  - by exists o, [], feats, cnt, rows, tags.
  - by exists o, [], [], [], rows, tags.
Qed.

Lemma notes_then_keys (rows : list note_row) :
  exists a b, notes_then rows = [("chartNotes", a); ("closedNotes", b)].
Proof. by eexists _, _. Qed.

Lemma features_then_keys (rows : list feature_row) :
  exists l b, features_then rows = [("chart", Js.VArr l); ("added", b)].
Proof. by eexists _, _. Qed.

Lemma count_then_keys (rows : list Js.value) :
  exists a, count_then rows = [("count", a)].
Proof. by eexists. Qed.

Lemma leaderboard_then_keys (auth : bool) (rows : list Js.value) :
  exists a b, leaderboard_then auth rows = [("nbContributors", a); ("leaderboard", b)].
Proof. by eexists _, _. Qed.

Lemma tags_then_keys (rows : list tag_row) :
  exists a, tags_then rows = [("chartKeys", a)].
Proof. by eexists. Qed.

Ltac key_presence :=
  simpl;
  repeat match goal with
         | |- _ /\ _ => split
         | |- _ <-> _ => split
         | |- Forall _ (_ :: _) => apply Forall_cons_2
         | |- Forall _ [] => apply Forall_nil_2
         | |- _ -> _ => intros ?
         end;
  try match goal with H : is_Some None |- _ => by destruct H end;
  first [ done | by eexists | simpl; tauto ].

(** X19. The keys of a statistics response. It holds no key but the nine
    of the handlers; the contributors, the leaderboard and the chart of the
    keys are always there; the two keys of the notes exactly when the project
    has a notes source; [added] and [count] exactly when the project counts
    its features, and then a [chart] too; and [tasksSolved] never without a
    [chart]. *)
Theorem stats_response_keys (projects : registry) (up : upstream) (id : string)
    (osm_user : query_value) (body : Js.object) :
  stats projects up id osm_user = Ok (Some (Send body)) ->
  exists p,
    registry_get projects id = Some p
    /\ Forall (fun k => In k stats_keys) (Js.keys body)
    /\ is_Some (Js.get_own body "nbContributors")
    /\ is_Some (Js.get_own body "leaderboard")
    /\ is_Some (Js.get_own body "chartKeys")
    /\ (is_Some (Js.get_own body "chartNotes") <-> has_notes p = true)
    /\ (is_Some (Js.get_own body "closedNotes") <-> has_notes p = true)
    /\ (is_Some (Js.get_own body "added") <-> statistics_count p = true)
    /\ (is_Some (Js.get_own body "count") <-> statistics_count p = true)
    /\ (statistics_count p = true -> is_Some (Js.get_own body "chart"))
    /\ (is_Some (Js.get_own body "tasksSolved") -> is_Some (Js.get_own body "chart")).
Proof.
  intros H. destruct (stats_responds _ _ _ _ _ H) as (p & partials & Hp & Hall & Hsend).
  exists p. split; [done|].
  destruct (allPromises_list _ _ _ _ _ Hall)
    as (o & notes & feats & cnt & rows & tags & Ho & ->).
  destruct (notes_then_keys notes) as (n1 & n2 & En).
  destruct (features_then_keys feats) as (fl & fa & Ef).
  destruct (count_then_keys cnt) as (ca & Ec).
  destruct (leaderboard_then_keys (nonempty_string osm_user) rows) as (nb & lb & El).
  destruct (tags_then_keys tags) as (ck & Et).
  rewrite En, Ef, Ec, El, Et in Hsend. clear En Ef Ec El Et H Hall.
  unfold toSend in Hsend.
  destruct (has_notes p), (statistics_count p), Ho as [->|(c & t & ->)];
    vm_compute in Hsend; injection Hsend as <-; key_presence.
Qed.

Lemma stats_response_keys_witness :
  exists p,
    registry_get [two_osmose_sources] "2020-05_demo" = Some p
    /\ Forall (fun k => In k stats_keys) (Js.keys anonymous_body)
    /\ is_Some (Js.get_own anonymous_body "nbContributors")
    /\ is_Some (Js.get_own anonymous_body "leaderboard")
    /\ is_Some (Js.get_own anonymous_body "chartKeys")
    /\ (is_Some (Js.get_own anonymous_body "chartNotes") <-> has_notes p = true)
    /\ (is_Some (Js.get_own anonymous_body "closedNotes") <-> has_notes p = true)
    /\ (is_Some (Js.get_own anonymous_body "added") <-> statistics_count p = true)
    /\ (is_Some (Js.get_own anonymous_body "count") <-> statistics_count p = true)
    /\ (statistics_count p = true -> is_Some (Js.get_own anonymous_body "chart"))
    /\ (is_Some (Js.get_own anonymous_body "tasksSolved")
        -> is_Some (Js.get_own anonymous_body "chart")).
Proof.
  apply (stats_response_keys [two_osmose_sources] healthy "2020-05_demo" QAbsent).
  vm_compute. reflexivity.
Defined.

(** X20. A statistics request throws exactly when its identifier is no
    project of the registry but the name of a member of [Object.prototype]:
    such an identifier passes the test of the registry, and the handler then
    reads the data sources of a value that has none. Every other request is
    answered by the 404 redirect or goes on to the fetches. *)
Theorem stats_throws_iff (projects : registry) (up : upstream) (id : string)
    (osm_user : query_value) :
  ((exists e, stats projects up id osm_user = Throw e) <->
   registry_get projects id = None /\ In id Js.object_prototype_keys)
  /\ (stats projects up id osm_user = Ok (Some (Redirect "/error/404")) <->
      id = EmptyString
      \/ (registry_get projects id = None /\ ~ In id Js.object_prototype_keys)).
Proof.
  assert (Hin : Js.inherited id = true <-> In id Js.object_prototype_keys).
  { unfold Js.inherited. rewrite existsb_exists. split.
    - intros (x & Hx & E). apply String.eqb_eq in E. by subst.
    - intros Hx. exists id. split; [done | apply String.eqb_refl]. }
  assert (Hrespond : forall ps, respond ps <> Some (Redirect "/error/404")).
  { intros ps. unfold respond. destruct (promise_all ps) as [results|]; [|done]. simpl.
    destruct (toSend results); simpl; [|done]. congruence. }
  unfold stats, registry_has, Js.falsy_string.
  destruct (String.eqb_spec id EmptyString) as [->|Hne]; simpl.
  - split.
    + split; [by intros [e He]|]. intros [_ Hk]. exfalso. apply Hin in Hk. done.
    + split; [by left | done].
  - destruct (registry_get projects id) as [p|] eqn:Ep; simpl.
    + split.
      * split; [by intros [e He] | by intros [? _]].
      * split; [|by intros [?|[? _]]]. intros [= Hr]. by destruct (Hrespond _ Hr).
    + destruct (Js.inherited id) eqn:Ei; simpl.
      * split.
        -- split; [intros _; split; [done | by apply Hin] | eauto].
        -- split; [done|]. intros [?|[_ Hk]]; [done|]. exfalso. apply Hk. by apply Hin.
      * split.
        -- split; [by intros [e He]|]. intros [_ Hk]. apply Hin in Hk. congruence.
        -- split; [|done]. intros _. right. split; [done|]. intros Hk.
           apply Hin in Hk. congruence.
Qed.

(** ** The table-name suffix, in general *)

Lemma has_char_app (c : ascii) (a b : string) :
  has_char c (a +:+ b) = has_char c a || has_char c b.
Proof.
  induction a as [|x a IH]; [done|].
  change (String x a +:+ b) with (String x (a +:+ b)). simpl.
  by rewrite IH, orb_assoc.
Qed.

Lemma split_two (sep : ascii) (s : string) :
  has_char sep s = true ->
  exists first rest, Js.split sep s = first :: rest /\ rest <> [].
Proof.
  induction s as [|c s IH]; simpl; [done|].
  destruct (Ascii.eqb c sep); simpl.
  - intros _. exists EmptyString, (Js.split sep s). split; [done | apply split_not_nil].
  - intros H. destruct (IH H) as (f & r & -> & Hr). by exists (String c f), r.
Qed.

(** The last piece of a split string: it ends the string, holds no
    separator, and a separator goes before it when the string has one. *)
Lemma pop_split (sep : ascii) (s : string) :
  exists pre,
    s = pre +:+ Js.pop_string (Js.split sep s)
    /\ has_char sep (Js.pop_string (Js.split sep s)) = false
    /\ (has_char sep s = true -> exists pre', pre = pre' +:+ String sep EmptyString).
Proof.
  induction s as [|c s (pre & E & Hno & Hpre)].
  - by exists EmptyString.
  - destruct (has_char sep s) eqn:Hs.
    + destruct (split_two sep s Hs) as (first & rest & Es & Hrest).
      destruct (Hpre eq_refl) as [pre' ->].
      assert (Epop : Js.pop_string (Js.split sep (String c s))
                     = Js.pop_string (Js.split sep s)).
      { simpl. rewrite Es. unfold Js.pop_string.
        destruct (Ascii.eqb c sep); by destruct rest. }
      rewrite Epop. exists (String c (pre' +:+ String sep EmptyString)).
      split; [|split; [done|]].
      * change (String c s = String c ((pre' +:+ String sep EmptyString)
                                        +:+ Js.pop_string (Js.split sep s))).
        by f_equal.
      * intros _. by exists (String c pre').
    + assert (Es := split_no_separator sep s Hs).
      simpl. rewrite Es. destruct (Ascii.eqb c sep) eqn:Ec.
      * apply Ascii.eqb_eq in Ec as ->.
        exists (String sep EmptyString). split; [done|]. split; [done|].
        intros _. by exists EmptyString.
      * exists EmptyString. split; [done|]. simpl. rewrite Ec, Hs. by split.
Qed.

(** X21. The suffix of an identifier, which names the tables and the views
    of a project in the generator and in the statistics queries alike, ends
    the identifier and holds no underscore; when the identifier has an
    underscore, one goes right before the suffix; and the suffix of a suffix
    is that suffix. *)
Theorem suffix_spec (id : string) :
  (exists pre,
     id = pre +:+ suffix id
     /\ (has_char "_" id = true -> exists pre', pre = pre' +:+ "_"))
  /\ has_char "_" (suffix id) = false
  /\ suffix (suffix id) = suffix id.
Proof.
  destruct (pop_split "_" id) as (pre & E & Hno & Hpre).
  split; [by exists pre|]. split; [done|]. by apply suffix_no_underscore.
Qed.

(** ** The batches, the tables and the quoting of the generator *)

Module GeneratorFurther.
Import Generator.

Local Close Scope Z_scope.

(** X22. The sizes of the batches: one statement of [pre] and one of
    [post] for each project, two more of [pre], three more of [post] and one
    of [post-update] for each project that has a comparison. *)
Theorem batch_sizes (projects : registry) :
  length (preSQL (generate projects)) = length projects + 2 * length (compared projects)
  /\ length (postSQL (generate projects))
     = length projects + 3 * length (compared projects)
  /\ length (postUpdateSQL (generate projects)) = length (compared projects).
Proof.
  destruct (GeneratorProps.generate_batches projects) as (-> & -> & ->).
  induction projects as [|p projects (IH1 & IH2 & IH3)]; [done|].
  csimpl. rewrite !length_app, IH1, IH2, IH3.
  unfold pre_of, post_of, post_update_of.
  destruct (compare (project_database p)); simpl; lia.
Qed.

Lemma plain_app (a b : string) : plain a -> plain b -> plain (a +:+ b).
Proof.
  unfold plain. rewrite !Forall_forall. intros Ha Hb c Hc.
  by rewrite has_char_app, (Ha c Hc), (Hb c Hc).
Qed.

Lemma plain_String (x : ascii) (s : string) :
  Forall (fun c => Ascii.eqb x c = false) shell_special -> plain s -> plain (String x s).
Proof.
  unfold plain. rewrite !Forall_forall. intros Hx Hs c Hc. simpl.
  by rewrite (Hx c Hc), (Hs c Hc).
Qed.

Lemma plain_suffix (id : string) : plain id -> plain (suffix id).
Proof.
  unfold plain. rewrite !Forall_forall. intros H c Hc. specialize (H c Hc).
  destruct (pop_split "_" id) as (pre & E & _). rewrite E, has_char_app in H.
  by apply orb_false_iff in H as [_ H].
Qed.

Lemma plain_uint (d : Decimal.uint) : plain (NilEmpty.string_of_uint d).
Proof.
  induction d; simpl; [by repeat constructor|..];
    (apply plain_String; [by repeat constructor | done]).
Qed.

Lemma plain_number (n : BinNums.Z) : plain (number_text n).
Proof.
  unfold number_text.
  assert (Hu : forall d, plain (NilZero.string_of_uint d)).
  { intros d. unfold NilZero.string_of_uint.
    destruct d; try apply plain_uint. by repeat constructor. }
  destruct n; simpl; [by repeat constructor | apply Hu |].
  apply plain_String; [by repeat constructor | apply Hu].
Qed.

Lemma plain_concat (sep : string) (l : list string) :
  plain sep -> Forall plain l -> plain (String.concat sep l).
Proof.
  intros Hsep. induction 1 as [|x l Hx Hl IH]; [by repeat constructor|].
  simpl. destruct l as [|y l]; [done|].
  apply plain_app; [done|]. by apply plain_app.
Qed.

(** A text made of plain pieces is plain. *)
Ltac plain_text :=
  repeat match goal with
         | |- plain (String.append _ _) => apply plain_app
         | |- plain (suffix _) => apply plain_suffix
         | |- plain (number_text _) => apply plain_number
         end;
  first [ assumption | by repeat constructor ].

Ltac plain_list :=
  repeat match goal with
         | |- Forall plain (_ :: _) => apply Forall_cons_2
         | |- Forall plain [] => apply Forall_nil_2
         end;
  plain_text.

Lemma plain_osmid (type : string) : plain (osmid type).
Proof. unfold osmid. destruct (String.eqb type "point"); by repeat constructor. Qed.

Lemma plain_view_geom (type : string) : plain (view_geom type).
Proof. unfold view_geom. destruct (String.eqb type "point"); by repeat constructor. Qed.

Lemma plain_compare_geom (type : string) : plain (compare_geom type).
Proof. unfold compare_geom. destruct (String.eqb type "point"); by repeat constructor. Qed.

Lemma plain_view_sql (id : string) (types : list string) :
  plain id -> Forall plain types -> plain (view_sql id types).
Proof.
  intros Hid Htypes. unfold view_sql. apply plain_app; [by repeat constructor|].
  apply plain_app; [by apply plain_suffix|]. apply plain_app; [by repeat constructor|].
  apply plain_concat; [by repeat constructor|].
  induction Htypes as [|type types Ht _ IH]; simpl; constructor; [|done].
  unfold view_select. pose proof (plain_osmid type). pose proof (plain_view_geom type).
  plain_text.
Qed.

Lemma plain_compare_view_sql (id : string) (types : list string) :
  plain id -> Forall plain types -> plain (compare_view_sql id types).
Proof.
  intros Hid Htypes. unfold compare_view_sql. apply plain_app; [by repeat constructor|].
  apply plain_app; [by apply plain_suffix|]. apply plain_app; [by repeat constructor|].
  apply plain_concat; [by repeat constructor|].
  induction Htypes as [|type types Ht _ IH]; simpl; constructor; [|done].
  unfold compare_select. pose proof (plain_osmid type).
  pose proof (plain_compare_geom type). plain_text.
Qed.

Lemma plain_statements (p : project) :
  plain_project p -> Forall plain (pre_of p ++ post_of p ++ post_update_of p).
Proof.
  intros (Hid & Htypes & Hcmp). unfold pre_of, post_of, post_update_of.
  pose proof (plain_view_sql _ _ Hid Htypes).
  destruct (compare (project_database p)) as [c|]; simpl.
  - pose proof (plain_compare_view_sql _ _ Hid Hcmp).
    unfold compare_tiles_sql, compare_index_sql.
    plain_list.
  - plain_list.
Qed.

Lemma Forall_mjoin_Forall {A B : Type} (Q : A -> Prop) (P : B -> Prop)
    (f : A -> list B) (l : list A) :
  (forall a, Q a -> Forall P (f a)) -> Forall Q l -> Forall P (mjoin (f <$> l)).
Proof.
  intros H. induction 1 as [|a l Ha _ IH]; csimpl; [constructor|].
  apply Forall_app. split; [by apply H | done].
Qed.

(** X23. The statements fit between the double quotes of their [psql]
    commands: when no identifier and no geometry type of the registry holds a
    double quote, a dollar, a backquote or a backslash, no statement of the
    three batches holds one. *)
Theorem statements_plain (projects : registry) :
  Forall plain_project projects ->
  Forall plain (preSQL (generate projects))
  /\ Forall plain (postSQL (generate projects))
  /\ Forall plain (postUpdateSQL (generate projects)).
Proof.
  intros Hall.
  destruct (GeneratorProps.generate_batches projects) as (-> & -> & ->).
  split; [|split];
    (eapply (Forall_mjoin_Forall plain_project); [|exact Hall]);
    intros p Hp; apply plain_statements in Hp;
    rewrite !Forall_app in Hp; tauto.
Qed.

Lemma statements_plain_witness :
  Forall plain (preSQL (generate [demo_foo; compared_foo]))
  /\ Forall plain (postSQL (generate [demo_foo; compared_foo]))
  /\ Forall plain (postUpdateSQL (generate [demo_foo; compared_foo])).
Proof.
  apply statements_plain.
  repeat (apply Forall_cons_2 || apply Forall_nil_2);
    unfold plain_project; simpl; repeat split; by repeat constructor.
Defined.

Lemma set_table_elem (k : string) (ts : list (string * table)) (n : string) (t : table) :
  k ∈ map fst (set_table ts n t) <-> k ∈ map fst ts \/ k = n.
Proof.
  induction ts as [|[n' t'] ts IH]; simpl.
  - rewrite list_elem_of_singleton, elem_of_nil. tauto.
  - destruct (String.eqb_spec n' n) as [->|Hne]; simpl; rewrite !elem_of_cons, ?IH; tauto.
Qed.

Lemma set_table_NoDup (ts : list (string * table)) (n : string) (t : table) :
  NoDup (map fst ts) -> NoDup (map fst (set_table ts n t)).
Proof.
  induction ts as [|[n' t'] ts IH]; simpl.
  - intros _. apply NoDup_singleton.
  - intros [Hn' Hnd]%NoDup_cons.
    destruct (String.eqb_spec n' n) as [->|Hne]; simpl; apply NoDup_cons.
    + done.
    + split; [|by apply IH]. rewrite set_table_elem. by intros [?|?].
Qed.

Lemma set_table_Forall (P : string * table -> Prop) (ts : list (string * table))
    (n : string) (t : table) :
  Forall P ts -> P (n, t) -> Forall P (set_table ts n t).
Proof.
  intros Hts Hn. induction Hts as [|[n' t'] ts Hx Hl IH]; simpl.
  - by constructor.
  - destruct (String.eqb_spec n' n) as [->|Hne]; by constructor.
Qed.

Lemma fold_set_table (f : string -> string) (g : string -> table)
    (P : string * table -> Prop) (types : list string) (ts : list (string * table)) :
  (forall type, P (f type, g type)) ->
  NoDup (map fst ts) -> Forall P ts ->
  NoDup (map fst (fold_left (fun ts type => set_table ts (f type) (g type)) types ts))
  /\ Forall P (fold_left (fun ts type => set_table ts (f type) (g type)) types ts)
  /\ forall k,
       k ∈ map fst (fold_left (fun ts type => set_table ts (f type) (g type)) types ts)
       <-> k ∈ map fst ts \/ exists type, In type types /\ k = f type.
Proof.
  intros HP. revert ts. induction types as [|type types IH]; intros ts Hnd Hts.
  - simpl. split; [done|]. split; [done|]. intros k. split; [by left|].
    intros [?|(x & Hx & _)]; [done | destruct Hx].
  - cbn [fold_left].
    destruct (IH (set_table ts (f type) (g type))) as (H1 & H2 & H3).
    { by apply set_table_NoDup. }
    { by apply set_table_Forall. }
    split; [done|]. split; [done|]. intros k. rewrite H3, set_table_elem. split.
    + intros [[?| ->]|(type' & Hin & ->)]; [by left | |].
      * right. exists type. split; [by left | done].
      * right. exists type'. split; [by right | done].
    + intros [?|(type' & [<- |Hin] & ->)]; [by left; left | by left; right |].
      right. by exists type'.
Qed.

Lemma add_project_tables (b : batches) (p : project) :
  NoDup (map fst (tables b)) -> Forall table_named (tables b) ->
  NoDup (map fst (tables (add_project b p)))
  /\ Forall table_named (tables (add_project b p))
  /\ forall k, k ∈ map fst (tables (add_project b p))
               <-> k ∈ map fst (tables b) \/ table_for p k.
Proof.
  intros Hnd Hts. unfold add_project. cbv zeta.
  destruct (fold_set_table
              (fun type => suffix (project_id p) +:+ "_" +:+ type)
              (fun type => {| table_type := type;
                              table_mapping := imposm_mapping (project_database p);
                              table_columns := columns |})
              table_named (imposm_types (project_database p)) (tables b))
    as (H1 & H2 & H3); [|done|done|].
  { intros type. split; [done|]. by exists (suffix (project_id p)). }
  unfold table_for.
  destruct (compare (project_database p)) as [c|]; cbn [tables].
  - assert (HP : forall type,
               table_named
                 (suffix (project_id p) +:+ "_compare_" +:+ type,
                  {| table_type := type;
                     table_mapping := compare_mapping c;
                     table_columns := columns |})).
    { intros type. split; [done|]. exists (suffix (project_id p) +:+ "_compare").
      simpl. rewrite string_app_assoc. reflexivity. }
    destruct (fold_set_table
                (fun type => suffix (project_id p) +:+ "_compare_" +:+ type)
                (fun type => {| table_type := type;
                                table_mapping := compare_mapping c;
                                table_columns := columns |})
                table_named (compare_types c) _ HP H1 H2)
      as (H4 & H5 & H6).
    split; [done|]. split; [done|]. intros k. rewrite H6, H3. split.
    + intros [[?|(type & ? & ->)]|(type & ? & ->)]; [by left | |].
      * right. left. by exists type.
      * right. right. by exists c, type.
    + intros [?|[(type & ? & ->)|(c' & type & [= <-] & ? & ->)]].
      * by left; left.
      * left. right. by exists type.
      * right. by exists type.
  - split; [done|]. split; [done|]. intros k. rewrite H3. split.
    + intros [?|(type & ? & ->)]; [by left|]. right. left. by exists type.
    + intros [?|[(type & ? & ->)|(c' & type & [=] & _)]]; [by left|].
      right. by exists type.
Qed.

Lemma fold_add_project_tables (projects : registry) (b : batches) :
  NoDup (map fst (tables b)) -> Forall table_named (tables b) ->
  NoDup (map fst (tables (fold_left add_project projects b)))
  /\ Forall table_named (tables (fold_left add_project projects b))
  /\ forall k, k ∈ map fst (tables (fold_left add_project projects b))
               <-> k ∈ map fst (tables b) \/ exists p, In p projects /\ table_for p k.
Proof.
  revert b. induction projects as [|p projects IH]; intros b Hnd Hts.
  - simpl. split; [done|]. split; [done|]. intros k. split; [by left|].
    intros [?|(x & Hx & _)]; [done | destruct Hx].
  - cbn [fold_left]. destruct (add_project_tables b p Hnd Hts) as (H1 & H2 & H3).
    destruct (IH (add_project b p) H1 H2) as (H4 & H5 & H6).
    split; [done|]. split; [done|]. intros k. rewrite H6, H3. split.
    + intros [[?|?]|(q & ? & ?)]; [by left | |].
      * right. exists p. split; [by left | done].
      * right. exists q. split; [by right | done].
    + intros [?|(q & [<- |?] & ?)]; [by left; left | by left; right |].
      right. by exists q.
Qed.

(** X24. The tables of the Imposm mapping: their names are distinct; each
    one has the four columns and a name that ends with an underscore and its
    geometry type; and there is one for every geometry type of every project
    and of every comparison, named after the suffix of the project, and no
    other. *)
Theorem tables_named_after_types (projects : registry) :
  NoDup (map fst (tables (generate projects)))
  /\ Forall table_named (tables (generate projects))
  /\ forall k, In k (map fst (tables (generate projects)))
               <-> exists p, In p projects /\ table_for p k.
Proof.
  destruct (fold_add_project_tables projects no_batches) as (H1 & H2 & H3).
  { constructor. }
  { constructor. }
  split; [done|]. split; [done|]. intros k.
  rewrite <- list_elem_of_In. unfold generate. rewrite H3. simpl.
  rewrite elem_of_nil. tauto.
Qed.

End GeneratorFurther.

(** ** The error redirects and the error page *)

Lemma respond_not_redirect (ps : list (settled Js.object)) (url : string) :
  respond ps <> Some (Redirect url).
Proof.
  unfold respond. destruct (promise_all ps) as [results|]; [|done]. simpl.
  destruct (toSend results); simpl; [|done]. congruence.
Qed.

(** X25. Every redirect of the contribution route, of the statistics route
    and of the user page goes to the error page of a status that this page
    renders as it is: 400 or 500 for a contribution, 404 for the statistics,
    404 or 500 for the user page. *)
Theorem error_redirects_rendered :
  (forall filterProjects get_badges get_points current_timestamp rejects
          projects req d url,
      (contribute filterProjects get_badges get_points current_timestamp rejects
         projects req d).1.1 = Redirect url ->
      renders_error url "400" \/ renders_error url "500")
  /\ (forall projects up id osm_user url,
        stats projects up id osm_user = Ok (Some (Redirect url)) ->
        renders_error url "404")
  /\ (forall get_badges rejects projects name d url,
        (user_page get_badges rejects projects name d).1 = UserRedirect url ->
        renders_error url "404" \/ renders_error url "500").
Proof.
  split; [|split].
  - intros filterProjects get_badges get_points current_timestamp rejects
      projects req d url. unfold contribute.
    destruct (project_not_active _ _ _); [intros [= <-]; by left|].
    destruct (user_not_valid _ _); [intros [= <-]; by left|].
    destruct (type_not_valid _); [intros [= <-]; by left|].
    unfold pool_query. cbv zeta.
    repeat (match goal with
            | |- context [if rejects ?d ?q then _ else _] => destruct (rejects d q)
            end; simpl);
      first [done | intros [= <-]; by right].
  - intros projects up id osm_user url. unfold stats.
    destruct (_ || _); [by intros [= <-]|].
    destruct (registry_get projects id); [|done].
    intros [= H]. by destruct (respond_not_redirect _ _ H).
  - intros get_badges rejects projects name d url. unfold user_page.
    destruct (Js.falsy_string name); [intros [= <-]; by left|]. cbv zeta.
    destruct (rejects d _); [intros [= <-]; by right|].
    destruct (select_userid d name) as [|userid [|]]; try (intros [= <-]; by left).
    destruct (rejects d _); [intros [= <-]; by right | done].
Qed.

(** ** The file names of the generator *)

Lemma string_prefix_app (pat b : string) : String.prefix pat (pat +:+ b) = true.
Proof.
  induction pat as [|x pat IH]; [by destruct b|].
  change (String x pat +:+ b) with (String x (pat +:+ b)). simpl.
  by destruct (ascii_dec x x).
Qed.

Lemma substring_all (s : string) : String.substring 0 (String.length s) s = s.
Proof. induction s as [|x s IH]; simpl; [done|]. by rewrite IH. Qed.

Lemma substring_drop (pat b : string) :
  String.substring (String.length pat) (String.length (pat +:+ b) - String.length pat)
    (pat +:+ b) = b.
Proof.
  induction pat as [|x pat IH].
  - change (EmptyString +:+ b) with b. simpl. rewrite Nat.sub_0_r. apply substring_all.
  - change (String x pat +:+ b) with (String x (pat +:+ b)). simpl. apply IH.
Qed.

Lemma replace_unfold (pat rep s : string) :
  Generator.replace pat rep s
  = if String.prefix pat s
    then rep +:+ String.substring (String.length pat)
                   (String.length s - String.length pat) s
    else match s with
         | EmptyString => EmptyString
         | String c s' => String c (Generator.replace pat rep s')
         end.
Proof. by destruct s. Qed.

(** The first occurrence of the pattern is the one replaced. *)
Lemma replace_first (pat rep a b : string) :
  no_match pat (a +:+ pat +:+ b) (String.length a) = true ->
  Generator.replace pat rep (a +:+ pat +:+ b) = a +:+ rep +:+ b.
Proof.
  induction a as [|x a IH].
  - intros _. change (EmptyString +:+ pat +:+ b) with (pat +:+ b).
    rewrite replace_unfold, string_prefix_app, substring_drop. done.
  - change (String x a +:+ pat +:+ b) with (String x (a +:+ pat +:+ b)).
    cbn [String.length no_match]. intros [Hx Ha]%andb_true_iff.
    rewrite replace_unfold. apply negb_true_iff in Hx. rewrite Hx.
    change (String x a +:+ rep +:+ b) with (String x (a +:+ rep +:+ b)).
    f_equal. by apply IH.
Qed.

Lemma pop_after_separator (sep : ascii) (pre s : string) :
  has_char sep s = false ->
  Js.pop_string (Js.split sep (pre +:+ String sep s)) = s.
Proof.
  intros Hs. unfold Js.pop_string.
  destruct (split_after_separator sep pre s) as (first & rest & E & Hne & Hl).
  rewrite E. rewrite (split_no_separator _ _ Hs) in Hl. simpl in Hl. rewrite <- Hl.
  by destruct rest.
Qed.

(** X26. The file names the generator works with, for a download address
    whose last component is [name-internal.osh.pbf]: the latest extract is
    [name-internal.osm.pbf] in the working directory, the two temporary
    extracts end in [.new.osm.pbf] and [.new-local.osm.pbf], and the polygon
    is [name.poly]; this as long as the patterns replaced do not occur
    earlier, in the working directory or in the name, for it is the first
    occurrence that is replaced. *)
Theorem generator_file_names (CONFIG : Generator.config) (base name : string) :
  Generator.OSH_PBF_URL CONFIG = base +:+ "/" +:+ name +:+ "-internal.osh.pbf" ->
  has_char "/" (name +:+ "-internal.osh.pbf") = false ->
  no_match ".osh.pbf" ((name +:+ "-internal") +:+ ".osh.pbf" +:+ EmptyString)
    (String.length (name +:+ "-internal")) = true ->
  no_match ".osm.pbf"
    ((Generator.WORK_DIR CONFIG +:+ "/" +:+ name +:+ "-internal") +:+ ".osm.pbf"
     +:+ EmptyString)
    (String.length (Generator.WORK_DIR CONFIG +:+ "/" +:+ name +:+ "-internal")) = true ->
  no_match "-internal.osm.pbf"
    ((Generator.WORK_DIR CONFIG +:+ "/" +:+ name) +:+ "-internal.osm.pbf" +:+ EmptyString)
    (String.length (Generator.WORK_DIR CONFIG +:+ "/" +:+ name)) = true ->
  Generator.OSM_PBF_LATEST CONFIG
  = Generator.WORK_DIR CONFIG +:+ "/" +:+ name +:+ "-internal.osm.pbf"
  /\ Generator.OSM_PBF_LATEST_UNSTABLE CONFIG
     = Generator.WORK_DIR CONFIG +:+ "/" +:+ name +:+ "-internal.new.osm.pbf"
  /\ Generator.OSM_PBF_LATEST_UNSTABLE_FILTERED CONFIG
     = Generator.WORK_DIR CONFIG +:+ "/" +:+ name +:+ "-internal.new-local.osm.pbf"
  /\ Generator.OSM_POLY CONFIG = Generator.WORK_DIR CONFIG +:+ "/" +:+ name +:+ ".poly".
Proof.
  intros Hurl Hname H1 H2 H3.
  assert (E : Generator.OSM_PBF_LATEST CONFIG
              = Generator.WORK_DIR CONFIG +:+ "/" +:+ name +:+ "-internal.osm.pbf").
  { unfold Generator.OSM_PBF_LATEST. rewrite Hurl.
    change ("/" +:+ name +:+ "-internal.osh.pbf")
      with (String "/" (name +:+ "-internal.osh.pbf")).
    rewrite (pop_after_separator "/" base _ Hname).
    replace (name +:+ "-internal.osh.pbf")
      with ((name +:+ "-internal") +:+ ".osh.pbf" +:+ EmptyString) by text_equal.
    rewrite (replace_first _ _ _ _ H1). text_equal. }
  split; [done|].
  unfold Generator.OSM_PBF_LATEST_UNSTABLE, Generator.OSM_PBF_LATEST_UNSTABLE_FILTERED,
    Generator.OSM_POLY.
  rewrite E.
  replace (Generator.WORK_DIR CONFIG +:+ "/" +:+ name +:+ "-internal.osm.pbf")
    with ((Generator.WORK_DIR CONFIG +:+ "/" +:+ name +:+ "-internal") +:+ ".osm.pbf"
          +:+ EmptyString) at 1 2 by text_equal.
  rewrite !(replace_first ".osm.pbf" _ _ _ H2).
  replace (Generator.WORK_DIR CONFIG +:+ "/" +:+ name +:+ "-internal.osm.pbf")
    with ((Generator.WORK_DIR CONFIG +:+ "/" +:+ name) +:+ "-internal.osm.pbf"
          +:+ EmptyString) by text_equal.
  rewrite (replace_first "-internal.osm.pbf" _ _ _ H3).
  split; [text_equal|]. split; text_equal.
Qed.

Lemma generator_file_names_witness :
  Generator.OSM_PBF_LATEST sample_config
  = Generator.WORK_DIR sample_config +:+ "/" +:+ "ile-de-france" +:+ "-internal.osm.pbf"
  /\ Generator.OSM_PBF_LATEST_UNSTABLE sample_config
     = Generator.WORK_DIR sample_config +:+ "/" +:+ "ile-de-france"
       +:+ "-internal.new.osm.pbf"
  /\ Generator.OSM_PBF_LATEST_UNSTABLE_FILTERED sample_config
     = Generator.WORK_DIR sample_config +:+ "/" +:+ "ile-de-france"
       +:+ "-internal.new-local.osm.pbf"
  /\ Generator.OSM_POLY sample_config
     = Generator.WORK_DIR sample_config +:+ "/" +:+ "ile-de-france" +:+ ".poly".
Proof.
  apply (generator_file_names sample_config "https://download.example/extracts"
           "ile-de-france");
    reflexivity.
Defined.
